(** * ChatRoom: the room actor of the Clairvora chat service

    A shallow embedding of [src/durable-objects/ChatRoom.ts] together with
    [validateToken] of [src/lib/auth.ts], and the properties of the room
    actor stated in the specification.

    Conventions of the embedding.
    - A JavaScript string is a [string]; a character stands for one code
      unit, of those below 256.  Message content of any code units is
      treated apart, in [Utf16].  A [number] holding an integer
      (timestamps, close codes, billing figures) is a [Z].
    - A [WebSocket] object is identified by a natural number; [===] on
      sockets is [Nat.eqb].
    - The [Map<WebSocket, SessionData>] is an association list in insertion
      order, which is the iteration order of a JavaScript [Map].
    - The actor's methods live in a state-and-exception monad [M] that also
      records, in program order, every call made on the outside world
      (socket sends and closes, SQL inserts, ledger calls, timers).
    - What the outside world answers during one event ([Date.now],
      [crypto.randomUUID], [jose.jwtVerify], [PhpApiClient.endReading]) is
      given with the event, in an [Oracle].
    - [ws.send] and [ws.close] are recorded, not executed: a send that the
      transport fails to deliver, or that throws because the socket has
      already been closed, is outside the model. *)

From Stdlib Require Import List String Ascii ZArith Arith Bool Lia.
From Stdlib Require Import Sorting.Permutation Sorting.Sorted.
From Stdlib Require Import DecimalString.
Import ListNotations.
Local Open Scope string_scope.

Set Implicit Arguments.

(* ------------------------------------------------------------------ *)
(** ** Data model ([src/lib/types.ts], [src/lib/auth.ts], [src/lib/php-api.ts]) *)

Definition WebSocket := nat.

Inductive UserType := client | advisor.

Definition UserType_eqb (a b : UserType) : bool :=
  match a, b with
  | client, client | advisor, advisor => true
  | _, _ => false
  end.

(** The text a [userType] has in JSON and in the [user_type TEXT] column. *)
Definition userTypeText (u : UserType) : string :=
  match u with client => "client" | advisor => "advisor" end.

(** [SessionData]: what is kept per connection, in memory and in the
    socket's serialized attachment. *)
Record SessionData := mkSession {
  userId : string;
  userType : UserType;
  userName : string;
  authenticated : bool
}.

(** [ChatMessage] (the [type: "message"] tag is the constructor
    [OutMessage] below). *)
Record ChatMessage := mkChatMessage {
  msg_id : string;
  msg_content : string;
  msg_userId : string;
  msg_userType : UserType;
  msg_userName : string;
  msg_timestamp : Z
}.

(** [StoredMessage]: a row of the [messages] table. *)
Record StoredMessage := mkStored {
  sm_id : string;
  sm_user_id : string;
  sm_user_type : string;
  sm_user_name : string;
  sm_content : string;
  sm_timestamp : Z
}.

(** An entry of [getParticipantList]. *)
Record Participant := mkParticipant {
  p_userId : string;
  p_userType : UserType;
  p_userName : string
}.

(** The claims [jose.jwtVerify] hands back.  The four claims that
    [validateToken] checks may be absent; the remaining ones are read at
    their declared type.  The numeric and avatar claims of [TokenPayload]
    are never read by the actor and are left out. *)
Record JWTPayload := mkJWT {
  jwt_sub : option string;
  jwt_reading_id : option string;
  jwt_user_type : option UserType;
  jwt_user_name : option string;
  jwt_client_id : string;
  jwt_advisor_id : string
}.

Record TokenPayload := mkToken {
  sub : string;
  reading_id : string;
  user_type : UserType;
  user_name : string;
  client_id : string;
  advisor_id : string
}.

(** [Env]: the two bindings the actor reads. *)
Record Env := mkEnv {
  ENVIRONMENT : string;
  JWT_SECRET : option string
}.

Record Billing := mkBilling {
  charged : bool;
  duration_minutes : Z;
  amount : Z;
  advisor_commission : Z
}.

Record EndReadingResponse := mkEndReading {
  er_success : bool;
  er_reading_id : Z;
  er_ended_by : string;
  er_reason : string;
  er_already_ended : option bool;
  er_billing : option Billing;
  er_error : option string
}.

Inductive PresenceStatus := online | offline.

(** The JSON payloads the actor sends, one constructor per [type]. *)
Inductive Outbound :=
| OutError (message : string)
| OutAuthError (message : string)
| OutAuthSuccess (uid : string) (participants : list Participant)
| OutHistory (messages : list StoredMessage)
| OutMessage (m : ChatMessage)
| OutTyping (uid : string) (utype : UserType) (isTyping : bool)
| OutPresence (uid : string) (utype : UserType) (uname : string)
              (status : PresenceStatus)
| OutChatEnded (endedBy : UserType) (uname : string) (reason : string)
               (billing : option Billing) (timestamp : Z)
| OutEndChatSuccess (result : EndReadingResponse)
| OutPong (timestamp : Z).

(** The payload kinds that go through [broadcast]. *)
Definition isBroadcastKind (p : Outbound) : bool :=
  match p with
  | OutMessage _ | OutTyping _ _ _ | OutPresence _ _ _ _
  | OutChatEnded _ _ _ _ _ => true
  | _ => false
  end.

Definition isErrorKind (p : Outbound) : bool :=
  match p with OutError _ => true | _ => false end.

(** Arguments of [PhpApiClient.syncMessage] and [PhpApiClient.endReading]. *)
Record SyncMessageParams := mkSync {
  sy_readingId : string;
  sy_clientId : string;
  sy_advisorId : string;
  sy_userType : UserType;
  sy_message : string;
  sy_messageId : string;
  sy_timestamp : Z
}.

Record EndReadingParams := mkEndParams {
  ep_readingId : string;
  ep_endedBy : UserType;
  ep_reason : string
}.

(** Calls on the outside world, in the order the code makes them. *)
Inductive Effect :=
| Send (ws : WebSocket) (payload : Outbound)
| Close (ws : WebSocket) (code : Z) (reason : string)
| AcceptWebSocket (ws : WebSocket)
| SerializeAttachment (ws : WebSocket) (s : SessionData)
| SqlInsert (row : StoredMessage)
| WaitUntilSync (job : SyncMessageParams)
| EndReadingCall (params : EndReadingParams)
| SetTimeoutCloseAll (delay : Z).

(** A parsed inbound frame: the properties of [data] the handlers read,
    each at the type the handler declares for it.  A JSON value without
    any of them (a number, an empty object) is the frame with every field
    absent. *)
Record Frame := mkFrame {
  d_type : option string;
  d_token : option string;
  d_userId : option string;
  d_userType : option string;
  d_userName : option string;
  d_content : option string;
  d_isTyping : option bool;
  d_reason : option string
}.

(** What [JSON.parse(message)] does: it throws, or gives [null] (on which
    [data.type] throws), or gives a value whose properties can be read. *)
Inductive Parsed :=
| Malformed
| JsonNull
| JsonValue (d : Frame).

(** The answers of the outside world during one event: the clock, the
    fresh identifier, what [jose.jwtVerify(token, secret, ...)] gives at
    that moment ([None] when it throws), and the response object that
    [endReading] resolves to ([None] when it throws or rejects, and also
    when it resolves to [null]: reading [result.billing] then throws in
    the same [try] block). *)
Record Oracle := mkOracle {
  now : Z;
  randomUUID : string;
  jwtVerify : string -> string -> option JWTPayload;
  endReadingResult : option EndReadingResponse
}.

(** The actor: its three in-memory fields and the [messages] table of its
    SQLite storage (rows in insertion order). *)
Record ChatRoom := mkRoom {
  sessions : list (WebSocket * SessionData);
  roomId : option string;
  tokenPayload : option TokenPayload;
  messages : list StoredMessage
}.

(* ------------------------------------------------------------------ *)
(** ** JavaScript helpers *)

(** Truthiness of a [string | undefined]. *)
Definition truthy (o : option string) : bool :=
  match o with
  | Some s => negb (s =? "")
  | None => false
  end.

(** [a || b] on strings. *)
Definition orElse (o : option string) (d : string) : string :=
  match o with
  | Some s => if s =? "" then d else s
  | None => d
  end.

(** White space of [String.prototype.trim] among the code units below 256. *)
Definition isWhiteSpace (c : ascii) : bool :=
  let n := nat_of_ascii c in
  ((9 <=? n)%nat && (n <=? 13)%nat) || (n =? 32)%nat || (n =? 160)%nat.

Fixpoint trimStart (s : string) : string :=
  match s with
  | EmptyString => EmptyString
  | String c s' => if isWhiteSpace c then trimStart s' else s
  end.

Fixpoint trimEnd (s : string) : string :=
  match s with
  | EmptyString => EmptyString
  | String c s' =>
      match trimEnd s' with
      | EmptyString => if isWhiteSpace c then EmptyString else String c EmptyString
      | t => String c t
      end
  end.

Definition trim (s : string) : string := trimEnd (trimStart s).

(** [s.replace(/c/g, r)] for a one-character pattern and a replacement
    without [$]. *)
Fixpoint replaceAll (c : ascii) (r : string) (s : string) : string :=
  match s with
  | EmptyString => EmptyString
  | String x s' =>
      if Ascii.eqb x c then r ++ replaceAll c r s'
      else String x (replaceAll c r s')
  end.

Definition quoteChar : ascii := "034"%char.

(** [sanitizeContent] *)
Definition sanitizeContent (content : string) : string :=
  substring 0 1000
    (replaceAll "'"%char "&#039;"
      (replaceAll quoteChar "&quot;"
        (replaceAll ">"%char "&gt;"
          (replaceAll "<"%char "&lt;"
            (replaceAll "&"%char "&amp;" content))))).

(** The same result said the way the specification says it: every
    HTML-significant character becomes its entity, then the text is cut
    at the cap. *)
Definition contentCap : nat := 1000.

Definition htmlEntity (c : ascii) : string :=
  if Ascii.eqb c "&"%char then "&amp;"
  else if Ascii.eqb c "<"%char then "&lt;"
  else if Ascii.eqb c ">"%char then "&gt;"
  else if Ascii.eqb c quoteChar then "&quot;"
  else if Ascii.eqb c "'"%char then "&#039;"
  else String c EmptyString.

Fixpoint escapeHtml (s : string) : string :=
  match s with
  | EmptyString => EmptyString
  | String c s' => htmlEntity c ++ escapeHtml s'
  end.

Definition sanitize_spec (content : string) : string :=
  substring 0 contentCap (escapeHtml content).

(* ------------------------------------------------------------------ *)
(** ** Text of any code units

    [sanitizeContent] once more, on JavaScript strings as they are:
    sequences of 16-bit code units, among them the surrogates, two of
    which in a row (a high one, then a low one) stand for one character
    above U+FFFF.  The [string]s used everywhere else are the texts all of
    whose code units are below 256. *)

Module Utf16.

Definition JsString := list N.

(** The code units of a text of code units below 256. *)
Definition ofString (s : string) : JsString :=
  map N_of_ascii (list_ascii_of_string s).

(** U+D800 to U+DBFF *)
Definition isHighSurrogate (u : N) : bool :=
  ((55296 <=? u) && (u <=? 56319))%N.

(** U+DC00 to U+DFFF *)
Definition isLowSurrogate (u : N) : bool :=
  ((56320 <=? u) && (u <=? 57343))%N.

(** Well-formed UTF-16: no surrogate outside a pair. *)
Fixpoint wellFormed (s : JsString) : bool :=
  match s with
  | nil => true
  | (u :: rest)%list =>
      if isHighSurrogate u then
        match rest with
        | nil => false
        | (v :: rest')%list => isLowSurrogate v && wellFormed rest'
        end
      else negb (isLowSurrogate u) && wellFormed rest
  end.

(** [s.replace(/c/g, r)] for a pattern of one code unit. *)
Fixpoint replaceAll (c : N) (r : JsString) (s : JsString) : JsString :=
  match s with
  | nil => nil
  | (x :: s')%list =>
      if (x =? c)%N then (r ++ replaceAll c r s')%list
      else (x :: replaceAll c r s')%list
  end.

(** [sanitizeContent]: the patterns are the code units of [&], [<], [>],
    the double quote and the single quote; [substring(0, 1000)] counts
    code units. *)
Definition sanitizeContent (content : JsString) : JsString :=
  firstn 1000
    (replaceAll 39 (ofString "&#039;")
      (replaceAll 34 (ofString "&quot;")
        (replaceAll 62 (ofString "&gt;")
          (replaceAll 60 (ofString "&lt;")
            (replaceAll 38 (ofString "&amp;") content))))).

(** U+FFFD, the replacement character. *)
Definition replacementCharacter : N := 65533.

(** What the [content TEXT] column gives back for a string bound to the
    [INSERT].  The text goes to UTF-8 and comes back from it.  A
    character, also one made of a surrogate pair, comes back as it went.
    A surrogate outside a pair is not a character: it is written as three
    bytes that are not UTF-8, and each of them comes back as U+FFFD. *)
Fixpoint columnText (s : JsString) : JsString :=
  match s with
  | nil => nil
  | (u :: rest)%list =>
      if isHighSurrogate u then
        match rest with
        | nil => repeat replacementCharacter 3
        | (v :: rest')%list =>
            if isLowSurrogate v then (u :: v :: columnText rest')%list
            else (repeat replacementCharacter 3 ++ columnText rest)%list
        end
      else if isLowSurrogate u
      then (repeat replacementCharacter 3 ++ columnText rest)%list
      else (u :: columnText rest)%list
  end.

(** 999 times the letter [a], then U+1F600 (the pair D83D, DE00): 1001
    code units, one more than the cap, so that the cut falls inside the
    pair. *)
Definition pairAcrossTheCap : JsString :=
  (repeat 97%N 999 ++ [55357%N; 56832%N])%list.

End Utf16.

(* ------------------------------------------------------------------ *)
(** ** The session map *)

Fixpoint sessions_get (ws : WebSocket) (l : list (WebSocket * SessionData))
  : option SessionData :=
  match l with
  | [] => None
  | (k, v) :: r => if Nat.eqb k ws then Some v else sessions_get ws r
  end.

(** [Map.set]: an existing key keeps its place, a new key goes last. *)
Fixpoint sessions_set (ws : WebSocket) (s : SessionData)
  (l : list (WebSocket * SessionData)) : list (WebSocket * SessionData) :=
  match l with
  | [] => [(ws, s)]
  | (k, v) :: r =>
      if Nat.eqb k ws then (ws, s) :: r else (k, v) :: sessions_set ws s r
  end.

Definition sessions_delete (ws : WebSocket)
  (l : list (WebSocket * SessionData)) : list (WebSocket * SessionData) :=
  filter (fun e => negb (Nat.eqb (fst e) ws)) l.

(* ------------------------------------------------------------------ *)
(** ** The monad of the actor's methods

    A computation reads and writes the actor, may throw, and appends to
    the record of outside calls.  What was written and called before a
    throw stays. *)

Definition M (A : Type) : Type :=
  ChatRoom -> option A * ChatRoom * list Effect.

Definition ret {A} (a : A) : M A := fun st => (Some a, st, []).

Definition bind {A B} (m : M A) (k : A -> M B) : M B :=
  fun st =>
    match m st with
    | (Some a, st1, t1) =>
        match k a st1 with (r, st2, t2) => (r, st2, (t1 ++ t2)%list) end
    | (None, st1, t1) => (None, st1, t1)
    end.

Definition throw {A} : M A := fun st => (None, st, []).

(** [try { m } catch { h }] *)
Definition try_catch {A} (m : M A) (h : M A) : M A :=
  fun st =>
    match m st with
    | (Some a, st1, t1) => (Some a, st1, t1)
    | (None, st1, t1) =>
        match h st1 with (r, st2, t2) => (r, st2, (t1 ++ t2)%list) end
    end.

Definition gets {A} (f : ChatRoom -> A) : M A := fun st => (Some (f st), st, []).

Definition modify (f : ChatRoom -> ChatRoom) : M unit :=
  fun st => (Some tt, f st, []).

Definition emit (e : Effect) : M unit := fun st => (Some tt, st, [e]).

Notation "x <- m ;; k" := (bind m (fun x => k))
  (at level 61, m at next level, right associativity).
Notation "m ;;; k" := (bind m (fun _ => k))
  (at level 61, right associativity).

(** [for (const x of l) body] *)
Fixpoint for_each {A} (l : list A) (body : A -> M unit) : M unit :=
  match l with
  | [] => ret tt
  | x :: r => body x ;;; for_each r body
  end.

Definition send (ws : WebSocket) (p : Outbound) : M unit := emit (Send ws p).
Definition close (ws : WebSocket) (code : Z) (reason : string) : M unit :=
  emit (Close ws code reason).

Definition set_sessions (l : list (WebSocket * SessionData)) (st : ChatRoom) :=
  mkRoom l (roomId st) (tokenPayload st) (messages st).
Definition set_roomId (r : option string) (st : ChatRoom) :=
  mkRoom (sessions st) r (tokenPayload st) (messages st).
Definition set_tokenPayload (p : option TokenPayload) (st : ChatRoom) :=
  mkRoom (sessions st) (roomId st) p (messages st).
Definition set_messages (l : list StoredMessage) (st : ChatRoom) :=
  mkRoom (sessions st) (roomId st) (tokenPayload st) l.

(* ------------------------------------------------------------------ *)
(** ** The [messages] table *)

(** [INSERT INTO messages ... VALUES (...)]: [id] is the primary key, so
    inserting an id the table already has throws. *)
Definition sqlInsert (row : StoredMessage) : M unit :=
  rows <- gets messages ;;
  if existsb (fun r => sm_id r =? sm_id row) rows then throw
  else modify (set_messages (rows ++ [row])%list) ;;; emit (SqlInsert row).

(** [ORDER BY timestamp DESC].  Rows with the same timestamp stay in table
    order; SQL leaves their order open and no property below relies on it. *)
Fixpoint insertDesc (r : StoredMessage) (l : list StoredMessage)
  : list StoredMessage :=
  match l with
  | [] => [r]
  | x :: l' =>
      if (sm_timestamp x <=? sm_timestamp r)%Z then r :: l
      else x :: insertDesc r l'
  end.

Definition orderByTimestampDesc (rows : list StoredMessage)
  : list StoredMessage :=
  fold_right insertDesc [] rows.

(** [SELECT ... FROM messages ORDER BY timestamp DESC LIMIT ?] *)
Definition sqlSelectRecent (limit : nat) : M (list StoredMessage) :=
  rows <- gets messages ;;
  ret (firstn limit (orderByTimestampDesc rows)).

(** [getRecentMessages] *)
Definition getRecentMessages (limit : nat) : M (list StoredMessage) :=
  cursor <- sqlSelectRecent limit ;;
  let messages :=
    map (fun row => mkStored (sm_id row) (sm_user_id row) (sm_user_type row)
                      (sm_user_name row) (sm_content row) (sm_timestamp row))
        cursor in
  ret (rev messages).

(* ------------------------------------------------------------------ *)
(** ** [validateToken] ([src/lib/auth.ts]) *)

Definition validateToken (o : Oracle) (token jwtSecret : string)
  : option TokenPayload :=
  match jwtVerify o token jwtSecret with
  | None => None
  | Some payload =>
      match jwt_sub payload, jwt_reading_id payload,
            jwt_user_type payload, jwt_user_name payload with
      | Some s, Some r, Some t, Some n =>
          if (s =? "") || (r =? "") || (n =? "") then None
          else Some (mkToken s r t n (jwt_client_id payload)
                       (jwt_advisor_id payload))
      | _, _, _, _ => None
      end
  end.

(* ------------------------------------------------------------------ *)
(** ** The methods of [ChatRoom] *)

(** [broadcast] *)
Definition broadcast (message : Outbound) (exclude : option WebSocket)
  : M unit :=
  l <- gets sessions ;;
  for_each l (fun e =>
    let '(ws, session) := e in
    if match exclude with Some x => Nat.eqb ws x | None => false end
    then ret tt
    else if negb (authenticated session) then ret tt
    else send ws message).

(** [getParticipantList] *)
Definition getParticipantList : M (list Participant) :=
  l <- gets sessions ;;
  ret (flat_map (fun e : WebSocket * SessionData =>
         let session := snd e in
         if authenticated session
         then [mkParticipant (userId session) (userType session)
                 (userName session)]
         else []) l).

(** The part of [handleAuth] after the three-way choice.  [session] is the
    object stored under [ws], so assigning its fields updates that entry,
    and [sessions.set(ws, session)] stores the same object under the same
    key. *)
Definition handleAuth_bind (ws : WebSocket) (uid : string) (utype : UserType)
  (uname : string) : M unit :=
  let session := mkSession uid utype uname true in
  modify (fun st => set_sessions (sessions_set ws session (sessions st)) st) ;;;
  emit (SerializeAttachment ws session) ;;;
  participants <- getParticipantList ;;
  send ws (OutAuthSuccess uid participants) ;;;
  messages <- getRecentMessages 100 ;;
  send ws (OutHistory messages) ;;;
  broadcast (OutPresence uid utype uname online) (Some ws).

(** [handleAuth] *)
Definition handleAuth (env : Env) (o : Oracle) (ws : WebSocket)
  (session : SessionData) (data : Frame) : M unit :=
  if truthy (d_token data) && truthy (JWT_SECRET env) then
    match validateToken o (orElse (d_token data) "")
            (orElse (JWT_SECRET env) "") with
    | None =>
        send ws (OutAuthError "Invalid or expired token") ;;;
        close ws 4001 "Unauthorized"
    | Some payload =>
        rid <- gets roomId ;;
        if truthy rid && negb (reading_id payload =? orElse rid "") then
          send ws (OutAuthError "Token not valid for this room") ;;;
          close ws 4003 "Forbidden"
        else
          modify (set_tokenPayload (Some payload)) ;;;
          handleAuth_bind ws (sub payload) (user_type payload)
            (user_name payload)
    end
  else if (ENVIRONMENT env =? "development") && negb (truthy (JWT_SECRET env))
  then
    handleAuth_bind ws
      (orElse (d_userId data) (randomUUID o))
      (match d_userType data with
       | Some t => if t =? "advisor" then advisor else client
       | None => client
       end)
      (orElse (d_userName data) "Anonymous")
  else
    send ws (OutAuthError "Token required") ;;;
    close ws 4001 "Unauthorized".

Definition storedOf (m : ChatMessage) : StoredMessage :=
  mkStored (msg_id m) (msg_userId m) (userTypeText (msg_userType m))
    (msg_userName m) (msg_content m) (msg_timestamp m).

(** [syncMessageToPhp], up to the request it starts; [ctx.waitUntil] keeps
    that request running in the background. *)
Definition syncMessageToPhp (message : ChatMessage) : M unit :=
  tp <- gets tokenPayload ;;
  rid <- gets roomId ;;
  match tp with
  | Some p =>
      if truthy rid then
        emit (WaitUntilSync
                (mkSync (orElse rid "") (client_id p) (advisor_id p)
                   (msg_userType message) (msg_content message)
                   (msg_id message) (msg_timestamp message)))
      else ret tt
  | None => ret tt
  end.

(** [handleChatMessage] *)
Definition handleChatMessage (o : Oracle) (ws : WebSocket)
  (session : SessionData) (data : Frame) : M unit :=
  if negb (truthy (d_content data)) || (trim (orElse (d_content data) "") =? "")
  then ret tt
  else
    let message :=
      mkChatMessage (randomUUID o)
        (sanitizeContent (orElse (d_content data) ""))
        (userId session) (userType session) (userName session) (now o) in
    sqlInsert (storedOf message) ;;;
    broadcast (OutMessage message) None ;;;
    tp <- gets tokenPayload ;;
    rid <- gets roomId ;;
    if match tp with Some _ => true | None => false end && truthy rid
    then syncMessageToPhp message
    else ret tt.

(** [this.phpApi.endReading(params)], awaited, with the first use of the
    result: the call is made, and either it resolves to a response
    object, or the [try] block around it is left by an exception. *)
Definition endReading (o : Oracle) (params : EndReadingParams)
  : M EndReadingResponse :=
  emit (EndReadingCall params) ;;;
  match endReadingResult o with
  | Some result => ret result
  | None => throw
  end.

(** [handleEndChat].  The sends are recorded as made; that the
    confirmation to the initiator can throw on a socket already closed,
    which skips the timer, is not modelled. *)
Definition handleEndChat (o : Oracle) (ws : WebSocket)
  (session : SessionData) (data : Frame) : M unit :=
  tp <- gets tokenPayload ;;
  rid <- gets roomId ;;
  if negb (match tp with Some _ => true | None => false end)
     || negb (truthy rid)
  then send ws (OutError "Cannot end chat: missing session data")
  else
    let endedBy := userType session in
    let reason := orElse (d_reason data) "normal" in
    try_catch
      (result <- endReading o (mkEndParams (orElse rid "") endedBy reason) ;;
       broadcast
         (OutChatEnded endedBy (userName session) reason (er_billing result)
            (now o)) None ;;;
       send ws (OutEndChatSuccess result) ;;;
       emit (SetTimeoutCloseAll 1000))
      (send ws (OutError "Failed to end chat. Please try again.")).

(** The callback [handleEndChat] hands to [setTimeout]. *)
Definition endChatTimeout : M unit :=
  l <- gets sessions ;;
  for_each l (fun e => close (fst e) 1000 "Chat session ended") ;;;
  modify (set_sessions []).

(** [handleTypingIndicator] *)
Definition handleTypingIndicator (ws : WebSocket) (session : SessionData)
  (data : Frame) : M unit :=
  broadcast
    (OutTyping (userId session) (userType session)
       (match d_isTyping data with Some b => b | None => false end))
    (Some ws).

(** [JSON.parse(message as string)] *)
Definition JSON_parse (message : Parsed) : M Parsed :=
  match message with
  | Malformed => throw
  | data => ret data
  end.

Definition notAuthenticated (ws : WebSocket) : M unit :=
  send ws (OutError "Not authenticated").

(** [webSocketMessage] *)
Definition webSocketMessage (env : Env) (o : Oracle) (ws : WebSocket)
  (message : Parsed) : M unit :=
  try_catch
    (data <- JSON_parse message ;;
     session <- gets (fun st => sessions_get ws (sessions st)) ;;
     match session with
     | None => send ws (OutError "No session")
     | Some session =>
         match data with
         | JsonValue data =>
             match d_type data with
             | Some type =>
                 if type =? "auth" then handleAuth env o ws session data
                 else if type =? "message" then
                   if negb (authenticated session) then notAuthenticated ws
                   else handleChatMessage o ws session data
                 else if type =? "typing" then
                   if negb (authenticated session) then ret tt
                   else handleTypingIndicator ws session data
                 else if type =? "end_chat" then
                   if negb (authenticated session) then notAuthenticated ws
                   else handleEndChat o ws session data
                 else if type =? "ping" then send ws (OutPong (now o))
                 else send ws (OutError "Unknown message type")
             | None => send ws (OutError "Unknown message type")
             end
         | _ => throw
         end
     end)
    (send ws (OutError "Invalid message format")).

(** [webSocketClose] *)
Definition webSocketClose (ws : WebSocket) (code : Z) (reason : string)
  : M unit :=
  session <- gets (fun st => sessions_get ws (sessions st)) ;;
  match session with
  | Some session =>
      if authenticated session then
        broadcast
          (OutPresence (userId session) (userType session) (userName session)
             offline) (Some ws)
      else ret tt
  | None => ret tt
  end ;;;
  modify (fun st => set_sessions (sessions_delete ws (sessions st)) st).

(** [webSocketError] *)
Definition webSocketError (ws : WebSocket) : M unit :=
  modify (fun st => set_sessions (sessions_delete ws (sessions st)) st).

(** The parts of a [Request] that [fetch] reads. *)
Record Request := mkRequest {
  pathname : string;
  room_id : option string;
  upgrade : option string
}.

Inductive Response :=
| SwitchingProtocols
| JsonBody (body : list StoredMessage)
| TextBody (status : Z) (body : string).

(** [handleWebSocketUpgrade]; [server] is the server end of the new
    [WebSocketPair]. *)
Definition handleWebSocketUpgrade (request : Request) (server : WebSocket)
  : M Response :=
  if negb (match upgrade request with
           | Some h => h =? "websocket"
           | None => false
           end)
  then ret (TextBody 426 "Expected WebSocket")
  else
    emit (AcceptWebSocket server) ;;;
    let session := mkSession "" client "Anonymous" false in
    emit (SerializeAttachment server session) ;;;
    modify (fun st => set_sessions (sessions_set server session (sessions st)) st) ;;;
    ret SwitchingProtocols.

(** [fetch] *)
Definition fetch (request : Request) (server : WebSocket) : M Response :=
  (if truthy (room_id request) then modify (set_roomId (room_id request))
   else ret tt) ;;;
  if pathname request =? "/websocket" then
    handleWebSocketUpgrade request server
  else if pathname request =? "/history" then
    messages <- getRecentMessages 100 ;;
    ret (JsonBody messages)
  else ret (TextBody 404 "Not found").

(** [constructor]: a fresh instance, or one woken from hibernation.
    [sockets] is what [ctx.getWebSockets()] lists, each socket with what
    [deserializeAttachment] gives for it; [storage] is the [messages]
    table as the previous instance left it. *)
Definition ChatRoom_constructor
  (sockets : list (WebSocket * option SessionData))
  (storage : list StoredMessage) : ChatRoom :=
  mkRoom
    (fold_left (fun acc e =>
       match snd e with
       | Some attachment => sessions_set (fst e) attachment acc
       | None => acc
       end) sockets [])
    None None storage.

(* ------------------------------------------------------------------ *)
(** ** The actor as a machine over events *)

Inductive Event :=
| Fetch (request : Request) (server : WebSocket)
| WsMessage (ws : WebSocket) (message : Parsed) (o : Oracle)
| WsClose (ws : WebSocket) (code : Z) (reason : string)
| WsError (ws : WebSocket)
| Timeout.

Definition stateOf {A} (r : option A * ChatRoom * list Effect) : ChatRoom :=
  snd (fst r).
Definition traceOf {A} (r : option A * ChatRoom * list Effect) : list Effect :=
  snd r.

Definition step (env : Env) (st : ChatRoom) (ev : Event)
  : ChatRoom * list Effect :=
  match ev with
  | Fetch request server =>
      let r := fetch request server st in (stateOf r, traceOf r)
  | WsMessage ws message o =>
      let r := webSocketMessage env o ws message st in (stateOf r, traceOf r)
  | WsClose ws code reason =>
      let r := webSocketClose ws code reason st in (stateOf r, traceOf r)
  | WsError ws =>
      let r := webSocketError ws st in (stateOf r, traceOf r)
  | Timeout =>
      let r := endChatTimeout st in (stateOf r, traceOf r)
  end.

(** The state after a sequence of events, one at a time. *)
Fixpoint run (env : Env) (st : ChatRoom) (evs : list Event) : ChatRoom :=
  match evs with
  | [] => st
  | ev :: rest => run env (fst (step env st ev)) rest
  end.

(** An [auth] frame that passes the credential branch of [handleAuth]:
    sent on a registered connection, with a token and a configured secret,
    a token that verifies, and a room claim that agrees with the bound
    room id if there is one. *)
Definition jwtAuthSucceeds (env : Env) (st : ChatRoom) (ev : Event) : bool :=
  match ev with
  | WsMessage ws (JsonValue data) o =>
      match sessions_get ws (sessions st), d_type data with
      | Some _, Some type =>
          (type =? "auth")
          && truthy (d_token data) && truthy (JWT_SECRET env)
          && match validateToken o (orElse (d_token data) "")
                     (orElse (JWT_SECRET env) "") with
             | Some payload =>
                 negb (truthy (roomId st)
                       && negb (reading_id payload =? orElse (roomId st) ""))
             | None => false
             end
      | _, _ => false
      end
  | _ => false
  end.

(** No event of the sequence is a successful credential authentication. *)
Fixpoint noJwtAuth (env : Env) (st : ChatRoom) (evs : list Event) : bool :=
  match evs with
  | [] => true
  | ev :: rest =>
      negb (jwtAuthSucceeds env st ev)
      && noJwtAuth env (fst (step env st ev)) rest
  end.

(* ------------------------------------------------------------------ *)
(** ** The worker entry point ([src/index.ts])

    The worker answers some requests itself and forwards the others to
    the room actor named in the path.  [Rooms] gives, for every name, the
    state of the actor [env.CHAT_ROOM.get(env.CHAT_ROOM.idFromName(name))]
    reaches. *)

(** The parts of the incoming [Request] the worker reads or passes on. *)
Record WorkerRequest := mkWorkerRequest {
  wr_method : string;
  wr_pathname : string;
  wr_upgrade : option string
}.

Definition corsHeaders : list (string * string) :=
  [("Access-Control-Allow-Origin", "*");
   ("Access-Control-Allow-Methods", "GET, POST, OPTIONS");
   ("Access-Control-Allow-Headers", "Content-Type, Authorization")].

(** What is left of [s] after [prefix], when [s] starts with it. *)
Fixpoint stripPrefix (prefix s : string) : option string :=
  match prefix, s with
  | EmptyString, _ => Some s
  | String a prefix', String b s' =>
      if Ascii.eqb a b then stripPrefix prefix' s' else None
  | String _ _, EmptyString => None
  end.

(** The run of characters other than [/] at the head of [s], and what
    follows it: the only way [[^/]+] followed by [/] or the end can match. *)
Fixpoint segment (s : string) : string * string :=
  match s with
  | EmptyString => (EmptyString, EmptyString)
  | String c s' =>
      if Ascii.eqb c "/"%char then (EmptyString, s)
      else let (seg, rest) := segment s' in (String c seg, rest)
  end.

(** [pathname.match(/^\/chat\/([^/]+)$/)], the captured group. *)
Definition matchChat (pathname : string) : option string :=
  match stripPrefix "/chat/" pathname with
  | Some tail =>
      let (seg, rest) := segment tail in
      if negb (seg =? "") && (rest =? "") then Some seg else None
  | None => None
  end.

(** [pathname.match(/^\/api\/chat\/([^/]+)\/history$/)], the captured
    group. *)
Definition matchHistory (pathname : string) : option string :=
  match stripPrefix "/api/chat/" pathname with
  | Some tail =>
      let (seg, rest) := segment tail in
      if negb (seg =? "") && (rest =? "/history") then Some seg else None
  | None => None
  end.

(** What the worker returns: a response of its own, the room's response
    as it is, or the room's status and body under new headers. *)
Inductive WorkerResponse :=
| Direct (status : Z) (body : option string) (headers : list (string * string))
| FromRoom (response : Response)
| Rewrapped (status : Z) (body : Response) (headers : list (string * string)).

Definition responseStatus (r : Response) : Z :=
  match r with
  | SwitchingProtocols => 101
  | JsonBody _ => 200
  | TextBody status _ => status
  end.

Definition Rooms := string -> ChatRoom.

Definition setRoom (name : string) (st : ChatRoom) (rooms : Rooms) : Rooms :=
  fun n => if n =? name then st else rooms n.

(** [stub.fetch(request)] on the actor named [name]. *)
Definition stubFetch (name : string) (request : Request) (server : WebSocket)
  (rooms : Rooms) : option Response * Rooms * list Effect :=
  match fetch request server (rooms name) with
  | (r, st, t) => (r, setRoom name st rooms, t)
  end.

Definition notFound : WorkerResponse :=
  Direct 404 (Some "Not found") corsHeaders.

(** The worker's [fetch].  [server] is the socket end a room creates if the
    request turns out to be an upgrade. *)
Definition workerFetch (request : WorkerRequest) (server : WebSocket)
  (rooms : Rooms) : option WorkerResponse * Rooms * list Effect :=
  if wr_method request =? "OPTIONS" then
    (Some (Direct 200 None corsHeaders), rooms, [])
  else if wr_pathname request =? "/health" then
    (Some (Direct 200 (Some "OK") corsHeaders), rooms, [])
  else
    match matchChat (wr_pathname request) with
    | Some roomId =>
        if roomId =? "" then
          (Some (Direct 400 (Some "Missing room ID") corsHeaders), rooms, [])
        else
          match stubFetch roomId
                  (mkRequest "/websocket" (Some roomId) (wr_upgrade request))
                  server rooms with
          | (Some response, rooms', t) => (Some (FromRoom response), rooms', t)
          | (None, rooms', t) => (None, rooms', t)
          end
    | None =>
        match matchHistory (wr_pathname request) with
        | Some roomId =>
            if wr_method request =? "GET" then
              match stubFetch roomId (mkRequest "/history" None None)
                      server rooms with
              | (Some response, rooms', t) =>
                  (Some (Rewrapped (responseStatus response) response
                           (("Content-Type", "application/json")
                            :: corsHeaders)),
                   rooms', t)
              | (None, rooms', t) => (None, rooms', t)
              end
            else (Some notFound, rooms, [])
        | None => (Some notFound, rooms, [])
        end
    end.

(** The deployment as a machine: requests come in at the worker, socket
    events at the room that owns the socket, and a room may be woken from
    hibernation with the sockets the runtime kept. *)
Inductive SystemEvent :=
| Incoming (request : WorkerRequest) (server : WebSocket)
| AtRoom (name : string) (ev : Event)
| Wake (name : string) (sockets : list (WebSocket * option SessionData)).

Definition systemStep (env : Env) (rooms : Rooms) (e : SystemEvent)
  : Rooms * list Effect :=
  match e with
  | Incoming request server =>
      let r := workerFetch request server rooms in (snd (fst r), snd r)
  | AtRoom name ev =>
      let r := step env (rooms name) ev in (setRoom name (fst r) rooms, snd r)
  | Wake name sockets =>
      (setRoom name
         (ChatRoom_constructor sockets (messages (rooms name))) rooms, [])
  end.

Fixpoint systemRun (env : Env) (rooms : Rooms) (es : list SystemEvent)
  : Rooms :=
  match es with
  | [] => rooms
  | e :: rest => systemRun env (fst (systemStep env rooms e)) rest
  end.

(** Before any request every actor is a fresh instance. *)
Definition freshRooms : Rooms := fun _ => ChatRoom_constructor [] [].

(** A room's [fetch] is only ever called by the worker. *)
Definition viaWorker (e : SystemEvent) : bool :=
  match e with
  | AtRoom _ (Fetch _ _) => false
  | _ => true
  end.

(* ------------------------------------------------------------------ *)
(** ** The ledger client ([src/lib/php-api.ts]) *)

Record PhpApiClient := mkPhpApi {
  baseUrl : string;
  apiKey : string
}.

(** [new PhpApiClient(env)], from the two bindings it reads. *)
Definition PhpApiClient_constructor (PHP_API_URL CHAT_API_KEY : option string)
  : PhpApiClient :=
  mkPhpApi (orElse PHP_API_URL "https://clairvora.com/api/chat")
    (orElse CHAT_API_KEY "").

(** The values that occur in the JSON bodies the client sends. *)
Inductive Json :=
| JString (s : string)
| JNumber (n : Z).

(** The [options] a method passes to [request]. *)
Record RequestInit := mkInit {
  ri_method : option string;
  ri_body : option (list (string * Json));
  ri_headers : list (string * string)
}.

(** What [request] hands to the global [fetch]. *)
Record HttpRequest := mkHttp {
  http_url : string;
  http_method : option string;
  http_headers : list (string * string);
  http_body : option (list (string * Json))
}.

(** A property assignment in an object literal: an existing key keeps its
    place and takes the new value. *)
Fixpoint setProperty (k v : string) (l : list (string * string))
  : list (string * string) :=
  match l with
  | [] => [(k, v)]
  | (k', v') :: r =>
      if k' =? k then (k, v) :: r else (k', v') :: setProperty k v r
  end.

(** [{ ...target, ...source }] *)
Definition spread (target source : list (string * string))
  : list (string * string) :=
  fold_left (fun acc e => setProperty (fst e) (snd e) acc) source target.

(** How the HTTP exchange of one [request] goes: [fetch] rejects, or a
    response arrives whose body is not JSON, or one whose body is the
    JSON text [null], or one whose body parses to the object [data], with
    [error] the [error] property of that object. *)
Inductive HttpOutcome (T : Type) :=
| FetchRejects
| NotJson (status : Z)
| NullReply (status : Z)
| JsonReply (status : Z) (data : T) (error : option string).

Arguments FetchRejects {T}.
Arguments NotJson {T} status.
Arguments NullReply {T} status.
Arguments JsonReply {T} status data error.

(** How the promise of [request] settles: with the parsed object, with
    [null], or rejected.  A rejection carries the message of the [Error]
    that [request] throws itself, or nothing when the exception comes from
    [fetch], from [response.json] or from reading [data.error] of
    [null]. *)
Inductive Settled (T : Type) :=
| Resolved (data : T)
| ResolvedNull
| Rejected (message : option string).

Arguments Resolved {T} data.
Arguments ResolvedNull {T}.
Arguments Rejected {T} message.

(** [response.ok] *)
Definition statusOk (status : Z) : bool :=
  (200 <=? status)%Z && (status <=? 299)%Z.

(** [`HTTP ${response.status}`] *)
Definition httpStatusText (status : Z) : string :=
  "HTTP " ++ NilZero.string_of_int (Z.to_int status).

(** [request]: the call it makes, and how it settles for each way the
    exchange can go. *)
Definition request {T : Type} (api : PhpApiClient) (endpoint : string)
  (options : RequestInit) : HttpRequest * (HttpOutcome T -> Settled T) :=
  let url := baseUrl api ++ "/" ++ endpoint in
  let headers :=
    spread [("X-Chat-API-Key", apiKey api);
            ("Content-Type", "application/json")]
      (ri_headers options) in
  (mkHttp url (ri_method options) headers (ri_body options),
   fun outcome =>
     match outcome with
     | FetchRejects => Rejected None
     | NotJson _ => Rejected None
     | NullReply status =>
         if negb (statusOk status) then Rejected None else ResolvedNull
     | JsonReply status data error =>
         if negb (statusOk status)
         then Rejected (Some (orElse error (httpStatusText status)))
         else Resolved data
     end).

Record BalanceResponse := mkBalance {
  bal_success : bool;
  bal_reading_id : Z;
  bal_reading_status : Z;
  bal_client_id : Z;
  bal_balance : Z;
  bal_rate_per_minute : Z;
  bal_minutes_remaining : Z;
  bal_auto_refill_enabled : bool;
  bal_backup_payments_enabled : bool
}.

Record SyncMessageResponse := mkSyncResponse {
  sr_success : bool;
  sr_chat_id : option Z;
  sr_message_id : option string;
  sr_duplicate : option bool;
  sr_error : option string
}.

(** [getBalance] *)
Definition getBalance (api : PhpApiClient) (readingId : string)
  : HttpRequest * (HttpOutcome BalanceResponse -> Settled BalanceResponse) :=
  request api ("balance.php?reading_id=" ++ readingId) (mkInit None None []).

(** [syncMessage] *)
Definition syncMessage (api : PhpApiClient) (params : SyncMessageParams)
  : HttpRequest
    * (HttpOutcome SyncMessageResponse -> Settled SyncMessageResponse) :=
  request api "sync-message.php"
    (mkInit (Some "POST")
       (Some [("reading_id", JString (sy_readingId params));
              ("client_id", JString (sy_clientId params));
              ("advisor_id", JString (sy_advisorId params));
              ("user_type", JString (userTypeText (sy_userType params)));
              ("message", JString (sy_message params));
              ("message_id", JString (sy_messageId params));
              ("timestamp", JNumber (sy_timestamp params))])
       []).

(** [endReading] *)
Definition PhpApiClient_endReading (api : PhpApiClient) (params : EndReadingParams)
  : HttpRequest
    * (HttpOutcome EndReadingResponse -> Settled EndReadingResponse) :=
  request api "end-reading.php"
    (mkInit (Some "POST")
       (Some [("reading_id", JString (ep_readingId params));
              ("ended_by", JString (userTypeText (ep_endedBy params)));
              ("reason", JString (ep_reason params))])
       []).

(** The room awaits [endReading] inside a [try] and reads
    [result.billing] there: what the room sees of the exchange is the
    response object, or that the [try] block was left by an exception,
    which is the case when the call rejects and also when it resolves to
    [null]. *)
Definition settledValue {T : Type} (s : Settled T) : option T :=
  match s with
  | Resolved data => Some data
  | ResolvedNull => None
  | Rejected _ => None
  end.

(* ------------------------------------------------------------------ *)
(** ** Vocabulary of the properties *)

(** The five passes of [sanitizeContent] together. *)
Definition escapePasses (s : string) : string :=
  replaceAll "'"%char "&#039;"
    (replaceAll quoteChar "&quot;"
      (replaceAll ">"%char "&gt;"
        (replaceAll "<"%char "&lt;"
          (replaceAll "&"%char "&amp;" s)))).

Definition newerFirst (a b : StoredMessage) : Prop :=
  (sm_timestamp b <= sm_timestamp a)%Z.

Definition olderFirst (a b : StoredMessage) : Prop :=
  (sm_timestamp a <= sm_timestamp b)%Z.

(** The rows [getRecentMessages] returns. *)
Definition recentRows (limit : nat) (rows : list StoredMessage)
  : list StoredMessage :=
  rev (firstn limit (orderByTimestampDesc rows)).

(** The sockets [broadcast] sends to, in map order. *)
Definition recipients (l : list (WebSocket * SessionData))
  (exclude : option WebSocket) : list WebSocket :=
  map fst
    (filter (fun e =>
       negb (match exclude with Some x => Nat.eqb (fst e) x | None => false end)
       && authenticated (snd e)) l).

Definition participantsOf (l : list (WebSocket * SessionData))
  : list Participant :=
  flat_map (fun e : WebSocket * SessionData =>
    if authenticated (snd e)
    then [mkParticipant (userId (snd e)) (userType (snd e)) (userName (snd e))]
    else []) l.

(** Content made of white space only (the empty content included). *)
Fixpoint allWhiteSpace (s : string) : bool :=
  match s with
  | EmptyString => true
  | String c s' => isWhiteSpace c && allWhiteSpace s'
  end.

(** The test at the head of [handleChatMessage]. *)
Definition accepted (data : Frame) : bool :=
  negb (negb (truthy (d_content data))
        || (trim (orElse (d_content data) "") =? "")%string).

(** The message [handleChatMessage] builds. *)
Definition chatMessageOf (o : Oracle) (session : SessionData) (data : Frame)
  : ChatMessage :=
  mkChatMessage (randomUUID o) (sanitizeContent (orElse (d_content data) ""))
    (userId session) (userType session) (userName session) (now o).

Definition idInLog (id : string) (rows : list StoredMessage) : bool :=
  existsb (fun r => (sm_id r =? id)%string) rows.

(** The sync job of a message, when the room can schedule one. *)
Definition syncJobs (st : ChatRoom) (m : ChatMessage) : list Effect :=
  match tokenPayload st with
  | Some p =>
      if truthy (roomId st) then
        [WaitUntilSync
           (mkSync (orElse (roomId st) "") (client_id p) (advisor_id p)
              (msg_userType m) (msg_content m) (msg_id m) (msg_timestamp m))]
      else []
  | None => []
  end.

(** The room can reach the ledger: credential claims and a room id. *)
Definition contextBound (st : ChatRoom) : bool :=
  match tokenPayload st with Some _ => true | None => false end
  && truthy (roomId st).

Definition endParamsOf (st : ChatRoom) (session : SessionData) (data : Frame)
  : EndReadingParams :=
  mkEndParams (orElse (roomId st) "") (userType session)
    (orElse (d_reason data) "normal").

(** The three-way choice of [handleAuth]. *)
Definition credentialOffered (env : Env) (data : Frame) : bool :=
  truthy (d_token data) && truthy (JWT_SECRET env).

Definition devMode (env : Env) : bool :=
  (ENVIRONMENT env =? "development")%string && negb (truthy (JWT_SECRET env)).

Definition verified (env : Env) (o : Oracle) (data : Frame)
  : option TokenPayload :=
  validateToken o (orElse (d_token data) "") (orElse (JWT_SECRET env) "").

Definition roomDiffers (st : ChatRoom) (payload : TokenPayload) : bool :=
  truthy (roomId st)
  && negb (reading_id payload =? orElse (roomId st) "")%string.

Definition devUserType (data : Frame) : UserType :=
  match d_userType data with
  | Some t => if (t =? "advisor")%string then advisor else client
  | None => client
  end.

(** Every broadcast payload in a record of outside calls goes to a
    connection whose session is in [l] with the flag set. *)
Definition broadcastsOnlyTo (l : list (WebSocket * SessionData))
  (t : list Effect) : Prop :=
  forall w p, In (Send w p) t -> isBroadcastKind p = true ->
              exists s, In (w, s) l /\ authenticated s = true.

(** The sessions a woken instance starts with: the attachments, as they
    were serialized, in the order of the sockets. *)
Definition restored (sockets : list (WebSocket * option SessionData))
  : list (WebSocket * SessionData) :=
  flat_map (fun e => match snd e with
                     | Some attachment => [(fst e, attachment)]
                     | None => []
                     end) sockets.

(* ------------------------------------------------------------------ *)
(** ** A room to try things on

    Room ["r1"] with a client and an advisor, both authenticated, and a
    third connection that has not authenticated. *)

Definition productionEnv : Env := mkEnv "production" (Some "hs256-secret").
Definition developmentEnv : Env := mkEnv "development" None.

Definition alice : SessionData := mkSession "client-7" client "Alice" true.
Definition bob : SessionData := mkSession "advisor-3" advisor "Bob" true.
Definition visitor : SessionData := mkSession "" client "Anonymous" false.

Definition aliceClaims : TokenPayload :=
  mkToken "client-7" "r1" client "Alice" "7" "3".

Definition roomR1 : ChatRoom :=
  mkRoom [(1, alice); (2, bob); (3, visitor)] (Some "r1") (Some aliceClaims) [].

(** The same room with no credential claims stored. *)
Definition roomUnbound : ChatRoom :=
  mkRoom [(1, alice); (2, bob); (3, visitor)] (Some "r1") None [].

(** Two connections just opened. *)
Definition lobby : ChatRoom :=
  mkRoom [(1, visitor); (2, visitor)] (Some "r1") None [].

Definition frameOf (type : string) : Frame :=
  mkFrame (Some type) None None None None None None None.

Definition chatFrame (content : string) : Frame :=
  mkFrame (Some "message") None None None None (Some content) None None.

Definition tokenFrame (token : string) : Frame :=
  mkFrame (Some "auth") (Some token) None None None None None None.

Definition jwtFor (uid rid uname : string) (utype : UserType) : JWTPayload :=
  mkJWT (Some uid) (Some rid) (Some utype) (Some uname) "7" "3".

(** An outside world that gives identifier [id], verifies every token to
    [claims] and settles [endReading] as [ledger]. *)
Definition world (id : string) (claims : option JWTPayload)
  (ledger : option EndReadingResponse) : Oracle :=
  mkOracle 1700000000000 id (fun _ _ => claims) ledger.

Fixpoint repeatChar (n : nat) (c : ascii) : string :=
  match n with
  | O => EmptyString
  | S n' => String c (repeatChar n' c)
  end.

(** The scenario of the specification: Alice, then Bob, authenticate with
    credentials for ["r1"] on the two connections of [lobby]. *)
Definition ledgerOk : EndReadingResponse :=
  mkEndReading true 41 "client" "normal" None
    (Some (mkBilling true 12 2388 1194)) None.

Definition endFrame (reason : string) : Frame :=
  mkFrame (Some "end_chat") None None None None None None (Some reason).

Definition afterAuths : ChatRoom :=
  run productionEnv lobby
    [WsMessage 1 (JsonValue (tokenFrame "jwt-alice"))
       (world "a" (Some (jwtFor "client-7" "r1" "Alice" client)) None);
     WsMessage 2 (JsonValue (tokenFrame "jwt-bob"))
       (world "b" (Some (jwtFor "advisor-3" "r1" "Bob" advisor)) None)].

Definition hiMessage : ChatMessage :=
  mkChatMessage "m1" "hi" "client-7" client "Alice" 1700000000000.

(* ------------------------------------------------------------------ *)
(** ** Vocabulary of the further properties *)

(** [c] occurs in [s]. *)
Fixpoint occurs (c : ascii) (s : string) : bool :=
  match s with
  | EmptyString => false
  | String x s' => Ascii.eqb x c || occurs c s'
  end.

(** Text without any of the five characters [sanitizeContent] replaces. *)
Definition plainText (s : string) : bool :=
  negb (occurs "&"%char s) && negb (occurs "<"%char s)
  && negb (occurs ">"%char s) && negb (occurs quoteChar s)
  && negb (occurs "'"%char s).

(** The rows the [INSERT]s of a record of outside calls wrote. *)
Definition insertedRows (t : list Effect) : list StoredMessage :=
  flat_map (fun e => match e with SqlInsert row => [row] | _ => [] end) t.


Definition authFrame (uid utype uname : option string) : Frame :=
  mkFrame (Some "auth") None uid utype uname None None None.

(* ================================================================== *)
(** * Properties *)

(* ------------------------------------------------------------------ *)
(** ** Strings and [sanitizeContent] *)

Lemma length_append (a b : string) :
  String.length (a ++ b) = String.length a + String.length b.
Proof. induction a as [|c a IH]; simpl; [reflexivity | now rewrite IH]. Qed.

Lemma length_substring0 (n : nat) (s : string) :
  String.length (substring 0 n s) = Nat.min n (String.length s).
Proof.
  revert s; induction n as [|n IH]; intros [|c s]; simpl; try reflexivity.
  now rewrite IH.
Qed.

Lemma htmlEntity_length (c : ascii) : 1 <= String.length (htmlEntity c).
Proof.
  unfold htmlEntity.
  repeat match goal with
         | |- context [if ?b then _ else _] => destruct b
         end; simpl; lia.
Qed.

Lemma escapeHtml_length (s : string) :
  String.length s <= String.length (escapeHtml s).
Proof.
  induction s as [|c s IH]; simpl; [lia |].
  rewrite length_append. pose proof (htmlEntity_length c). lia.
Qed.

Lemma escapePasses_cons (c : ascii) (s : string) :
  escapePasses (String c s) = htmlEntity c ++ escapePasses s.
Proof.
  unfold escapePasses, htmlEntity, quoteChar. cbn [replaceAll].
  destruct (Ascii.eqb_spec c "&"%char) as [-> | _]; [reflexivity |].
  cbn [replaceAll].
  destruct (Ascii.eqb_spec c "<"%char) as [-> | _]; [reflexivity |].
  cbn [replaceAll].
  destruct (Ascii.eqb_spec c ">"%char) as [-> | _]; [reflexivity |].
  cbn [replaceAll].
  destruct (Ascii.eqb_spec c "034"%char) as [-> | _]; [reflexivity |].
  cbn [replaceAll].
  destruct (Ascii.eqb_spec c "'"%char) as [-> | _]; reflexivity.
Qed.

(** The passes do not interfere: run one after the other they give the
    one-pass escaping. *)
Lemma escapePasses_escapeHtml (s : string) : escapePasses s = escapeHtml s.
Proof.
  induction s as [|c s IH]; [reflexivity |].
  rewrite escapePasses_cons. simpl. now rewrite IH.
Qed.

Lemma sanitizeContent_refines (content : string) :
  sanitizeContent content = sanitize_spec content.
Proof.
  unfold sanitize_spec, contentCap. rewrite <- escapePasses_escapeHtml.
  reflexivity.
Qed.

Lemma sanitizeContent_length (content : string) :
  String.length (sanitizeContent content)
  = Nat.min contentCap (String.length (escapeHtml content)).
Proof.
  rewrite sanitizeContent_refines. unfold sanitize_spec.
  apply length_substring0.
Qed.

(* ------------------------------------------------------------------ *)
(** ** Reading the log *)

Local Open Scope list_scope.

Lemma StronglySorted_snoc (A : Type) (R : A -> A -> Prop) (l : list A) (x : A) :
  StronglySorted R l -> Forall (fun y => R y x) l ->
  StronglySorted R (l ++ [x]).
Proof.
  induction l as [|a l IH]; intros Hs Hf; simpl.
  - constructor; constructor.
  - inversion Hs; subst. inversion Hf; subst.
    constructor; [now apply IH |].
    apply Forall_app; split; [assumption | now constructor].
Qed.

Lemma In_firstn (A : Type) (n : nat) (l : list A) (x : A) :
  In x (firstn n l) -> In x l.
Proof.
  revert l; induction n as [|n IH]; intros [|a l]; simpl; try tauto.
  intros [-> | H]; [now left | right; now apply IH].
Qed.

Lemma In_skipn (A : Type) (n : nat) (l : list A) (x : A) :
  In x (skipn n l) -> In x l.
Proof.
  revert l; induction n as [|n IH]; intros [|a l]; simpl; try tauto.
  intros H; right; now apply IH.
Qed.

Section SortedLists.

Variable A : Type.
Variable R : A -> A -> Prop.

Lemma StronglySorted_rev (l : list A) :
  StronglySorted R l -> StronglySorted (fun a b => R b a) (rev l).
Proof.
  induction 1 as [|a l Hs IH Hf]; simpl; [constructor |].
  apply StronglySorted_snoc; [assumption |].
  apply Forall_rev. exact Hf.
Qed.

Lemma StronglySorted_firstn (n : nat) (l : list A) :
  StronglySorted R l -> StronglySorted R (firstn n l).
Proof.
  revert l; induction n as [|n IH]; intros l Hs; simpl; [constructor |].
  destruct l as [|a l]; [constructor |].
  inversion Hs; subst. constructor; [now apply IH |].
  rewrite Forall_forall in *. intros y Hy.
  match goal with H : forall x, In x l -> _ |- _ => apply H end.
  eapply In_firstn. exact Hy.
Qed.

(** In a sorted list whatever is cut off by [firstn] comes after
    whatever is kept. *)
Lemma StronglySorted_cut (n : nat) (l : list A) :
  StronglySorted R l ->
  forall a b, In a (firstn n l) -> In b (skipn n l) -> R a b.
Proof.
  revert l; induction n as [|n IH]; intros l Hs a b Ha Hb; simpl in *.
  - contradiction.
  - destruct l as [|x l]; [contradiction |].
    inversion Hs; subst. simpl in Ha. destruct Ha as [-> | Ha].
    + match goal with H : Forall _ l |- _ =>
        rewrite Forall_forall in H; apply H end.
      eapply In_skipn. exact Hb.
    + now apply (IH l).
Qed.

End SortedLists.

(** What any engine's [ORDER BY timestamp DESC LIMIT n], reversed, gives:
    only the contract of the ordering is used, not how ties fall. *)
Section RecentOfAnyOrdering.

Variable orderBy : list StoredMessage -> list StoredMessage.
Hypothesis orderBy_perm : forall rows, Permutation (orderBy rows) rows.
Hypothesis orderBy_sorted :
  forall rows, StronglySorted newerFirst (orderBy rows).

Lemma recent_length limit rows :
  List.length (rev (firstn limit (orderBy rows)))
  = Nat.min limit (List.length rows).
Proof.
  rewrite length_rev, length_firstn.
  now rewrite (Permutation_length (orderBy_perm rows)).
Qed.

Lemma recent_partition limit rows :
  Permutation
    (skipn limit (orderBy rows) ++ rev (firstn limit (orderBy rows))) rows.
Proof.
  rewrite <- (orderBy_perm rows) at 3.
  rewrite <- (firstn_skipn limit (orderBy rows)) at 3.
  rewrite Permutation_app_comm. apply Permutation_app_tail.
  symmetry. apply Permutation_rev.
Qed.

Lemma recent_newest limit rows a b :
  In a (skipn limit (orderBy rows)) ->
  In b (rev (firstn limit (orderBy rows))) -> olderFirst a b.
Proof.
  intros Ha Hb. apply in_rev in Hb.
  exact (StronglySorted_cut limit (orderBy_sorted rows) _ _ Hb Ha).
Qed.

Lemma recent_ascending limit rows :
  StronglySorted olderFirst (rev (firstn limit (orderBy rows))).
Proof.
  apply (StronglySorted_rev (R := newerFirst)).
  apply StronglySorted_firstn, orderBy_sorted.
Qed.

Lemma recent_all limit rows :
  List.length rows <= limit -> skipn limit (orderBy rows) = [].
Proof.
  intros H. apply skipn_all2.
  now rewrite (Permutation_length (orderBy_perm rows)).
Qed.

End RecentOfAnyOrdering.

Lemma insertDesc_perm r l : Permutation (insertDesc r l) (r :: l).
Proof.
  induction l as [|x l IH]; simpl; [reflexivity |].
  destruct (sm_timestamp x <=? sm_timestamp r)%Z; [reflexivity |].
  rewrite IH. apply perm_swap.
Qed.

Lemma insertDesc_sorted r l :
  StronglySorted newerFirst l -> StronglySorted newerFirst (insertDesc r l).
Proof.
  induction 1 as [|x l Hs IH Hf]; simpl.
  - constructor; constructor.
  - destruct (Z.leb_spec (sm_timestamp x) (sm_timestamp r)) as [Hle | Hgt].
    + constructor; [now constructor |].
      constructor; [exact Hle |].
      rewrite Forall_forall in *. intros y Hy.
      specialize (Hf y Hy). unfold newerFirst in *. lia.
    + constructor; [exact IH |].
      rewrite Forall_forall in *. intros y Hy.
      apply (Permutation_in _ (insertDesc_perm r l)) in Hy.
      destruct Hy as [<- | Hy]; [unfold newerFirst; lia | now apply Hf].
Qed.

Lemma orderByTimestampDesc_perm rows :
  Permutation (orderByTimestampDesc rows) rows.
Proof.
  induction rows as [|r rows IH]; simpl; [reflexivity |].
  rewrite insertDesc_perm. now constructor.
Qed.

Lemma orderByTimestampDesc_sorted rows :
  StronglySorted newerFirst (orderByTimestampDesc rows).
Proof.
  induction rows as [|r rows IH]; simpl; [constructor |].
  now apply insertDesc_sorted.
Qed.

Lemma map_rebuild_rows (l : list StoredMessage) :
  map (fun row => mkStored (sm_id row) (sm_user_id row) (sm_user_type row)
                    (sm_user_name row) (sm_content row) (sm_timestamp row)) l
  = l.
Proof.
  induction l as [|[] l IH]; simpl; [reflexivity | now rewrite IH].
Qed.

Lemma getRecentMessages_run (limit : nat) (st : ChatRoom) :
  getRecentMessages limit st
  = (Some (recentRows limit (messages st)), st, []).
Proof.
  unfold getRecentMessages, sqlSelectRecent, bind, gets, ret, recentRows.
  simpl. now rewrite map_rebuild_rows.
Qed.

(** C8. For every limit and every log, [getRecentMessages] returns, without
    touching the actor (log, sessions, room binding) and without any outside
    call, the rows read newest-first up to the limit and then reversed:
    they are as many as the limit allows, all of the log when it is not
    longer than the limit, in ascending order of timestamp, and no row left
    out is more recent than a row returned. *)
Theorem getRecentMessages_most_recent_ascending (limit : nat) (st : ChatRoom) :
  exists recent older : list StoredMessage,
    getRecentMessages limit st = (Some recent, st, [])
    /\ recent = rev (firstn limit (orderByTimestampDesc (messages st)))
    /\ List.length recent = Nat.min limit (List.length (messages st))
    /\ Permutation (older ++ recent) (messages st)
    /\ (List.length (messages st) <= limit -> older = [])
    /\ StronglySorted olderFirst recent
    /\ (forall a b, In a older -> In b recent -> olderFirst a b).
Proof.
  exists (recentRows limit (messages st)),
         (skipn limit (orderByTimestampDesc (messages st))).
  split; [apply getRecentMessages_run |].
  split; [reflexivity |].
  split; [apply (@recent_length orderByTimestampDesc orderByTimestampDesc_perm) |].
  split; [apply (@recent_partition orderByTimestampDesc orderByTimestampDesc_perm) |].
  split; [apply (@recent_all orderByTimestampDesc orderByTimestampDesc_perm) |].
  split; [apply (@recent_ascending orderByTimestampDesc orderByTimestampDesc_sorted) |].
  apply (@recent_newest orderByTimestampDesc orderByTimestampDesc_sorted).
Qed.

(* ------------------------------------------------------------------ *)
(** ** What the methods compute *)

Lemma bind_run A B (m : M A) (k : A -> M B) st a st1 t1 :
  m st = (Some a, st1, t1) ->
  bind m k st = (fst (fst (k a st1)), stateOf (k a st1), t1 ++ traceOf (k a st1)).
Proof.
  unfold bind, stateOf, traceOf. intros ->.
  now destruct (k a st1) as [[r st2] t2].
Qed.

(** A loop whose body only makes outside calls. *)
Lemma for_each_emits A (l : list A) (body : A -> M unit)
  (f : A -> list Effect) :
  (forall x st, body x st = (Some tt, st, f x)) ->
  forall st, for_each l body st = (Some tt, st, flat_map f l).
Proof.
  intros Hbody. induction l as [|x l IH]; intros st; [reflexivity |].
  cbn [for_each flat_map]. unfold bind. now rewrite Hbody, IH.
Qed.

Lemma flat_map_recipients (l : list (WebSocket * SessionData))
  (p : Outbound) (exclude : option WebSocket) :
  flat_map (fun e : WebSocket * SessionData =>
    if match exclude with Some x => Nat.eqb (fst e) x | None => false end
    then []
    else if negb (authenticated (snd e)) then [] else [Send (fst e) p]) l
  = map (fun w => Send w p) (recipients l exclude).
Proof.
  unfold recipients. induction l as [|[w s] l IH]; [reflexivity |].
  cbn [flat_map filter fst snd]. rewrite IH.
  destruct (match exclude with Some x => Nat.eqb w x | None => false end);
    cbn [negb andb]; [reflexivity |].
  destruct (authenticated s); reflexivity.
Qed.

Lemma broadcast_run (p : Outbound) (exclude : option WebSocket) (st : ChatRoom) :
  broadcast p exclude st
  = (Some tt, st, map (fun w => Send w p) (recipients (sessions st) exclude)).
Proof.
  unfold broadcast, bind, gets.
  rewrite for_each_emits with
    (f := fun e : WebSocket * SessionData =>
       if match exclude with Some x => Nat.eqb (fst e) x | None => false end
       then []
       else if negb (authenticated (snd e)) then [] else [Send (fst e) p]).
  - now rewrite flat_map_recipients.
  - intros [w s] st'. cbn [fst snd].
    destruct (match exclude with Some x => Nat.eqb w x | None => false end);
      [reflexivity |].
    destruct (authenticated s); reflexivity.
Qed.

Lemma getParticipantList_run (st : ChatRoom) :
  getParticipantList st = (Some (participantsOf (sessions st)), st, []).
Proof. reflexivity. Qed.

Lemma in_recipients l exclude w :
  In w (recipients l exclude) <->
  exists s, In (w, s) l /\ authenticated s = true
            /\ match exclude with Some x => w <> x | None => True end.
Proof.
  unfold recipients. rewrite in_map_iff. split.
  - intros [[w' s] [Hw Hin]]. simpl in Hw. subst w'.
    apply filter_In in Hin. destruct Hin as [Hin Hc]. simpl in Hc.
    apply andb_true_iff in Hc. destruct Hc as [Hx Ha].
    exists s. repeat split; try assumption.
    destruct exclude as [x|]; [| exact I].
    apply negb_true_iff, Nat.eqb_neq in Hx. exact Hx.
  - intros [s [Hin [Ha Hx]]]. exists (w, s). split; [reflexivity |].
    apply filter_In. split; [assumption |]. simpl. rewrite Ha.
    destruct exclude as [x|]; [| reflexivity].
    apply Nat.eqb_neq in Hx. now rewrite Hx.
Qed.

Lemma in_participantsOf l w s :
  In (w, s) l -> authenticated s = true ->
  In (mkParticipant (userId s) (userType s) (userName s)) (participantsOf l).
Proof.
  intros Hin Ha. unfold participantsOf. apply in_flat_map.
  exists (w, s). split; [assumption |]. simpl. rewrite Ha. now left.
Qed.

(** Facts about the session map. *)
Lemma sessions_get_In ws l s : sessions_get ws l = Some s -> In (ws, s) l.
Proof.
  induction l as [|[k v] l IH]; simpl; [discriminate |].
  destruct (Nat.eqb_spec k ws) as [-> | _].
  - intros [= ->]. now left.
  - intros H. right. now apply IH.
Qed.

Lemma sessions_get_set_same ws s l :
  sessions_get ws (sessions_set ws s l) = Some s.
Proof.
  induction l as [|[k v] l IH]; simpl.
  - now rewrite Nat.eqb_refl.
  - destruct (Nat.eqb_spec k ws) as [-> | Hne]; simpl.
    + now rewrite Nat.eqb_refl.
    + apply Nat.eqb_neq in Hne. now rewrite Hne.
Qed.

Lemma sessions_get_set_other ws w s l :
  w <> ws -> sessions_get w (sessions_set ws s l) = sessions_get w l.
Proof.
  intros Hne. induction l as [|[k v] l IH]; simpl.
  - destruct (Nat.eqb_spec ws w); [congruence | reflexivity].
  - destruct (Nat.eqb_spec k ws) as [-> | Hk]; simpl.
    + destruct (Nat.eqb_spec ws w); [congruence | reflexivity].
    + now rewrite IH.
Qed.

Lemma In_sessions_set_other ws w s v l :
  w <> ws -> (In (w, v) (sessions_set ws s l) <-> In (w, v) l).
Proof.
  intros Hne. induction l as [|[k x] l IH]; simpl.
  - split; [intros [[= <- _] | []]; congruence | tauto].
  - destruct (Nat.eqb_spec k ws) as [-> | Hk]; simpl.
    + split; (intros [[= <- _] | H]; [congruence | now right]).
    + rewrite IH. tauto.
Qed.


Lemma In_sessions_delete ws w v l :
  In (w, v) (sessions_delete ws l) <-> In (w, v) l /\ w <> ws.
Proof.
  unfold sessions_delete. rewrite filter_In. simpl.
  rewrite negb_true_iff, Nat.eqb_neq. tauto.
Qed.

(** The tail of a successful [handleAuth]. *)
Lemma handleAuth_bind_run ws uid utype uname st :
  let session := mkSession uid utype uname true in
  let l := sessions_set ws session (sessions st) in
  handleAuth_bind ws uid utype uname st
  = (Some tt, set_sessions l st,
     [SerializeAttachment ws session;
      Send ws (OutAuthSuccess uid (participantsOf l));
      Send ws (OutHistory (recentRows 100 (messages st)))]
     ++ map (fun w => Send w (OutPresence uid utype uname online))
          (recipients l (Some ws))).
Proof.
  intros session l. unfold handleAuth_bind.
  unfold bind at 1. unfold modify at 1.
  unfold bind at 1. unfold emit at 1.
  unfold bind at 1. rewrite getParticipantList_run.
  unfold bind at 1. unfold send at 1, emit at 1.
  unfold bind at 1. rewrite getRecentMessages_run.
  unfold bind at 1. unfold send at 1, emit at 1.
  rewrite broadcast_run. reflexivity.
Qed.

Lemma trimEnd_keeps_head c s :
  isWhiteSpace c = false -> trimEnd (String c s) <> EmptyString.
Proof.
  intros Hc. simpl. destruct (trimEnd s); [rewrite Hc |]; discriminate.
Qed.

Lemma trim_empty_iff (s : string) :
  trim s = EmptyString <-> allWhiteSpace s = true.
Proof.
  unfold trim. induction s as [|c s IH]; [simpl; tauto |].
  cbn [trimStart allWhiteSpace].
  destruct (isWhiteSpace c) eqn:Hc; [exact IH |].
  split; [| discriminate].
  intros H. now apply trimEnd_keeps_head in H.
Qed.

Lemma accepted_iff data :
  accepted data = true <->
  exists content, d_content data = Some content
                  /\ content <> EmptyString /\ allWhiteSpace content = false.
Proof.
  unfold accepted. rewrite negb_true_iff, orb_false_iff, negb_false_iff.
  destruct (d_content data) as [content|]; simpl.
  - destruct (String.eqb_spec content "") as [-> | Hne]; simpl.
    + split; [intros [H _]; discriminate |].
      intros [c [[= <-] [H _]]]. congruence.
    + destruct (String.eqb_spec (trim content) "") as [Ht | Ht].
      * split; [intros [_ H]; discriminate |].
        intros [c [[= <-] [_ H]]]. apply trim_empty_iff in Ht. congruence.
      * split; [| tauto]. intros _. exists content.
        repeat split; try assumption.
        destruct (allWhiteSpace content) eqn:E; [| reflexivity].
        apply trim_empty_iff in E. contradiction.
  - split; [intros [H _]; discriminate | intros [c [H _]]; discriminate].
Qed.

Lemma handleChatMessage_ignored o ws session data st :
  accepted data = false ->
  handleChatMessage o ws session data st = (Some tt, st, []).
Proof.
  unfold accepted, handleChatMessage. intros H.
  apply negb_false_iff in H. now rewrite H.
Qed.

Lemma handleChatMessage_duplicate o ws session data st :
  accepted data = true -> idInLog (randomUUID o) (messages st) = true ->
  handleChatMessage o ws session data st = (None, st, []).
Proof.
  unfold accepted, handleChatMessage, idInLog. intros H Hid.
  apply negb_true_iff in H. rewrite H.
  unfold bind at 1. unfold sqlInsert, bind at 1, gets at 1.
  cbn [storedOf sm_id msg_id]. now rewrite Hid.
Qed.

Lemma handleChatMessage_run o ws session data st :
  accepted data = true -> idInLog (randomUUID o) (messages st) = false ->
  let m := chatMessageOf o session data in
  handleChatMessage o ws session data st
  = (Some tt, set_messages (messages st ++ [storedOf m]) st,
     SqlInsert (storedOf m)
     :: map (fun w => Send w (OutMessage m)) (recipients (sessions st) None)
     ++ syncJobs st m).
Proof.
  intros H Hid m. subst m. unfold accepted, idInLog in *.
  unfold handleChatMessage, chatMessageOf.
  apply negb_true_iff in H. rewrite H.
  unfold bind at 1. unfold sqlInsert, bind at 1, gets at 1.
  cbn [storedOf sm_id msg_id]. rewrite Hid.
  unfold bind at 1, modify at 1, emit at 1.
  unfold bind at 1. rewrite broadcast_run.
  unfold syncJobs, syncMessageToPhp, bind, gets, emit, ret, set_messages.
  simpl.
  destruct (tokenPayload st) eqn:Htp; destruct (truthy (roomId st)) eqn:Hr;
    simpl; rewrite ?Hr; simpl; now rewrite ?app_nil_r.
Qed.

Lemma handleTypingIndicator_run ws session data st :
  handleTypingIndicator ws session data st
  = (Some tt, st,
     map (fun w =>
            Send w (OutTyping (userId session) (userType session)
                      (match d_isTyping data with Some b => b | None => false end)))
       (recipients (sessions st) (Some ws))).
Proof. unfold handleTypingIndicator. apply broadcast_run. Qed.

Lemma handleEndChat_unbound o ws session data st :
  contextBound st = false ->
  handleEndChat o ws session data st
  = (Some tt, st, [Send ws (OutError "Cannot end chat: missing session data")]).
Proof.
  unfold contextBound, handleEndChat, bind, gets. intros H. simpl.
  destruct (tokenPayload st); simpl in *; [rewrite H |]; reflexivity.
Qed.

Lemma handleEndChat_rejected o ws session data st :
  contextBound st = true -> endReadingResult o = None ->
  handleEndChat o ws session data st
  = (Some tt, st,
     [EndReadingCall (endParamsOf st session data);
      Send ws (OutError "Failed to end chat. Please try again.")]).
Proof.
  unfold contextBound, handleEndChat, bind, gets. intros H Hr. simpl.
  destruct (tokenPayload st); simpl in *; [| discriminate].
  rewrite H. simpl.
  unfold try_catch, endReading, bind, emit. now rewrite Hr.
Qed.

Lemma handleEndChat_resolved o ws session data st result :
  contextBound st = true -> endReadingResult o = Some result ->
  handleEndChat o ws session data st
  = (Some tt, st,
     EndReadingCall (endParamsOf st session data)
     :: map (fun w =>
               Send w (OutChatEnded (userType session) (userName session)
                         (orElse (d_reason data) "normal")
                         (er_billing result) (now o)))
          (recipients (sessions st) None)
     ++ [Send ws (OutEndChatSuccess result); SetTimeoutCloseAll 1000]).
Proof.
  unfold contextBound, handleEndChat. intros H Hr.
  unfold bind at 1, gets at 1. unfold bind at 1, gets at 1.
  destruct (tokenPayload st); simpl in H; [| discriminate].
  rewrite H. cbn [negb orb].
  unfold try_catch, endReading.
  unfold bind at 1. unfold bind at 1. unfold emit at 1. rewrite Hr.
  unfold ret at 1. unfold bind at 1. rewrite broadcast_run.
  unfold bind, send, emit. reflexivity.
Qed.

Lemma handleAuth_invalid env o ws session data st :
  credentialOffered env data = true -> verified env o data = None ->
  handleAuth env o ws session data st
  = (Some tt, st,
     [Send ws (OutAuthError "Invalid or expired token");
      Close ws 4001 "Unauthorized"]).
Proof.
  unfold credentialOffered, verified, handleAuth. now intros -> ->.
Qed.

Lemma handleAuth_mismatch env o ws session data st payload :
  credentialOffered env data = true -> verified env o data = Some payload ->
  roomDiffers st payload = true ->
  handleAuth env o ws session data st
  = (Some tt, st,
     [Send ws (OutAuthError "Token not valid for this room");
      Close ws 4003 "Forbidden"]).
Proof.
  unfold credentialOffered, verified, roomDiffers, handleAuth.
  intros -> -> H. unfold bind at 1, gets at 1. now rewrite H.
Qed.

Lemma handleAuth_required env o ws session data st :
  credentialOffered env data = false -> devMode env = false ->
  handleAuth env o ws session data st
  = (Some tt, st,
     [Send ws (OutAuthError "Token required"); Close ws 4001 "Unauthorized"]).
Proof.
  unfold credentialOffered, devMode, handleAuth. now intros -> ->.
Qed.

Lemma handleAuth_credential env o ws session data st payload :
  credentialOffered env data = true -> verified env o data = Some payload ->
  roomDiffers st payload = false ->
  handleAuth env o ws session data st
  = handleAuth_bind ws (sub payload) (user_type payload) (user_name payload)
      (set_tokenPayload (Some payload) st).
Proof.
  unfold credentialOffered, verified, roomDiffers, handleAuth.
  intros -> -> H. unfold bind at 1, gets at 1. rewrite H.
  unfold bind at 1, modify at 1.
  destruct (handleAuth_bind _ _ _ _ _) as [[r st2] t2]. reflexivity.
Qed.

Lemma handleAuth_development env o ws session data st :
  credentialOffered env data = false -> devMode env = true ->
  handleAuth env o ws session data st
  = handleAuth_bind ws (orElse (d_userId data) (randomUUID o))
      (devUserType data) (orElse (d_userName data) "Anonymous") st.
Proof.
  unfold credentialOffered, devMode, handleAuth. now intros -> ->.
Qed.

Lemma try_catch_returns A (m h : M A) st a st1 t :
  m st = (Some a, st1, t) -> try_catch m h st = (Some a, st1, t).
Proof. unfold try_catch. now intros ->. Qed.

(** Every way [webSocketMessage] can go. *)
Lemma webSocketMessage_cases env o ws message st
  (P : option unit * ChatRoom * list Effect -> Prop) :
  (forall m, P (Some tt, st, [Send ws (OutError m)])) ->
  P (Some tt, st, []) ->
  P (Some tt, st, [Send ws (OutPong (now o))]) ->
  (forall session data,
      message = JsonValue data ->
      sessions_get ws (sessions st) = Some session ->
      d_type data = Some "auth" ->
      P (try_catch (handleAuth env o ws session data)
           (send ws (OutError "Invalid message format")) st)) ->
  (forall session data,
      message = JsonValue data ->
      sessions_get ws (sessions st) = Some session ->
      d_type data = Some "message" ->
      authenticated session = true ->
      P (try_catch (handleChatMessage o ws session data)
           (send ws (OutError "Invalid message format")) st)) ->
  (forall session data,
      message = JsonValue data ->
      sessions_get ws (sessions st) = Some session ->
      d_type data = Some "typing" ->
      authenticated session = true ->
      P (try_catch (handleTypingIndicator ws session data)
           (send ws (OutError "Invalid message format")) st)) ->
  (forall session data,
      message = JsonValue data ->
      sessions_get ws (sessions st) = Some session ->
      d_type data = Some "end_chat" ->
      authenticated session = true ->
      P (try_catch (handleEndChat o ws session data)
           (send ws (OutError "Invalid message format")) st)) ->
  P (webSocketMessage env o ws message st).
Proof.
  intros Herr Hnone Hpong Hauth Hmsg Htyping Hend.
  unfold webSocketMessage.
  destruct message as [| | data].
  - apply Herr.
  - unfold try_catch, bind, JSON_parse, gets, ret. cbn.
    destruct (sessions_get ws (sessions st)); apply Herr.
  - unfold try_catch at 1, bind at 1, JSON_parse, ret at 1.
    unfold bind at 1, gets at 1.
    destruct (sessions_get ws (sessions st)) as [session|] eqn:Hs;
      [| apply Herr].
    destruct (d_type data) as [type|] eqn:Ht; [| apply Herr].
    destruct (String.eqb_spec type "auth") as [-> | _].
    { specialize (Hauth session data eq_refl eq_refl Ht).
      unfold try_catch in Hauth.
      destruct (handleAuth env o ws session data st) as [[[a|] st1] t1];
        cbn in *; rewrite ?app_nil_r in *; exact Hauth. }
    destruct (String.eqb_spec type "message") as [-> | _].
    { destruct (authenticated session) eqn:Ha; [| apply Herr].
      specialize (Hmsg session data eq_refl eq_refl Ht Ha).
      unfold try_catch in Hmsg. cbn [negb].
      destruct (handleChatMessage o ws session data st) as [[[a|] st1] t1];
        cbn in *; rewrite ?app_nil_r in *; exact Hmsg. }
    destruct (String.eqb_spec type "typing") as [-> | _].
    { destruct (authenticated session) eqn:Ha; [| apply Hnone].
      specialize (Htyping session data eq_refl eq_refl Ht Ha).
      unfold try_catch in Htyping. cbn [negb].
      destruct (handleTypingIndicator ws session data st) as [[[a|] st1] t1];
        cbn in *; rewrite ?app_nil_r in *; exact Htyping. }
    destruct (String.eqb_spec type "end_chat") as [-> | _].
    { destruct (authenticated session) eqn:Ha; [| apply Herr].
      specialize (Hend session data eq_refl eq_refl Ht Ha).
      unfold try_catch in Hend. cbn [negb].
      destruct (handleEndChat o ws session data st) as [[[a|] st1] t1];
        cbn in *; rewrite ?app_nil_r in *; exact Hend. }
    destruct (String.eqb_spec type "ping") as [-> | _]; [apply Hpong |].
    apply Herr.
Qed.

(** Every way [handleAuth] can go. *)
Lemma handleAuth_cases env o ws session data st
  (P : option unit * ChatRoom * list Effect -> Prop) :
  (forall m code reason,
      P (Some tt, st, [Send ws (OutAuthError m); Close ws code reason])) ->
  (forall payload,
      credentialOffered env data = true ->
      verified env o data = Some payload ->
      roomDiffers st payload = false ->
      P (handleAuth_bind ws (sub payload) (user_type payload)
           (user_name payload) (set_tokenPayload (Some payload) st))) ->
  (credentialOffered env data = false -> devMode env = true ->
      P (handleAuth_bind ws (orElse (d_userId data) (randomUUID o))
           (devUserType data) (orElse (d_userName data) "Anonymous") st)) ->
  P (handleAuth env o ws session data st).
Proof.
  intros Hfail Hcred Hdev.
  destruct (credentialOffered env data) eqn:Hc.
  - destruct (verified env o data) as [payload|] eqn:Hv.
    + destruct (roomDiffers st payload) eqn:Hr.
      * erewrite handleAuth_mismatch by eassumption. apply Hfail.
      * erewrite handleAuth_credential by eassumption. now apply Hcred.
    + rewrite handleAuth_invalid by assumption. apply Hfail.
  - destruct (devMode env) eqn:Hd.
    + rewrite handleAuth_development by assumption. now apply Hdev.
    + rewrite handleAuth_required by assumption. apply Hfail.
Qed.

(** The dispatch of [webSocketMessage] on a registered connection. *)
Lemma webSocketMessage_found env o ws data st session type :
  sessions_get ws (sessions st) = Some session ->
  d_type data = Some type ->
  webSocketMessage env o ws (JsonValue data) st
  = try_catch
      (if (type =? "auth")%string then handleAuth env o ws session data
       else if (type =? "message")%string then
         if negb (authenticated session) then notAuthenticated ws
         else handleChatMessage o ws session data
       else if (type =? "typing")%string then
         if negb (authenticated session) then ret tt
         else handleTypingIndicator ws session data
       else if (type =? "end_chat")%string then
         if negb (authenticated session) then notAuthenticated ws
         else handleEndChat o ws session data
       else if (type =? "ping")%string then send ws (OutPong (now o))
       else send ws (OutError "Unknown message type"))
      (send ws (OutError "Invalid message format")) st.
Proof.
  intros Hs Ht. unfold webSocketMessage, try_catch.
  unfold bind at 1, JSON_parse, ret at 1. unfold bind at 1, gets at 1.
  rewrite Hs, Ht.
  match goal with
  | |- context [match ?m st with _ => _ end] =>
      destruct (m st) as [[[a|] st1] t1]
  end; reflexivity.
Qed.

Lemma webSocketMessage_no_session env o ws data st :
  sessions_get ws (sessions st) = None ->
  webSocketMessage env o ws (JsonValue data) st
  = (Some tt, st, [Send ws (OutError "No session")]).
Proof.
  intros Hs. unfold webSocketMessage, try_catch, bind, JSON_parse, gets, ret.
  now rewrite Hs.
Qed.

(* ------------------------------------------------------------------ *)
(** ** Unauthenticated sessions *)

Lemma broadcastsOnlyTo_nil l : broadcastsOnlyTo l [].
Proof. intros w p []. Qed.

Lemma broadcastsOnlyTo_app l t1 t2 :
  broadcastsOnlyTo l t1 -> broadcastsOnlyTo l t2 ->
  broadcastsOnlyTo l (t1 ++ t2).
Proof.
  intros H1 H2 w p Hin Hk. apply in_app_or in Hin.
  destruct Hin; [now apply (H1 w p) | now apply (H2 w p)].
Qed.

Lemma broadcastsOnlyTo_cons l e t :
  (forall w p, e = Send w p -> isBroadcastKind p = false) ->
  broadcastsOnlyTo l t -> broadcastsOnlyTo l (e :: t).
Proof.
  intros He Ht w p [-> | Hin] Hk; [| now apply (Ht w p)].
  rewrite (He w p eq_refl) in Hk. discriminate.
Qed.

Lemma broadcastsOnlyTo_recipients l exclude p :
  broadcastsOnlyTo l (map (fun w => Send w p) (recipients l exclude)).
Proof.
  intros w q Hin _. apply in_map_iff in Hin.
  destruct Hin as [w' [[= -> _] Hw]].
  apply in_recipients in Hw. destruct Hw as [s [Hin [Ha _]]]. now exists s.
Qed.

(** The same, for the sessions other than [ws] after [ws] was rebound. *)
Lemma broadcastsOnlyTo_others l ws session p :
  broadcastsOnlyTo l
    (map (fun w => Send w p) (recipients (sessions_set ws session l) (Some ws))).
Proof.
  intros w q Hin _. apply in_map_iff in Hin.
  destruct Hin as [w' [[= -> _] Hw]].
  apply in_recipients in Hw. destruct Hw as [s [Hin [Ha Hne]]].
  exists s. split; [| assumption].
  now apply (In_sessions_set_other session s l Hne).
Qed.

Ltac not_a_broadcast :=
  let w := fresh in let p := fresh in let H := fresh in
  intros w p H; inversion H; reflexivity.

Lemma handleAuth_bind_broadcasts ws uid utype uname st l :
  l = sessions st ->
  broadcastsOnlyTo l (traceOf (handleAuth_bind ws uid utype uname st)).
Proof.
  intros ->. rewrite handleAuth_bind_run. unfold traceOf. cbn [snd].
  apply broadcastsOnlyTo_app; [| apply broadcastsOnlyTo_others].
  repeat (apply broadcastsOnlyTo_cons; [not_a_broadcast |]).
  apply broadcastsOnlyTo_nil.
Qed.

Lemma webSocketMessage_broadcasts env o ws message st :
  broadcastsOnlyTo (sessions st)
    (traceOf (webSocketMessage env o ws message st)).
Proof.
  apply webSocketMessage_cases; unfold traceOf; cbn [snd].
  - intros m. apply broadcastsOnlyTo_cons; [not_a_broadcast |].
    apply broadcastsOnlyTo_nil.
  - apply broadcastsOnlyTo_nil.
  - apply broadcastsOnlyTo_cons; [not_a_broadcast |].
    apply broadcastsOnlyTo_nil.
  - intros session data _ _ _. unfold try_catch.
    apply handleAuth_cases.
    + intros m code reason. cbn [snd].
      repeat (apply broadcastsOnlyTo_cons; [not_a_broadcast |]).
      apply broadcastsOnlyTo_nil.
    + intros payload _ _ _. rewrite handleAuth_bind_run. cbn [snd].
      pose proof (@handleAuth_bind_broadcasts ws (sub payload)
                    (user_type payload) (user_name payload)
                    (set_tokenPayload (Some payload) st) (sessions st) eq_refl)
        as H.
      rewrite handleAuth_bind_run in H. exact H.
    + intros _ _. rewrite handleAuth_bind_run. cbn [snd].
      pose proof (@handleAuth_bind_broadcasts ws
                    (orElse (d_userId data) (randomUUID o)) (devUserType data)
                    (orElse (d_userName data) "Anonymous") st (sessions st)
                    eq_refl) as H.
      rewrite handleAuth_bind_run in H. exact H.
  - intros session data _ _ _ _. unfold try_catch.
    destruct (accepted data) eqn:Hacc.
    + destruct (idInLog (randomUUID o) (messages st)) eqn:Hid.
      * rewrite handleChatMessage_duplicate by assumption. cbn.
        apply broadcastsOnlyTo_cons; [not_a_broadcast |].
        apply broadcastsOnlyTo_nil.
      * rewrite handleChatMessage_run by assumption. cbn [snd].
        apply broadcastsOnlyTo_cons; [not_a_broadcast |].
        apply broadcastsOnlyTo_app;
          [apply broadcastsOnlyTo_recipients |].
        unfold syncJobs. destruct (tokenPayload st);
          [destruct (truthy (roomId st)) |];
          try apply broadcastsOnlyTo_nil.
        apply broadcastsOnlyTo_cons; [not_a_broadcast |].
        apply broadcastsOnlyTo_nil.
    + rewrite handleChatMessage_ignored by assumption.
      apply broadcastsOnlyTo_nil.
  - intros session data _ _ _ _. unfold try_catch.
    rewrite handleTypingIndicator_run. cbn [snd].
    apply broadcastsOnlyTo_recipients.
  - intros session data _ _ _ _. unfold try_catch.
    destruct (contextBound st) eqn:Hb.
    + destruct (endReadingResult o) as [result|] eqn:Hr.
      * erewrite handleEndChat_resolved by eassumption. cbn [snd].
        apply broadcastsOnlyTo_cons; [not_a_broadcast |].
        apply broadcastsOnlyTo_app;
          [apply broadcastsOnlyTo_recipients |].
        repeat (apply broadcastsOnlyTo_cons; [not_a_broadcast |]).
        apply broadcastsOnlyTo_nil.
      * rewrite handleEndChat_rejected by assumption. cbn [snd].
        repeat (apply broadcastsOnlyTo_cons; [not_a_broadcast |]).
        apply broadcastsOnlyTo_nil.
    + rewrite handleEndChat_unbound by assumption. cbn [snd].
      apply broadcastsOnlyTo_cons; [not_a_broadcast |].
      apply broadcastsOnlyTo_nil.
Qed.

Lemma endChatTimeout_run st :
  endChatTimeout st
  = (Some tt, set_sessions [] st,
     map (fun e => Close (fst e) 1000 "Chat session ended") (sessions st)).
Proof.
  unfold endChatTimeout. unfold bind at 1, gets at 1.
  unfold bind at 1.
  rewrite for_each_emits with
    (f := fun e : WebSocket * SessionData =>
            [Close (fst e) 1000 "Chat session ended"]) by reflexivity.
  unfold modify. rewrite app_nil_r. cbn [app]. apply f_equal.
  induction (sessions st) as [|e l IH]; [reflexivity |].
  cbn [flat_map map app]. now rewrite IH.
Qed.

Lemma webSocketClose_run ws code reason st :
  webSocketClose ws code reason st
  = (Some tt, set_sessions (sessions_delete ws (sessions st)) st,
     match sessions_get ws (sessions st) with
     | Some session =>
         if authenticated session then
           map (fun w =>
                  Send w (OutPresence (userId session) (userType session)
                            (userName session) offline))
             (recipients (sessions st) (Some ws))
         else []
     | None => []
     end).
Proof.
  unfold webSocketClose. unfold bind at 1, gets at 1.
  destruct (sessions_get ws (sessions st)) as [session|];
    [destruct (authenticated session) |].
  - unfold bind. rewrite broadcast_run. unfold modify.
    now rewrite app_nil_r.
  - reflexivity.
  - reflexivity.
Qed.

Lemma fetch_run request server st :
  let st1 := if truthy (room_id request)
             then set_roomId (room_id request) st else st in
  fetch request server st
  = if (pathname request =? "/websocket")%string then
      if match upgrade request with
         | Some h => (h =? "websocket")%string
         | None => false
         end
      then
        let session := mkSession "" client "Anonymous" false in
        (Some SwitchingProtocols,
         set_sessions (sessions_set server session (sessions st1)) st1,
         [AcceptWebSocket server; SerializeAttachment server session])
      else (Some (TextBody 426 "Expected WebSocket"), st1, [])
    else if (pathname request =? "/history")%string then
      (Some (JsonBody (recentRows 100 (messages st1))), st1, [])
    else (Some (TextBody 404 "Not found"), st1, []).
Proof.
  intros st1. subst st1. unfold fetch. unfold bind at 1.
  destruct (truthy (room_id request));
    (destruct (pathname request =? "/websocket")%string;
     [ unfold handleWebSocketUpgrade;
       destruct (match upgrade request with
                 | Some h => (h =? "websocket")%string
                 | None => false
                 end); reflexivity
     | destruct (pathname request =? "/history")%string;
       [ unfold modify, ret, bind; rewrite getRecentMessages_run; reflexivity
       | reflexivity ] ]).
Qed.

Lemma step_broadcasts env st ev :
  broadcastsOnlyTo (sessions st) (snd (step env st ev)).
Proof.
  destruct ev as [request server | ws message o | ws code reason | ws |];
    cbn [step snd].
  - unfold traceOf. rewrite fetch_run.
    repeat match goal with
           | |- context [if ?b then _ else _] => destruct b
           end; cbn [snd];
      repeat (apply broadcastsOnlyTo_cons; [not_a_broadcast |]);
      apply broadcastsOnlyTo_nil.
  - apply webSocketMessage_broadcasts.
  - unfold traceOf. rewrite webSocketClose_run. cbn [snd].
    destruct (sessions_get ws (sessions st)) as [session|];
      [destruct (authenticated session) |];
      try apply broadcastsOnlyTo_nil.
    apply broadcastsOnlyTo_recipients.
  - apply broadcastsOnlyTo_nil.
  - unfold traceOf. rewrite endChatTimeout_run. cbn [snd].
    intros w p Hin _. apply in_map_iff in Hin.
    destruct Hin as [e [He _]]. discriminate.
Qed.

Lemma sessions_get_NoDup ws s l :
  NoDup (map fst l) -> In (ws, s) l -> sessions_get ws l = Some s.
Proof.
  induction l as [|[k v] l IH]; simpl; intros Hnd Hin; [contradiction |].
  inversion Hnd as [|? ? Hk Hnd']; subst.
  destruct Hin as [[= -> ->] | Hin].
  - now rewrite Nat.eqb_refl.
  - destruct (Nat.eqb_spec k ws) as [-> | _]; [| now apply IH].
    exfalso. apply Hk. apply in_map_iff. now exists (ws, s).
Qed.

(** C1. A session whose [authenticated] flag is false triggers nothing and
    receives nothing.  (1) On a [message], [typing] or [end_chat] frame from
    such a session the actor is left as it was, so the log is not written,
    and the only outside call is the error reply to the sender itself (none
    at all for [typing]).  (2) Whatever the event, every [message],
    [typing], [presence] and [chat_ended] payload sent goes to a connection
    whose session has the flag set. *)
Theorem unauthenticated_sessions_are_isolated (env : Env) (st : ChatRoom) :
  (forall o ws session data type,
      sessions_get ws (sessions st) = Some session ->
      authenticated session = false ->
      d_type data = Some type ->
      type = "message" \/ type = "typing" \/ type = "end_chat" ->
      webSocketMessage env o ws (JsonValue data) st
      = (Some tt, st,
         if (type =? "typing")%string then []
         else [Send ws (OutError "Not authenticated")]))
  /\ (forall ev w p,
         NoDup (map fst (sessions st)) ->
         In (Send w p) (snd (step env st ev)) ->
         isBroadcastKind p = true ->
         exists s, sessions_get w (sessions st) = Some s
                   /\ authenticated s = true).
Proof.
  split.
  - intros o ws session data type Hs Ha Ht Hty.
    erewrite webSocketMessage_found by eassumption.
    unfold try_catch. rewrite Ha.
    destruct Hty as [-> | [-> | ->]]; reflexivity.
  - intros ev w p Hnd Hin Hk.
    destruct (step_broadcasts env st ev w p Hin Hk) as [s [Hs Ha]].
    exists s. split; [| exact Ha]. now apply sessions_get_NoDup.
Qed.

(* ------------------------------------------------------------------ *)
(** ** Accepting a chat message *)

(** A [message] frame from an authenticated session, with content that
    passes the test and a fresh identifier. *)
Lemma webSocketMessage_accepts env o ws session data st :
  sessions_get ws (sessions st) = Some session ->
  authenticated session = true ->
  d_type data = Some "message" ->
  accepted data = true ->
  idInLog (randomUUID o) (messages st) = false ->
  let m := chatMessageOf o session data in
  webSocketMessage env o ws (JsonValue data) st
  = (Some tt, set_messages (messages st ++ [storedOf m]) st,
     SqlInsert (storedOf m)
     :: map (fun w => Send w (OutMessage m)) (recipients (sessions st) None)
     ++ syncJobs st m).
Proof.
  intros Hs Ha Ht Hacc Hid m.
  erewrite webSocketMessage_found by eassumption.
  cbn [String.eqb Ascii.eqb Bool.eqb]. rewrite Ha. cbn [negb].
  apply try_catch_returns. now apply handleChatMessage_run.
Qed.

Lemma accepted_content data content :
  d_content data = Some content -> content <> EmptyString ->
  allWhiteSpace content = false -> accepted data = true.
Proof. intros H1 H2 H3. apply accepted_iff. now exists content. Qed.

Lemma orElse_content data content :
  d_content data = Some content -> content <> EmptyString ->
  orElse (d_content data) "" = content.
Proof.
  intros -> Hne. simpl. now destruct (String.eqb_spec content "").
Qed.

(** C7. A [message] frame from an authenticated session whose content is
    neither empty nor white space only adds exactly one row to the log, the
    row of that message, and the insert is the first outside call of the
    event: all that follows are the sends of the broadcast and then, at
    most, the scheduling of the sync job. *)
Theorem accepted_message_logged_once_before_broadcast
  (env : Env) (o : Oracle) (ws : WebSocket) (session : SessionData)
  (data : Frame) (content : string) (st : ChatRoom) :
  sessions_get ws (sessions st) = Some session ->
  authenticated session = true ->
  d_type data = Some "message" ->
  d_content data = Some content ->
  content <> EmptyString ->
  allWhiteSpace content = false ->
  idInLog (randomUUID o) (messages st) = false ->
  let r := webSocketMessage env o ws (JsonValue data) st in
  let m := chatMessageOf o session data in
  exists sends jobs,
    messages (stateOf r) = messages st ++ [storedOf m]
    /\ traceOf r = SqlInsert (storedOf m) :: sends ++ jobs
    /\ sends = map (fun w => Send w (OutMessage m))
                 (recipients (sessions st) None)
    /\ (jobs = [] \/ exists job, jobs = [WaitUntilSync job])
    /\ (forall row, ~ In (SqlInsert row) (sends ++ jobs)).
Proof.
  intros Hs Ha Ht Hc Hne Hws Hid r m. subst r.
  rewrite (@webSocketMessage_accepts env o ws session data st Hs Ha Ht
             (@accepted_content data content Hc Hne Hws) Hid).
  fold m. unfold stateOf, traceOf. cbn [fst snd].
  exists (map (fun w => Send w (OutMessage m)) (recipients (sessions st) None)),
         (syncJobs st m).
  split; [reflexivity |]. split; [reflexivity |]. split; [reflexivity |].
  assert (Hjobs : syncJobs st m = [] \/ exists job, syncJobs st m = [WaitUntilSync job]).
  { unfold syncJobs. destruct (tokenPayload st);
      [destruct (truthy (roomId st)) |]; eauto. }
  split; [exact Hjobs |].
  intros row Hin. apply in_app_or in Hin. destruct Hin as [Hin | Hin].
  - apply in_map_iff in Hin. destruct Hin as [w [Hw _]]. discriminate.
  - destruct Hjobs as [E | [job E]]; rewrite E in Hin;
      [contradiction | destruct Hin as [Hin | []]; discriminate].
Qed.

(** C2. From an authenticated sender, the [message] payload of an accepted
    chat message is sent to every session that is authenticated, the
    sender's own included; the [typing] payload is sent to every
    authenticated session but the sender's, and nothing is sent to the
    sender. *)
Theorem message_reaches_all_typing_reaches_others
  (env : Env) (o : Oracle) (ws : WebSocket) (session : SessionData)
  (data : Frame) (st : ChatRoom) :
  sessions_get ws (sessions st) = Some session ->
  authenticated session = true ->
  let t := traceOf (webSocketMessage env o ws (JsonValue data) st) in
  (forall content,
      d_type data = Some "message" ->
      d_content data = Some content ->
      content <> EmptyString ->
      allWhiteSpace content = false ->
      idInLog (randomUUID o) (messages st) = false ->
      let m := chatMessageOf o session data in
      (forall w s, sessions_get w (sessions st) = Some s ->
                   authenticated s = true -> In (Send w (OutMessage m)) t)
      /\ In (Send ws (OutMessage m)) t)
  /\ (d_type data = Some "typing" ->
      let p := OutTyping (userId session) (userType session)
                 (match d_isTyping data with Some b => b | None => false end) in
      (forall w s, sessions_get w (sessions st) = Some s ->
                   authenticated s = true -> w <> ws -> In (Send w p) t)
      /\ (forall q, ~ In (Send ws q) t)
      /\ (forall e, In e t -> exists w, e = Send w p)).
Proof.
  intros Hs Ha t. subst t. split.
  - intros content Ht Hc Hne Hws Hid m.
    rewrite (@webSocketMessage_accepts env o ws session data st Hs Ha Ht
               (@accepted_content data content Hc Hne Hws) Hid).
    fold m. unfold traceOf. cbn [snd].
    assert (Hall : forall w s, sessions_get w (sessions st) = Some s ->
                     authenticated s = true ->
                     In (Send w (OutMessage m))
                       (SqlInsert (storedOf m)
                        :: map (fun w => Send w (OutMessage m))
                             (recipients (sessions st) None)
                        ++ syncJobs st m)).
    { intros w s Hw Hsa. right. apply in_or_app. left.
      apply in_map_iff. exists w. split; [reflexivity |].
      apply in_recipients. exists s.
      repeat split; [now apply sessions_get_In | assumption]. }
    split; [exact Hall | now apply (Hall ws session)].
  - intros Ht p.
    erewrite webSocketMessage_found by eassumption.
    cbn [String.eqb Ascii.eqb Bool.eqb]. rewrite Ha. cbn [negb].
    erewrite try_catch_returns by apply handleTypingIndicator_run.
    fold p. unfold traceOf. cbn [snd].
    split; [| split].
    + intros w s Hw Hsa Hne.
      apply in_map_iff. exists w. split; [reflexivity |].
      apply in_recipients. exists s. repeat split; [now apply sessions_get_In | assumption..].
    + intros q Hin. apply in_map_iff in Hin.
      destruct Hin as [w [[= -> _] Hw]].
      apply in_recipients in Hw. destruct Hw as [_ [_ [_ Hne]]]. now apply Hne.
    + intros e Hin. apply in_map_iff in Hin.
      destruct Hin as [w [<- _]]. now exists w.
Qed.

Lemma recentRows_verbatim limit rows row :
  In row (recentRows limit rows) -> In row rows.
Proof.
  unfold recentRows. intros H. apply in_rev in H.
  eapply Permutation_in; [apply orderByTimestampDesc_perm |].
  eapply In_firstn. exact H.
Qed.

(** C3. Not so for every accepted message.  [sanitizeContent] cuts at
    1000 code units, also between the two halves of a surrogate pair.  For
    999 letters followed by U+1F600, well-formed text of 1001 code units,
    the content broadcast is the 999 letters and the first half of the
    pair: 1000 code units.  That is not well-formed text, and what the
    log gives back for it is the 999 letters and three U+FFFD: 1002 code
    units, more than the cap, and not the content that was broadcast. *)
Theorem sanitizeContent_cuts_inside_a_surrogate_pair :
  let content := Utf16.pairAcrossTheCap in
  let broadcast := Utf16.sanitizeContent content in
  let stored := Utf16.columnText broadcast in
  Utf16.wellFormed content = true
  /\ List.length content = 1001
  /\ broadcast = repeat 97%N 999 ++ [55357%N]
  /\ List.length broadcast = contentCap
  /\ Utf16.wellFormed broadcast = false
  /\ stored = repeat 97%N 999 ++ repeat Utf16.replacementCharacter 3
  /\ List.length stored = 1002
  /\ stored <> broadcast.
Proof.
  cbv zeta.
  split; [vm_compute; reflexivity |].
  split; [vm_compute; reflexivity |].
  split; [vm_compute; reflexivity |].
  split; [vm_compute; reflexivity |].
  split; [vm_compute; reflexivity |].
  split; [vm_compute; reflexivity |].
  split; [vm_compute; reflexivity |].
  intros H. apply (f_equal (@List.length N)) in H.
  vm_compute in H. discriminate.
Qed.

(* ------------------------------------------------------------------ *)
(** ** Authentication *)

Lemma handleAuth_returns env o ws session data st :
  exists st' t, handleAuth env o ws session data st = (Some tt, st', t).
Proof.
  apply handleAuth_cases; intros; rewrite ?handleAuth_bind_run; eauto.
Qed.

Lemma webSocketMessage_auth env o ws session data st :
  sessions_get ws (sessions st) = Some session ->
  d_type data = Some "auth" ->
  webSocketMessage env o ws (JsonValue data) st
  = handleAuth env o ws session data st.
Proof.
  intros Hs Ht.
  erewrite webSocketMessage_found by eassumption.
  cbn [String.eqb Ascii.eqb Bool.eqb].
  destruct (handleAuth_returns env o ws session data st) as [st' [t E]].
  unfold try_catch. now rewrite E.
Qed.

Lemma roomDiffers_true_iff st payload :
  roomDiffers st payload = true <->
  exists rid, roomId st = Some rid /\ rid <> EmptyString
              /\ reading_id payload <> rid.
Proof.
  unfold roomDiffers. rewrite andb_true_iff, negb_true_iff.
  destruct (roomId st) as [rid|]; simpl.
  - destruct (String.eqb_spec rid "") as [-> | Hne]; simpl.
    + split; [intros [H _]; discriminate |].
      intros [r [[= <-] [H _]]]. congruence.
    + rewrite String.eqb_neq. split.
      * intros [_ H]. now exists rid.
      * intros [r [[= <-] [_ H]]]. now split.
  - split; [intros [H _]; discriminate | intros [r [H _]]; discriminate].
Qed.

(** C5. A failed authentication attempt sends [auth_error], closes the
    connection and changes nothing.  An invalid token is closed with 4001,
    a token for another room than the bound one with 4003, a missing token
    outside credential-less mode with 4001.  Every [auth] frame on a
    registered connection that does not end in [auth_success] is answered
    in this way: the actor is as before, so the session keeps its flag and
    identity, and the only outside calls are the [auth_error] and the
    close, hence no presence broadcast. *)
Theorem failed_auth_closes_and_changes_nothing
  (env : Env) (o : Oracle) (ws : WebSocket) (session : SessionData)
  (data : Frame) (st : ChatRoom) :
  sessions_get ws (sessions st) = Some session ->
  d_type data = Some "auth" ->
  let r := webSocketMessage env o ws (JsonValue data) st in
  (credentialOffered env data = true -> verified env o data = None ->
   r = (Some tt, st,
        [Send ws (OutAuthError "Invalid or expired token");
         Close ws 4001 "Unauthorized"]))
  /\ (forall payload rid,
         credentialOffered env data = true ->
         verified env o data = Some payload ->
         roomId st = Some rid -> rid <> EmptyString ->
         reading_id payload <> rid ->
         r = (Some tt, st,
              [Send ws (OutAuthError "Token not valid for this room");
               Close ws 4003 "Forbidden"]))
  /\ (truthy (d_token data) = false -> devMode env = false ->
      r = (Some tt, st,
           [Send ws (OutAuthError "Token required");
            Close ws 4001 "Unauthorized"]))
  /\ ((forall uid participants,
          ~ In (Send ws (OutAuthSuccess uid participants)) (traceOf r)) ->
      stateOf r = st
      /\ sessions_get ws (sessions (stateOf r)) = Some session
      /\ (authenticated session = false ->
          forall after, sessions_get ws (sessions (stateOf r)) = Some after ->
                        authenticated after = false)
      /\ exists m code reason,
           traceOf r = [Send ws (OutAuthError m); Close ws code reason]
           /\ (code = 4003%Z <->
               exists payload, credentialOffered env data = true
                               /\ verified env o data = Some payload
                               /\ roomDiffers st payload = true)
           /\ (code <> 4003%Z -> code = 4001%Z)).
Proof.
  intros Hs Ht r. subst r.
  rewrite (@webSocketMessage_auth env o ws session data st Hs Ht).
  split; [| split; [| split]].
  - intros Hc Hv. now apply handleAuth_invalid.
  - intros payload rid Hc Hv Hrid Hne Hdiff.
    apply (@handleAuth_mismatch env o ws session data st payload Hc Hv).
    apply roomDiffers_true_iff. now exists rid.
  - intros Htok Hd. apply handleAuth_required; [| exact Hd].
    unfold credentialOffered. now rewrite Htok.
  - intros Hfail.
    destruct (credentialOffered env data) eqn:Hc.
    + destruct (verified env o data) as [payload|] eqn:Hv.
      * destruct (roomDiffers st payload) eqn:Hr.
        -- rewrite (@handleAuth_mismatch env o ws session data st payload
                      Hc Hv Hr) in *.
           unfold stateOf, traceOf. cbn [fst snd].
           split; [reflexivity |]. split; [exact Hs |].
           split; [intros Hf after Hafter; congruence |].
           do 3 eexists. split; [reflexivity |]. split; [| tauto].
           split; [intros _; now exists payload | reflexivity].
        -- exfalso.
           rewrite (@handleAuth_credential env o ws session data st payload
                      Hc Hv Hr) in Hfail.
           rewrite handleAuth_bind_run in Hfail.
           eapply Hfail. unfold traceOf. cbn [snd]. right. left. reflexivity.
      * rewrite (@handleAuth_invalid env o ws session data st Hc Hv) in *.
        unfold stateOf, traceOf. cbn [fst snd].
        split; [reflexivity |]. split; [exact Hs |].
        split; [intros Hf after Hafter; congruence |].
        do 3 eexists. split; [reflexivity |]. split; [| tauto].
        split; [discriminate |].
        intros [payload [_ [H _]]]. discriminate.
    + destruct (devMode env) eqn:Hd.
      * exfalso.
        rewrite (@handleAuth_development env o ws session data st Hc Hd)
          in Hfail.
        rewrite handleAuth_bind_run in Hfail.
        eapply Hfail. unfold traceOf. cbn [snd]. right. left. reflexivity.
      * rewrite (@handleAuth_required env o ws session data st Hc Hd) in *.
        unfold stateOf, traceOf. cbn [fst snd].
        split; [reflexivity |]. split; [exact Hs |].
        split; [intros Hf after Hafter; congruence |].
        do 3 eexists. split; [reflexivity |]. split; [| tauto].
        split; [discriminate |].
        intros [payload [H _]]. discriminate.
Qed.

(** What an [auth_success] in the record of an [auth] event tells. *)
Lemma auth_success_inv env o ws session data st uid ps :
  sessions_get ws (sessions st) = Some session ->
  d_type data = Some "auth" ->
  let r := webSocketMessage env o ws (JsonValue data) st in
  In (Send ws (OutAuthSuccess uid ps)) (traceOf r) ->
  exists utype uname,
    sessions (stateOf r)
    = sessions_set ws (mkSession uid utype uname true) (sessions st)
    /\ ps = participantsOf (sessions (stateOf r)).
Proof.
  intros Hs Ht r. subst r.
  rewrite (@webSocketMessage_auth env o ws session data st Hs Ht).
  set (P := fun r : option unit * ChatRoom * list Effect =>
              In (Send ws (OutAuthSuccess uid ps)) (traceOf r) ->
              exists utype uname,
                sessions (stateOf r)
                = sessions_set ws (mkSession uid utype uname true) (sessions st)
                /\ ps = participantsOf (sessions (stateOf r))).
  assert (Hbind : forall u ut un st0,
             sessions st0 = sessions st ->
             P (handleAuth_bind ws u ut un st0)).
  { intros u ut un st0 Hst0. unfold P. rewrite handleAuth_bind_run.
    unfold stateOf, traceOf. cbn [fst snd sessions set_sessions].
    rewrite Hst0. intros Hin.
    apply in_app_or in Hin. destruct Hin as [Hin | Hin].
    - destruct Hin as [Hin | [Hin | [Hin | []]]]; try discriminate.
      injection Hin as Hu Hps. subst u ps. now exists ut, un.
    - apply in_map_iff in Hin. destruct Hin as [w [Hw _]]. discriminate. }
  change (P (handleAuth env o ws session data st)).
  apply handleAuth_cases.
  - intros m code reason. unfold P, traceOf. cbn [snd].
    intros [Hin | [Hin | []]]; discriminate.
  - intros payload _ _ _. now apply Hbind.
  - intros _ _. now apply Hbind.
Qed.

(** C9. When an [auth] on one connection succeeds and the next event is an
    [auth] on another connection that succeeds too, the participant list in
    the second [auth_success] has the identity bound to the first
    connection and the identity bound to the second. *)
Theorem second_auth_success_lists_both_identities
  (env : Env) (o1 o2 : Oracle) (ws1 ws2 : WebSocket)
  (session1 session2 : SessionData) (data1 data2 : Frame) (st : ChatRoom)
  (uid1 uid2 : string) (ps1 ps2 : list Participant) :
  ws1 <> ws2 ->
  sessions_get ws1 (sessions st) = Some session1 ->
  sessions_get ws2 (sessions st) = Some session2 ->
  d_type data1 = Some "auth" ->
  d_type data2 = Some "auth" ->
  let r1 := webSocketMessage env o1 ws1 (JsonValue data1) st in
  let r2 := webSocketMessage env o2 ws2 (JsonValue data2) (stateOf r1) in
  In (Send ws1 (OutAuthSuccess uid1 ps1)) (traceOf r1) ->
  In (Send ws2 (OutAuthSuccess uid2 ps2)) (traceOf r2) ->
  exists bound1 bound2,
    sessions_get ws1 (sessions (stateOf r2)) = Some bound1
    /\ sessions_get ws2 (sessions (stateOf r2)) = Some bound2
    /\ userId bound1 = uid1 /\ userId bound2 = uid2
    /\ In (mkParticipant (userId bound1) (userType bound1) (userName bound1))
         ps2
    /\ In (mkParticipant (userId bound2) (userType bound2) (userName bound2))
         ps2.
Proof.
  intros Hne Hs1 Hs2 Ht1 Ht2 r1 r2 Hin1 Hin2.
  destruct (@auth_success_inv env o1 ws1 session1 data1 st uid1 ps1
              Hs1 Ht1 Hin1) as [ut1 [un1 [Hst1 _]]].
  fold r1 in Hst1.
  assert (Hs2' : sessions_get ws2 (sessions (stateOf r1)) = Some session2).
  { rewrite Hst1. rewrite sessions_get_set_other; [exact Hs2 | congruence]. }
  destruct (@auth_success_inv env o2 ws2 session2 data2 (stateOf r1) uid2 ps2
              Hs2' Ht2 Hin2) as [ut2 [un2 [Hst2 Hps2]]].
  fold r2 in Hst2, Hps2.
  set (bound1 := mkSession uid1 ut1 un1 true) in *.
  set (bound2 := mkSession uid2 ut2 un2 true) in *.
  assert (Hg1 : sessions_get ws1 (sessions (stateOf r2)) = Some bound1).
  { rewrite Hst2, Hst1. rewrite sessions_get_set_other by exact Hne.
    apply sessions_get_set_same. }
  assert (Hg2 : sessions_get ws2 (sessions (stateOf r2)) = Some bound2).
  { rewrite Hst2. apply sessions_get_set_same. }
  exists bound1, bound2.
  split; [exact Hg1 |]. split; [exact Hg2 |].
  split; [reflexivity |]. split; [reflexivity |].
  rewrite Hps2. split.
  - apply (@in_participantsOf _ ws1 bound1);
      [now apply sessions_get_In | reflexivity].
  - apply (@in_participantsOf _ ws2 bound2);
      [now apply sessions_get_In | reflexivity].
Qed.

(* ------------------------------------------------------------------ *)
(** ** Ending the chat *)

Lemma contextBound_false_iff st :
  contextBound st = false <->
  tokenPayload st = None \/ truthy (roomId st) = false.
Proof.
  unfold contextBound. destruct (tokenPayload st); simpl.
  - split; [now right | intros [H | H]; [discriminate | exact H]].
  - split; [now left | reflexivity].
Qed.

Lemma handleEndChat_returns o ws session data st :
  exists t, handleEndChat o ws session data st = (Some tt, st, t).
Proof.
  destruct (contextBound st) eqn:Hb.
  - destruct (endReadingResult o) as [result|] eqn:Hr.
    + erewrite handleEndChat_resolved by eassumption. eauto.
    + rewrite handleEndChat_rejected by assumption. eauto.
  - rewrite handleEndChat_unbound by assumption. eauto.
Qed.

Lemma webSocketMessage_end_chat env o ws session data st :
  sessions_get ws (sessions st) = Some session ->
  authenticated session = true ->
  d_type data = Some "end_chat" ->
  webSocketMessage env o ws (JsonValue data) st
  = handleEndChat o ws session data st.
Proof.
  intros Hs Ha Ht.
  erewrite webSocketMessage_found by eassumption.
  cbn [String.eqb Ascii.eqb Bool.eqb]. rewrite Ha. cbn [negb].
  destruct (handleEndChat_returns o ws session data st) as [t E].
  unfold try_catch. now rewrite E.
Qed.

(** A development-mode [auth] on a registered connection. *)
Lemma webSocketMessage_auth_development env o ws session data st :
  sessions_get ws (sessions st) = Some session ->
  d_type data = Some "auth" ->
  devMode env = true ->
  webSocketMessage env o ws (JsonValue data) st
  = handleAuth_bind ws (orElse (d_userId data) (randomUUID o))
      (devUserType data) (orElse (d_userName data) "Anonymous") st.
Proof.
  intros Hs Ht Hd.
  erewrite webSocketMessage_found by eassumption.
  cbn [String.eqb Ascii.eqb Bool.eqb].
  assert (Hc : credentialOffered env data = false).
  { unfold devMode in Hd. unfold credentialOffered.
    apply andb_true_iff in Hd. destruct Hd as [_ Hd].
    apply negb_true_iff in Hd. rewrite Hd. apply andb_false_r. }
  unfold try_catch.
  rewrite (@handleAuth_development env o ws session data st Hc Hd).
  now rewrite handleAuth_bind_run.
Qed.

(** Only a successful credential authentication writes [tokenPayload]. *)
Lemma step_keeps_tokenPayload env st ev :
  jwtAuthSucceeds env st ev = false ->
  tokenPayload (fst (step env st ev)) = tokenPayload st.
Proof.
  destruct ev as [request server | ws message o | ws code reason | ws |];
    cbn [step fst]; intros Hjwt.
  - unfold stateOf. rewrite fetch_run.
    repeat match goal with
           | |- context [if ?b then _ else _] => destruct b
           end; reflexivity.
  - revert Hjwt. apply webSocketMessage_cases; try reflexivity.
    + intros session data -> Hs Ht. cbn [jwtAuthSucceeds].
      rewrite Hs, Ht. cbn [String.eqb Ascii.eqb Bool.eqb andb].
      intros Hjwt.
      destruct (handleAuth_returns env o ws session data st) as [st' [t E]].
      unfold try_catch. rewrite E. rewrite <- E. clear E st' t.
      apply handleAuth_cases.
      * reflexivity.
      * intros payload Hc Hv Hr. exfalso.
        unfold credentialOffered in Hc. unfold verified in Hv.
        unfold roomDiffers in Hr.
        apply andb_true_iff in Hc. destruct Hc as [Hc1 Hc2].
        rewrite Hc1, Hc2, Hv, Hr in Hjwt. discriminate.
      * intros _ _. now rewrite handleAuth_bind_run.
    + intros session data _ _ _ _ _. unfold try_catch.
      destruct (accepted data) eqn:Hacc.
      * destruct (idInLog (randomUUID o) (messages st)) eqn:Hid.
        -- now rewrite handleChatMessage_duplicate by assumption.
        -- now rewrite handleChatMessage_run by assumption.
      * now rewrite handleChatMessage_ignored by assumption.
    + intros session data _ _ _ _ _. unfold try_catch.
      now rewrite handleTypingIndicator_run.
    + intros session data _ _ _ _ _. unfold try_catch.
      destruct (handleEndChat_returns o ws session data st) as [t E].
      now rewrite E.
  - unfold stateOf. now rewrite webSocketClose_run.
  - reflexivity.
  - unfold stateOf. now rewrite endChatTimeout_run.
Qed.

Lemma run_keeps_tokenPayload env evs st :
  noJwtAuth env st evs = true ->
  tokenPayload (run env st evs) = tokenPayload st.
Proof.
  revert st. induction evs as [|ev evs IH]; intros st H; [reflexivity |].
  cbn [noJwtAuth] in H. apply andb_true_iff in H. destruct H as [H1 H2].
  apply negb_true_iff in H1. cbn [run].
  rewrite (IH _ H2). now apply step_keeps_tokenPayload.
Qed.

(** C4. When the room context is not bound (no credential claims stored,
    or no room id), an [end_chat] frame is answered with one error to the
    initiator and nothing else: the actor is unchanged and there is no
    ledger call, no broadcast and no close.  This is so for an
    authenticated initiator too, and in particular for one that
    authenticated in credential-less development mode, since that
    authentication binds nothing; and it is so in every state an actor
    reaches before any credential authentication has succeeded. *)
Theorem end_chat_without_bound_context
  (env : Env) (o : Oracle) (ws : WebSocket) (data : Frame) :
  d_type data = Some "end_chat" ->
  (forall st,
      tokenPayload st = None \/ truthy (roomId st) = false ->
      (exists m,
          webSocketMessage env o ws (JsonValue data) st
          = (Some tt, st, [Send ws (OutError m)]))
      /\ (forall session,
             sessions_get ws (sessions st) = Some session ->
             authenticated session = true ->
             webSocketMessage env o ws (JsonValue data) st
             = (Some tt, st,
                [Send ws (OutError "Cannot end chat: missing session data")])))
  /\ (forall st o' authData session,
         tokenPayload st = None \/ truthy (roomId st) = false ->
         devMode env = true ->
         sessions_get ws (sessions st) = Some session ->
         d_type authData = Some "auth" ->
         let st1 :=
           stateOf (webSocketMessage env o' ws (JsonValue authData) st) in
         (exists session1,
             sessions_get ws (sessions st1) = Some session1
             /\ authenticated session1 = true)
         /\ webSocketMessage env o ws (JsonValue data) st1
            = (Some tt, st1,
               [Send ws (OutError "Cannot end chat: missing session data")]))
  /\ (forall sockets storage evs,
         noJwtAuth env (ChatRoom_constructor sockets storage) evs = true ->
         let st := run env (ChatRoom_constructor sockets storage) evs in
         exists m,
           webSocketMessage env o ws (JsonValue data) st
           = (Some tt, st, [Send ws (OutError m)])).
Proof.
  intros Ht.
  assert (Hauthd : forall st session,
             contextBound st = false ->
             sessions_get ws (sessions st) = Some session ->
             authenticated session = true ->
             webSocketMessage env o ws (JsonValue data) st
             = (Some tt, st,
                [Send ws (OutError "Cannot end chat: missing session data")])).
  { intros st session Hb Hs Ha.
    rewrite (@webSocketMessage_end_chat env o ws session data st Hs Ha Ht).
    now apply handleEndChat_unbound. }
  assert (Hany : forall st,
             contextBound st = false ->
             exists m,
               webSocketMessage env o ws (JsonValue data) st
               = (Some tt, st, [Send ws (OutError m)])).
  { intros st Hb.
    destruct (sessions_get ws (sessions st)) as [session|] eqn:Hs.
    - destruct (authenticated session) eqn:Ha.
      + eexists. now apply (Hauthd st session).
      + eexists. erewrite webSocketMessage_found by eassumption.
        cbn [String.eqb Ascii.eqb Bool.eqb]. rewrite Ha. reflexivity.
    - eexists. now apply webSocketMessage_no_session. }
  split; [| split].
  - intros st Hunbound. apply contextBound_false_iff in Hunbound.
    split; [now apply Hany |].
    intros session. now apply Hauthd.
  - intros st o' authData session Hunbound Hd Hs Hta st1. subst st1.
    apply contextBound_false_iff in Hunbound.
    rewrite (@webSocketMessage_auth_development env o' ws session authData st
               Hs Hta Hd).
    rewrite handleAuth_bind_run. unfold stateOf. cbn [fst snd].
    set (session1 := mkSession _ _ _ true).
    assert (Hget : sessions_get ws
                     (sessions (set_sessions
                        (sessions_set ws session1 (sessions st)) st))
                   = Some session1).
    { cbn [sessions set_sessions]. apply sessions_get_set_same. }
    split; [now exists session1 |].
    now apply (Hauthd _ session1).
  - intros sockets storage evs Hquiet st. apply Hany.
    unfold contextBound. subst st.
    now rewrite (@run_keeps_tokenPayload env evs _ Hquiet).
Qed.

(** C6. When the ledger call of an [end_chat] throws or rejects, the
    initiator gets an error, and that is all that follows the call: no
    close, no broadcast, no timer, and the actor (registry included) is as
    before, so a later [end_chat] places the ledger call again. *)
Theorem end_chat_ledger_failure_leaves_room_open
  (env : Env) (o : Oracle) (ws : WebSocket) (session : SessionData)
  (data : Frame) (st : ChatRoom) :
  sessions_get ws (sessions st) = Some session ->
  authenticated session = true ->
  d_type data = Some "end_chat" ->
  contextBound st = true ->
  endReadingResult o = None ->
  let r := webSocketMessage env o ws (JsonValue data) st in
  r = (Some tt, st,
       [EndReadingCall (endParamsOf st session data);
        Send ws (OutError "Failed to end chat. Please try again.")])
  /\ sessions (stateOf r) = sessions st
  /\ (forall o' data',
         d_type data' = Some "end_chat" ->
         In (EndReadingCall (endParamsOf st session data'))
           (traceOf (webSocketMessage env o' ws (JsonValue data') (stateOf r)))).
Proof.
  intros Hs Ha Ht Hb Hr r. subst r.
  rewrite (@webSocketMessage_end_chat env o ws session data st Hs Ha Ht).
  rewrite handleEndChat_rejected by assumption.
  unfold stateOf. cbn [fst snd].
  split; [reflexivity |]. split; [reflexivity |].
  intros o' data' Ht'.
  rewrite (@webSocketMessage_end_chat env o' ws session data' st Hs Ha Ht').
  destruct (endReadingResult o') as [result|] eqn:Hr'.
  - erewrite handleEndChat_resolved by eassumption. now left.
  - rewrite handleEndChat_rejected by assumption. now left.
Qed.

(* ------------------------------------------------------------------ *)
(** ** Waking from hibernation *)

(** A successful credential authentication binds the claims. *)
Lemma step_binds_tokenPayload env st ev :
  jwtAuthSucceeds env st ev = true ->
  exists ws data o payload uid participants,
    ev = WsMessage ws (JsonValue data) o
    /\ verified env o data = Some payload
    /\ tokenPayload (fst (step env st ev)) = Some payload
    /\ In (Send ws (OutAuthSuccess uid participants)) (snd (step env st ev))
    /\ In (SerializeAttachment ws
             (mkSession (sub payload) (user_type payload) (user_name payload)
                true))
         (snd (step env st ev)).
Proof.
  destruct ev as [| ws [| | data] o | | |]; try discriminate.
  cbn [jwtAuthSucceeds].
  destruct (sessions_get ws (sessions st)) as [session|] eqn:Hs;
    [| discriminate].
  destruct (d_type data) as [type|] eqn:Ht; [| discriminate].
  destruct (String.eqb_spec type "auth") as [-> | _]; [| discriminate].
  cbn [andb].
  destruct (truthy (d_token data)) eqn:Hc1; [| discriminate].
  destruct (truthy (JWT_SECRET env)) eqn:Hc2; [| discriminate].
  cbn [andb].
  destruct (validateToken o _ _) as [payload|] eqn:Hv; [| discriminate].
  intros Hr. apply negb_true_iff in Hr.
  exists ws, data, o, payload, (sub payload).
  cbn [step fst snd].
  rewrite (@webSocketMessage_auth env o ws session data st Hs Ht).
  assert (Hc : credentialOffered env data = true)
    by (unfold credentialOffered; now rewrite Hc1, Hc2).
  rewrite (@handleAuth_credential env o ws session data st payload Hc Hv Hr).
  rewrite handleAuth_bind_run. unfold stateOf, traceOf. cbn [fst snd].
  eexists. split; [reflexivity |]. split; [exact Hv |].
  split; [reflexivity |]. split; [right; left; reflexivity |].
  left. reflexivity.
Qed.

Lemma sessions_set_fresh ws s l :
  ~ In ws (map fst l) -> sessions_set ws s l = l ++ [(ws, s)].
Proof.
  induction l as [|[k v] l IH]; simpl; intros H; [reflexivity |].
  destruct (Nat.eqb_spec k ws) as [-> | _]; [tauto |].
  rewrite IH; [reflexivity | tauto].
Qed.

Lemma restored_keys sockets ws :
  In ws (map fst (restored sockets)) -> In ws (map fst sockets).
Proof.
  unfold restored. rewrite !in_map_iff. intros [[w s] [Hw Hin]].
  simpl in Hw. subst w. apply in_flat_map in Hin.
  destruct Hin as [[w [a|]] [Hin Hx]]; simpl in Hx; [| contradiction].
  destruct Hx as [[= -> ->] | []]. now exists (ws, Some s).
Qed.

Lemma constructor_sessions sockets storage :
  NoDup (map fst sockets) ->
  sessions (ChatRoom_constructor sockets storage) = restored sockets.
Proof.
  unfold ChatRoom_constructor. cbn [sessions].
  change (restored sockets) with ([] ++ restored sockets).
  assert (Hdisj : forall ws, In ws (map fst (@nil (WebSocket * SessionData))) ->
                             ~ In ws (map fst sockets)) by (intros ws []).
  revert Hdisj. generalize (@nil (WebSocket * SessionData)) as acc.
  induction sockets as [|[w a] sockets IH]; intros acc Hdisj Hnd.
  - simpl. now rewrite app_nil_r.
  - cbn [fold_left fst snd]. inversion Hnd as [|? ? Hw Hnd']; subst.
    destruct a as [attachment|].
    + rewrite sessions_set_fresh.
      * rewrite IH; [| | exact Hnd'].
        -- unfold restored. cbn [flat_map fst snd]. now rewrite <- app_assoc.
        -- intros ws Hin. rewrite map_app in Hin. apply in_app_or in Hin.
           destruct Hin as [Hin | [<- | []]]; [| exact Hw].
           intros Hin'. apply (Hdisj ws Hin). now right.
      * intros Hin. apply (Hdisj w Hin). now left.
    + rewrite IH; [reflexivity | | exact Hnd'].
      intros ws Hin Hin'. apply (Hdisj ws Hin). now right.
Qed.

Lemma syncJobs_unbound st m : tokenPayload st = None -> syncJobs st m = [].
Proof. unfold syncJobs. now intros ->. Qed.

(** C10. What is persisted per connection is a [SessionData] and nothing
    else, so an instance woken from hibernation has the sessions as they
    were serialized, authenticated ones included, but neither credential
    claims nor a room id.  As long as no credential authentication succeeds,
    the claims stay absent; an [end_chat] from an authenticated session is
    then answered with the missing-data error and nothing else, and an
    accepted message is written to the log and broadcast without any sync
    job.  Only a successful credential authentication stores claims, and
    what it serializes for the connection is again the session alone. *)
Theorem woken_room_has_no_credential_claims
  (env : Env) (sockets : list (WebSocket * option SessionData))
  (storage : list StoredMessage) (evs : list Event) :
  let st0 := ChatRoom_constructor sockets storage in
  (tokenPayload st0 = None /\ roomId st0 = None /\ messages st0 = storage)
  /\ (NoDup (map fst sockets) ->
      forall ws attachment,
        In (ws, Some attachment) sockets ->
        sessions_get ws (sessions st0) = Some attachment)
  /\ (noJwtAuth env st0 evs = true ->
      let st := run env st0 evs in
      tokenPayload st = None
      /\ (forall o ws session data,
             sessions_get ws (sessions st) = Some session ->
             authenticated session = true ->
             d_type data = Some "end_chat" ->
             webSocketMessage env o ws (JsonValue data) st
             = (Some tt, st,
                [Send ws (OutError "Cannot end chat: missing session data")]))
      /\ (forall o ws session data content,
             sessions_get ws (sessions st) = Some session ->
             authenticated session = true ->
             d_type data = Some "message" ->
             d_content data = Some content ->
             content <> EmptyString ->
             allWhiteSpace content = false ->
             idInLog (randomUUID o) (messages st) = false ->
             let m := chatMessageOf o session data in
             webSocketMessage env o ws (JsonValue data) st
             = (Some tt, set_messages (messages st ++ [storedOf m]) st,
                SqlInsert (storedOf m)
                :: map (fun w => Send w (OutMessage m))
                     (recipients (sessions st) None))))
  /\ (forall st ev,
         tokenPayload st = None ->
         tokenPayload (fst (step env st ev)) <> None ->
         jwtAuthSucceeds env st ev = true)
  /\ (forall st ev,
         jwtAuthSucceeds env st ev = true ->
         exists ws payload,
           tokenPayload (fst (step env st ev)) = Some payload
           /\ In (SerializeAttachment ws
                    (mkSession (sub payload) (user_type payload)
                       (user_name payload) true))
                (snd (step env st ev))).
Proof.
  intros st0. split; [now repeat split |]. split; [| split; [| split]].
  - intros Hnd ws attachment Hin. subst st0.
    rewrite (@constructor_sessions sockets storage Hnd).
    apply sessions_get_NoDup.
    + clear Hin. unfold restored.
      induction sockets as [|[w a] sockets IH]; [constructor |].
      inversion Hnd as [|? ? Hw Hnd']; subst.
      cbn [flat_map fst snd]. destruct a as [s|]; [| now apply IH].
      cbn [app map fst]. constructor; [| now apply IH].
      intros Hk. apply Hw. now apply restored_keys.
    + unfold restored. apply in_flat_map.
      exists (ws, Some attachment). split; [exact Hin | now left].
  - intros Hquiet st.
    assert (Htp : tokenPayload st = None).
    { subst st. now rewrite run_keeps_tokenPayload. }
    split; [exact Htp |]. split.
    + intros o ws session data Hs Ha Ht.
      rewrite (@webSocketMessage_end_chat env o ws session data st Hs Ha Ht).
      apply handleEndChat_unbound. unfold contextBound. now rewrite Htp.
    + intros o ws session data content Hs Ha Ht Hc Hne Hws Hid m.
      rewrite (@webSocketMessage_accepts env o ws session data st Hs Ha Ht
                 (@accepted_content data content Hc Hne Hws) Hid).
      fold m. rewrite (@syncJobs_unbound st m Htp). now rewrite app_nil_r.
  - intros st ev Hnone Hsome.
    destruct (jwtAuthSucceeds env st ev) eqn:Hjwt; [reflexivity |].
    exfalso. apply Hsome.
    now rewrite (@step_keeps_tokenPayload env st ev Hjwt).
  - intros st ev Hjwt.
    destruct (@step_binds_tokenPayload env st ev Hjwt)
      as [ws [data [o [payload [uid [ps [_ [_ [Htp [_ Hser]]]]]]]]]].
    now exists ws, payload.
Qed.

(* ------------------------------------------------------------------ *)
(** ** The session map keeps one entry per connection *)

Lemma sessions_set_keys ws s l :
  In ws (map fst l) -> map fst (sessions_set ws s l) = map fst l.
Proof.
  induction l as [|[k v] l IH]; simpl; [contradiction |].
  destruct (Nat.eqb_spec k ws) as [-> | Hne]; [reflexivity |].
  intros [H | H]; [contradiction |]. simpl. now rewrite IH.
Qed.

Lemma sessions_set_NoDup ws s l :
  NoDup (map fst l) -> NoDup (map fst (sessions_set ws s l)).
Proof.
  intros Hnd. destruct (in_dec Nat.eq_dec ws (map fst l)) as [Hin | Hout].
  - now rewrite sessions_set_keys.
  - rewrite sessions_set_fresh by assumption. rewrite map_app. cbn [map fst].
    apply NoDup_app.
    + exact Hnd.
    + constructor; [intros [] | constructor].
    + intros x Hx Hin. destruct Hin as [<- | []]. contradiction.
Qed.

Lemma sessions_delete_NoDup ws l :
  NoDup (map fst l) -> NoDup (map fst (sessions_delete ws l)).
Proof.
  unfold sessions_delete. induction l as [|[k v] l IH]; simpl; intros Hnd;
    [constructor |].
  inversion Hnd as [|? ? Hk Hnd']; subst.
  destruct (negb (Nat.eqb k ws)); [| now apply IH].
  cbn [map fst]. constructor; [| now apply IH].
  intros Hin. apply Hk. rewrite in_map_iff in *.
  destruct Hin as [e [He Hin]]. exists e. split; [exact He |].
  now apply filter_In in Hin.
Qed.

Lemma step_NoDup env st ev :
  NoDup (map fst (sessions st)) ->
  NoDup (map fst (sessions (fst (step env st ev)))).
Proof.
  intros Hnd.
  destruct ev as [request server | ws message o | ws code reason | ws |];
    cbn [step fst].
  - unfold stateOf. rewrite fetch_run.
    repeat match goal with
           | |- context [if ?b then _ else _] => destruct b
           end; cbn [fst snd sessions set_sessions set_roomId];
      try assumption; now apply sessions_set_NoDup.
  - apply webSocketMessage_cases; try (intros; assumption).
    + intros session data _ _ _. unfold try_catch.
      destruct (handleAuth_returns env o ws session data st) as [st' [t E]].
      rewrite E. rewrite <- E. clear E st' t.
      apply handleAuth_cases; [intros; assumption | |];
        intros; rewrite handleAuth_bind_run;
        cbn [stateOf fst snd sessions set_sessions set_tokenPayload];
        now apply sessions_set_NoDup.
    + intros session data _ _ _ _. unfold try_catch.
      destruct (accepted data) eqn:Hacc.
      * destruct (idInLog (randomUUID o) (messages st)) eqn:Hid.
        -- now rewrite handleChatMessage_duplicate by assumption.
        -- now rewrite handleChatMessage_run by assumption.
      * now rewrite handleChatMessage_ignored by assumption.
    + intros session data _ _ _ _. unfold try_catch.
      now rewrite handleTypingIndicator_run.
    + intros session data _ _ _ _. unfold try_catch.
      destruct (handleEndChat_returns o ws session data st) as [t E].
      now rewrite E.
  - unfold stateOf. rewrite webSocketClose_run.
    cbn [fst snd sessions set_sessions]. now apply sessions_delete_NoDup.
  - cbn. now apply sessions_delete_NoDup.
  - unfold stateOf. rewrite endChatTimeout_run. cbn. constructor.
Qed.

(** Every state the actor reaches has one session per connection. *)
Lemma reachable_NoDup env sockets storage evs :
  NoDup (map fst
           (sessions (run env (ChatRoom_constructor sockets storage) evs))).
Proof.
  assert (H0 : NoDup (map fst (sessions (ChatRoom_constructor sockets storage)))).
  { unfold ChatRoom_constructor. cbn [sessions].
    assert (Hacc : NoDup (map fst (@nil (WebSocket * SessionData))))
      by constructor.
    revert Hacc. generalize (@nil (WebSocket * SessionData)) as acc.
    induction sockets as [|[w [a|]] sockets IH]; intros acc Hacc;
      cbn [fold_left fst snd]; [assumption | | now apply IH].
    apply IH. now apply sessions_set_NoDup. }
  revert H0. generalize (ChatRoom_constructor sockets storage) as st.
  induction evs as [|ev evs IH]; intros st Hst; [exact Hst |].
  cbn [run]. apply IH. now apply step_NoDup.
Qed.

(* ------------------------------------------------------------------ *)
(** ** The properties on the room ["r1"] *)

Lemma roomR1_NoDup : NoDup (map fst (sessions roomR1)).
Proof.
  cbn. repeat constructor; cbn; intuition discriminate.
Defined.

Lemma unauthenticated_sessions_are_isolated_witness :
  webSocketMessage productionEnv (world "m1" None None) 3
    (JsonValue (chatFrame "hi")) roomR1
  = (Some tt, roomR1, [Send 3 (OutError "Not authenticated")])
  /\ exists s, sessions_get 2 (sessions roomR1) = Some s
               /\ authenticated s = true.
Proof.
  split.
  - exact (proj1 (unauthenticated_sessions_are_isolated productionEnv roomR1)
             (world "m1" None None) 3 visitor (chatFrame "hi") "message"
             eq_refl eq_refl eq_refl (or_introl eq_refl)).
  - apply (proj2 (unauthenticated_sessions_are_isolated productionEnv roomR1)
             (WsMessage 1 (JsonValue (chatFrame "hi")) (world "m1" None None))
             2
             (OutMessage
                (chatMessageOf (world "m1" None None) alice (chatFrame "hi")))).
    + exact roomR1_NoDup.
    + vm_compute. right. right. left. reflexivity.
    + reflexivity.
Defined.

Lemma message_reaches_all_typing_reaches_others_witness :
  let t := traceOf (webSocketMessage productionEnv (world "m1" None None) 1
                      (JsonValue (chatFrame "hi")) roomR1) in
  let m := chatMessageOf (world "m1" None None) alice (chatFrame "hi") in
  In (Send 1 (OutMessage m)) t /\ In (Send 2 (OutMessage m)) t.
Proof.
  destruct (proj1 (@message_reaches_all_typing_reaches_others productionEnv
                     (world "m1" None None) 1 alice (chatFrame "hi") roomR1
                     eq_refl eq_refl)
              "hi"%string eq_refl eq_refl ltac:(discriminate) eq_refl eq_refl)
    as [Hall Hself].
  split; [exact Hself | exact (Hall 2 bob eq_refl eq_refl)].
Defined.

Lemma end_chat_without_bound_context_witness :
  webSocketMessage productionEnv (world "m1" None None) 1
    (JsonValue (frameOf "end_chat")) roomUnbound
  = (Some tt, roomUnbound,
     [Send 1 (OutError "Cannot end chat: missing session data")]).
Proof.
  exact (proj2 (proj1 (@end_chat_without_bound_context productionEnv
                         (world "m1" None None) 1 (frameOf "end_chat")
                         eq_refl)
                  roomUnbound (or_introl eq_refl))
           alice eq_refl eq_refl).
Defined.

Lemma failed_auth_closes_and_changes_nothing_witness :
  webSocketMessage productionEnv
    (world "m1" (Some (jwtFor "client-9" "r2" "Carol" client)) None) 3
    (JsonValue (tokenFrame "jwt-for-r2")) roomR1
  = (Some tt, roomR1,
     [Send 3 (OutAuthError "Token not valid for this room");
      Close 3 4003 "Forbidden"]).
Proof.
  exact (proj1 (proj2 (@failed_auth_closes_and_changes_nothing productionEnv
                         (world "m1" (Some (jwtFor "client-9" "r2" "Carol" client))
                            None)
                         3 visitor (tokenFrame "jwt-for-r2") roomR1
                         eq_refl eq_refl))
           (mkToken "client-9" "r2" client "Carol" "7" "3") "r1"%string
           eq_refl eq_refl eq_refl ltac:(discriminate) ltac:(discriminate)).
Defined.

Lemma end_chat_ledger_failure_leaves_room_open_witness :
  webSocketMessage productionEnv (world "m1" None None) 1
    (JsonValue (frameOf "end_chat")) roomR1
  = (Some tt, roomR1,
     [EndReadingCall (mkEndParams "r1" client "normal");
      Send 1 (OutError "Failed to end chat. Please try again.")]).
Proof.
  exact (proj1 (@end_chat_ledger_failure_leaves_room_open productionEnv
                  (world "m1" None None) 1 alice (frameOf "end_chat") roomR1
                  eq_refl eq_refl eq_refl eq_refl eq_refl)).
Defined.

Lemma accepted_message_logged_once_before_broadcast_witness :
  let o := world "m1" None None in
  let r := webSocketMessage productionEnv o 1 (JsonValue (chatFrame "hi"))
             roomR1 in
  let m := chatMessageOf o alice (chatFrame "hi") in
  exists rest,
    messages (stateOf r) = [storedOf m]
    /\ traceOf r = SqlInsert (storedOf m) :: rest
    /\ forall row, ~ In (SqlInsert row) rest.
Proof.
  intros o r m.
  destruct (@accepted_message_logged_once_before_broadcast productionEnv o 1
              alice (chatFrame "hi") "hi"%string roomR1
              eq_refl eq_refl eq_refl eq_refl ltac:(discriminate)
              eq_refl eq_refl)
    as [sends [jobs [Hlog [Htrace [_ [_ Honce]]]]]].
  exists (sends ++ jobs). repeat split; assumption.
Defined.

Lemma second_auth_success_lists_both_identities_witness :
  let o1 := world "m1" (Some (jwtFor "client-7" "r1" "Alice" client)) None in
  let o2 := world "m2" (Some (jwtFor "advisor-3" "r1" "Bob" advisor)) None in
  let r1 := webSocketMessage productionEnv o1 1
              (JsonValue (tokenFrame "jwt-alice")) lobby in
  let r2 := webSocketMessage productionEnv o2 2
              (JsonValue (tokenFrame "jwt-bob")) (stateOf r1) in
  exists bound1 bound2,
    sessions_get 1 (sessions (stateOf r2)) = Some bound1
    /\ sessions_get 2 (sessions (stateOf r2)) = Some bound2
    /\ userId bound1 = "client-7"%string
    /\ userId bound2 = "advisor-3"%string
    /\ In (mkParticipant (userId bound1) (userType bound1) (userName bound1))
         [mkParticipant "client-7" client "Alice";
          mkParticipant "advisor-3" advisor "Bob"]
    /\ In (mkParticipant (userId bound2) (userType bound2) (userName bound2))
         [mkParticipant "client-7" client "Alice";
          mkParticipant "advisor-3" advisor "Bob"].
Proof.
  intros o1 o2 r1 r2.
  apply (@second_auth_success_lists_both_identities productionEnv o1 o2 1 2
           visitor visitor (tokenFrame "jwt-alice") (tokenFrame "jwt-bob")
           lobby "client-7"%string "advisor-3"%string
           [mkParticipant "client-7" client "Alice"]
           [mkParticipant "client-7" client "Alice";
            mkParticipant "advisor-3" advisor "Bob"]
           ltac:(discriminate) eq_refl eq_refl eq_refl eq_refl).
  - vm_compute. right. left. reflexivity.
  - vm_compute. right. left. reflexivity.
Defined.

Lemma woken_room_has_no_credential_claims_witness :
  let st := run productionEnv
              (ChatRoom_constructor [(1, Some alice); (2, Some bob); (3, None)] [])
              [WsMessage 1 (JsonValue (chatFrame "hi")) (world "m1" None None);
               Fetch (mkRequest "/websocket" (Some "r1") (Some "websocket")) 4] in
  tokenPayload st = None
  /\ webSocketMessage productionEnv (world "m2" None None) 1
       (JsonValue (frameOf "end_chat")) st
     = (Some tt, st,
        [Send 1 (OutError "Cannot end chat: missing session data")]).
Proof.
  intros st.
  destruct (proj1 (proj2 (proj2
              (@woken_room_has_no_credential_claims productionEnv
                 [(1, Some alice); (2, Some bob); (3, None)] []
                 [WsMessage 1 (JsonValue (chatFrame "hi")) (world "m1" None None);
                  Fetch (mkRequest "/websocket" (Some "r1") (Some "websocket")) 4])))
              eq_refl)
    as [Htp [Hend _]].
  split; [exact Htp |].
  exact (Hend (world "m2" None None) 1 alice (frameOf "end_chat")
           eq_refl eq_refl eq_refl).
Defined.

(** The scenario, run. *)

Example scenario_both_authenticated :
  sessions afterAuths = [(1, alice); (2, bob)]
  /\ roomId afterAuths = Some "r1"%string
  /\ tokenPayload afterAuths
     = Some (mkToken "advisor-3" "r1" advisor "Bob" "7" "3").
Proof. repeat split. Qed.

Example scenario_hi_reaches_both :
  step productionEnv afterAuths
    (WsMessage 1 (JsonValue (chatFrame "hi")) (world "m1" None None))
  = (set_messages [storedOf hiMessage] afterAuths,
     [SqlInsert (storedOf hiMessage);
      Send 1 (OutMessage hiMessage);
      Send 2 (OutMessage hiMessage);
      WaitUntilSync (mkSync "r1" "7" "3" client "hi" "m1" 1700000000000)]).
Proof. reflexivity. Qed.

Example scenario_end_chat :
  snd (step productionEnv afterAuths
         (WsMessage 1 (JsonValue (endFrame "normal"))
            (world "e" None (Some ledgerOk))))
  = [EndReadingCall (mkEndParams "r1" client "normal");
     Send 1 (OutChatEnded client "Alice" "normal" (er_billing ledgerOk)
               1700000000000);
     Send 2 (OutChatEnded client "Alice" "normal" (er_billing ledgerOk)
               1700000000000);
     Send 1 (OutEndChatSuccess ledgerOk);
     SetTimeoutCloseAll 1000].
Proof. reflexivity. Qed.

Example scenario_grace_delay_closes_all :
  step productionEnv afterAuths Timeout
  = (set_sessions [] afterAuths,
     [Close 1 1000 "Chat session ended"; Close 2 1000 "Chat session ended"]).
Proof. reflexivity. Qed.

Example trim_strips_both_ends : trim "  hi  " = "hi"%string.
Proof. reflexivity. Qed.

Example whitespace_only_is_ignored :
  step productionEnv afterAuths
    (WsMessage 1 (JsonValue (chatFrame "   ")) (world "m1" None None))
  = (afterAuths, []).
Proof. reflexivity. Qed.

Example duplicate_id_is_not_logged :
  step productionEnv (set_messages [storedOf hiMessage] afterAuths)
    (WsMessage 2 (JsonValue (chatFrame "again")) (world "m1" None None))
  = (set_messages [storedOf hiMessage] afterAuths,
     [Send 2 (OutError "Invalid message format")]).
Proof. reflexivity. Qed.

(* ================================================================== *)
(** * Further properties of the code *)

(* ------------------------------------------------------------------ *)
(** ** [sanitizeContent] *)

Lemma occurs_append c (a b : string) :
  occurs c (a ++ b)%string = occurs c a || occurs c b.
Proof.
  induction a as [|x a IH]; simpl; [reflexivity |].
  rewrite IH. now rewrite orb_assoc.
Qed.

Lemma occurs_substring0 c n s :
  occurs c (substring 0 n s) = true -> occurs c s = true.
Proof.
  revert s. induction n as [|n IH]; intros [|x s]; simpl; try discriminate.
  rewrite !orb_true_iff. intros [H | H]; [now left | right; now apply IH].
Qed.

Lemma escapeHtml_clean c s :
  c = "<"%char \/ c = ">"%char \/ c = quoteChar \/ c = "'"%char ->
  occurs c (escapeHtml s) = false.
Proof.
  intros Hc. induction s as [|x s IH]; [reflexivity |].
  cbn [escapeHtml]. rewrite occurs_append, IH, orb_false_r.
  unfold htmlEntity, quoteChar in *.
  destruct (Ascii.eqb_spec x "&"%char) as [-> | H1];
    [destruct Hc as [-> | [-> | [-> | ->]]]; reflexivity |].
  destruct (Ascii.eqb_spec x "<"%char) as [-> | H2];
    [destruct Hc as [-> | [-> | [-> | ->]]]; reflexivity |].
  destruct (Ascii.eqb_spec x ">"%char) as [-> | H3];
    [destruct Hc as [-> | [-> | [-> | ->]]]; reflexivity |].
  destruct (Ascii.eqb_spec x "034"%char) as [-> | H4];
    [destruct Hc as [-> | [-> | [-> | ->]]]; reflexivity |].
  destruct (Ascii.eqb_spec x "'"%char) as [-> | H5];
    [destruct Hc as [-> | [-> | [-> | ->]]]; reflexivity |].
  cbn [occurs]. rewrite orb_false_r.
  destruct Hc as [-> | [-> | [-> | ->]]]; now apply Ascii.eqb_neq.
Qed.

(** X1. Whatever the input, the text [sanitizeContent] returns contains no
    [<], no [>], no double quote and no apostrophe, also when the cut at
    1000 characters falls inside an entity. *)
Theorem sanitizeContent_has_no_markup (content : string) :
  occurs "<"%char (sanitizeContent content) = false
  /\ occurs ">"%char (sanitizeContent content) = false
  /\ occurs quoteChar (sanitizeContent content) = false
  /\ occurs "'"%char (sanitizeContent content) = false.
Proof.
  assert (H : forall c,
             c = "<"%char \/ c = ">"%char \/ c = quoteChar \/ c = "'"%char ->
             occurs c (sanitizeContent content) = false).
  { intros c Hc. rewrite sanitizeContent_refines. unfold sanitize_spec.
    destruct (occurs c (substring 0 contentCap (escapeHtml content))) eqn:E;
      [| reflexivity].
    apply occurs_substring0 in E. now rewrite escapeHtml_clean in E. }
  repeat split; apply H; tauto.
Qed.

Lemma substring0_all n s :
  String.length s <= n -> substring 0 n s = s.
Proof.
  revert s. induction n as [|n IH]; intros [|x s]; simpl; intros H;
    try reflexivity; [lia |].
  rewrite IH; [reflexivity | lia].
Qed.

Lemma escapeHtml_plain s : plainText s = true -> escapeHtml s = s.
Proof.
  unfold plainText. induction s as [|x s IH]; [reflexivity |].
  cbn [occurs escapeHtml]. rewrite !andb_true_iff, !negb_true_iff, !orb_false_iff.
  intros [[[[[H1 H1'] [H2 H2']] [H3 H3']] [H4 H4']] [H5 H5']].
  unfold htmlEntity. rewrite H1, H2, H3, H4, H5. cbn.
  rewrite IH; [reflexivity |].
  rewrite H1', H2', H3', H4', H5'. reflexivity.
Qed.

(** X2. Text of at most 1000 characters without [&], [<], [>], double
    quote or apostrophe goes through [sanitizeContent] unchanged. *)
Theorem sanitizeContent_keeps_plain_text (content : string) :
  plainText content = true ->
  String.length content <= 1000 ->
  sanitizeContent content = content.
Proof.
  intros Hp Hlen. rewrite sanitizeContent_refines. unfold sanitize_spec.
  rewrite (escapeHtml_plain content Hp). now apply substring0_all.
Qed.

Lemma sanitizeContent_keeps_plain_text_witness :
  sanitizeContent "Hello, world" = "Hello, world"%string.
Proof.
  apply sanitizeContent_keeps_plain_text; [reflexivity |].
  vm_compute. repeat constructor.
Defined.

(* ------------------------------------------------------------------ *)
(** ** [validateToken] *)

(** X3. [validateToken] gives a payload exactly when [jwtVerify] accepts
    the token and the claims [sub], [reading_id], [user_type] and
    [user_name] are all present and not empty; the payload then carries
    these claims and the two party ids as verified, so a payload it
    returns never has an empty subject, room or name. *)
Theorem validateToken_requires_the_four_claims
  (o : Oracle) (token jwtSecret : string) (payload : TokenPayload) :
  validateToken o token jwtSecret = Some payload <->
  exists claims,
    jwtVerify o token jwtSecret = Some claims
    /\ jwt_sub claims = Some (sub payload) /\ sub payload <> EmptyString
    /\ jwt_reading_id claims = Some (reading_id payload)
    /\ reading_id payload <> EmptyString
    /\ jwt_user_type claims = Some (user_type payload)
    /\ jwt_user_name claims = Some (user_name payload)
    /\ user_name payload <> EmptyString
    /\ jwt_client_id claims = client_id payload
    /\ jwt_advisor_id claims = advisor_id payload.
Proof.
  unfold validateToken. split.
  - destruct (jwtVerify o token jwtSecret) as [claims|]; [| discriminate].
    destruct (jwt_sub claims) as [s|] eqn:Hs; [| discriminate].
    destruct (jwt_reading_id claims) as [r|] eqn:Hr; [| discriminate].
    destruct (jwt_user_type claims) as [t|] eqn:Ht; [| discriminate].
    destruct (jwt_user_name claims) as [n|] eqn:Hn; [| discriminate].
    destruct (String.eqb_spec s "") as [-> | Hs']; [discriminate |].
    destruct (String.eqb_spec r "") as [-> | Hr']; [discriminate |].
    destruct (String.eqb_spec n "") as [-> | Hn']; [discriminate |].
    cbn. intros [= <-]. exists claims. cbn. repeat split; assumption.
  - intros [claims [Hv [Hs [Hs' [Hr [Hr' [Ht [Hn [Hn' [Hc Ha]]]]]]]]]].
    rewrite Hv, Hs, Hr, Ht, Hn.
    apply String.eqb_neq in Hs', Hr', Hn'. rewrite Hs', Hr', Hn'. cbn.
    destruct payload; cbn in *. now subst.
Qed.

(* ------------------------------------------------------------------ *)
(** ** [handleAuth], the successful branches *)

Lemma webSocketMessage_auth_credential env o ws session data st payload :
  sessions_get ws (sessions st) = Some session ->
  d_type data = Some "auth"%string ->
  credentialOffered env data = true ->
  verified env o data = Some payload ->
  roomDiffers st payload = false ->
  let bound :=
    mkSession (sub payload) (user_type payload) (user_name payload) true in
  let l := sessions_set ws bound (sessions st) in
  webSocketMessage env o ws (JsonValue data) st
  = (Some tt, set_sessions l (set_tokenPayload (Some payload) st),
     [SerializeAttachment ws bound;
      Send ws (OutAuthSuccess (sub payload) (participantsOf l));
      Send ws (OutHistory (recentRows 100 (messages st)))]
     ++ map (fun w => Send w (OutPresence (sub payload) (user_type payload)
                                (user_name payload) online))
          (recipients l (Some ws))).
Proof.
  intros Hs Ht Hc Hv Hr bound l.
  rewrite (@webSocketMessage_auth env o ws session data st Hs Ht).
  rewrite (@handleAuth_credential env o ws session data st payload Hc Hv Hr).
  now rewrite handleAuth_bind_run.
Qed.



(** X5. When [JWT_SECRET] is configured, whatever [ENVIRONMENT] says, an
    [auth] frame ends in [auth_success] only if it carries a token that
    verifies; the identity bound is then the token's, not the [userId],
    [userType] or [userName] the frame may also carry. *)
Theorem configured_secret_requires_verified_token
  (env : Env) (o : Oracle) (ws : WebSocket) (session : SessionData)
  (data : Frame) (st : ChatRoom) (uid : string) (ps : list Participant) :
  sessions_get ws (sessions st) = Some session ->
  d_type data = Some "auth"%string ->
  truthy (JWT_SECRET env) = true ->
  let r := webSocketMessage env o ws (JsonValue data) st in
  In (Send ws (OutAuthSuccess uid ps)) (traceOf r) ->
  exists payload,
    truthy (d_token data) = true
    /\ verified env o data = Some payload
    /\ uid = sub payload
    /\ sessions_get ws (sessions (stateOf r))
       = Some (mkSession (sub payload) (user_type payload)
                 (user_name payload) true)
    /\ tokenPayload (stateOf r) = Some payload.
Proof.
  intros Hs Ht Hsecret r Hin. subst r.
  assert (Hd : devMode env = false).
  { unfold devMode. rewrite Hsecret. apply andb_false_r. }
  destruct (credentialOffered env data) eqn:Hc.
  - assert (Htok : truthy (d_token data) = true).
    { unfold credentialOffered in Hc. now apply andb_true_iff in Hc. }
    destruct (verified env o data) as [payload|] eqn:Hv.
    + destruct (roomDiffers st payload) eqn:Hr.
      * exfalso. revert Hin.
        rewrite (@webSocketMessage_auth env o ws session data st Hs Ht).
        rewrite (@handleAuth_mismatch env o ws session data st payload
                   Hc Hv Hr).
        unfold traceOf. cbn [snd]. intros [H | [H | []]]; discriminate.
      * exists payload. revert Hin.
        rewrite (@webSocketMessage_auth_credential env o ws session data st
                   payload Hs Ht Hc Hv Hr).
        unfold stateOf, traceOf.
        cbn [fst snd sessions set_sessions set_tokenPayload tokenPayload].
        intros Hin. split; [exact Htok |]. split; [reflexivity |].
        split; [| split; [apply sessions_get_set_same | reflexivity]].
        apply in_app_or in Hin. destruct Hin as [Hin | Hin].
        -- destruct Hin as [H | [H | [H | []]]]; try discriminate.
           now injection H.
        -- apply in_map_iff in Hin. destruct Hin as [w [H _]]. discriminate.
    + exfalso. revert Hin.
      rewrite (@webSocketMessage_auth env o ws session data st Hs Ht).
      rewrite (@handleAuth_invalid env o ws session data st Hc Hv).
      unfold traceOf. cbn [snd]. intros [H | [H | []]]; discriminate.
  - exfalso. revert Hin.
    rewrite (@webSocketMessage_auth env o ws session data st Hs Ht).
    rewrite (@handleAuth_required env o ws session data st Hc Hd).
    unfold traceOf. cbn [snd]. intros [H | [H | []]]; discriminate.
Qed.

Lemma configured_secret_requires_verified_token_witness :
  exists payload,
    verified productionEnv
      (world "a" (Some (jwtFor "advisor-3" "r1" "Bob" advisor)) None)
      (mkFrame (Some "auth") (Some "jwt-bob") (Some "root") (Some "advisor")
         (Some "Mallory") None None None)
    = Some payload
    /\ "advisor-3"%string = sub payload.
Proof.
  destruct (@configured_secret_requires_verified_token productionEnv
              (world "a" (Some (jwtFor "advisor-3" "r1" "Bob" advisor)) None)
              3 visitor
              (mkFrame (Some "auth") (Some "jwt-bob") (Some "root")
                 (Some "advisor") (Some "Mallory") None None None)
              roomR1 "advisor-3"%string
              [mkParticipant "client-7" client "Alice";
               mkParticipant "advisor-3" advisor "Bob";
               mkParticipant "advisor-3" advisor "Bob"]
              eq_refl eq_refl eq_refl
              ltac:(vm_compute; right; left; reflexivity))
    as [payload [_ [Hv [Hu _]]]].
  exists payload. split; assumption.
Defined.

Lemma roomDiffers_without_room st payload :
  truthy (roomId st) = false -> roomDiffers st payload = false.
Proof. unfold roomDiffers. now intros ->. Qed.

(** X6. The room claim of a token is compared with the room id only when
    the actor has one.  On an actor without room id, as after waking from
    hibernation, a verified token authenticates the connection whatever
    room it names and its claims are stored; [handleAuth] does not set the
    room id, so an [end_chat] from that connection is still answered with
    the missing-data error. *)
Theorem room_claim_unchecked_without_room_id
  (env : Env) (o o' : Oracle) (ws : WebSocket) (session : SessionData)
  (data endData : Frame) (st : ChatRoom) (payload : TokenPayload) :
  sessions_get ws (sessions st) = Some session ->
  d_type data = Some "auth"%string ->
  credentialOffered env data = true ->
  verified env o data = Some payload ->
  truthy (roomId st) = false ->
  d_type endData = Some "end_chat"%string ->
  let r := webSocketMessage env o ws (JsonValue data) st in
  (exists participants,
      In (Send ws (OutAuthSuccess (sub payload) participants)) (traceOf r))
  /\ tokenPayload (stateOf r) = Some payload
  /\ roomId (stateOf r) = roomId st
  /\ webSocketMessage env o' ws (JsonValue endData) (stateOf r)
     = (Some tt, stateOf r,
        [Send ws (OutError "Cannot end chat: missing session data")]).
Proof.
  intros Hs Ht Hc Hv Hroom Hte r. subst r.
  rewrite (@webSocketMessage_auth_credential env o ws session data st payload
             Hs Ht Hc Hv (roomDiffers_without_room st payload Hroom)).
  unfold stateOf, traceOf. cbn [fst snd].
  split; [eexists; right; left; reflexivity |].
  split; [reflexivity |]. split; [reflexivity |].
  set (bound := mkSession _ _ _ true).
  set (st' := set_sessions _ _).
  assert (Hget : sessions_get ws (sessions st') = Some bound)
    by apply sessions_get_set_same.
  rewrite (@webSocketMessage_end_chat env o' ws bound endData st' Hget
             eq_refl Hte).
  apply handleEndChat_unbound. unfold contextBound. subst st'.
  cbn [tokenPayload roomId set_sessions set_tokenPayload].
  now rewrite Hroom.
Qed.

Lemma room_claim_unchecked_without_room_id_witness :
  let woken := ChatRoom_constructor [(1, Some alice)] [] in
  let r := webSocketMessage productionEnv
             (world "a" (Some (jwtFor "client-9" "r2" "Carol" client)) None) 1
             (JsonValue (tokenFrame "jwt-for-r2")) woken in
  tokenPayload (stateOf r) = Some (mkToken "client-9" "r2" client "Carol" "7" "3")
  /\ webSocketMessage productionEnv (world "b" None None) 1
       (JsonValue (frameOf "end_chat")) (stateOf r)
     = (Some tt, stateOf r,
        [Send 1 (OutError "Cannot end chat: missing session data")]).
Proof.
  intros woken r.
  destruct (@room_claim_unchecked_without_room_id productionEnv
              (world "a" (Some (jwtFor "client-9" "r2" "Carol" client)) None)
              (world "b" None None) 1 alice (tokenFrame "jwt-for-r2")
              (frameOf "end_chat") woken
              (mkToken "client-9" "r2" client "Carol" "7" "3")
              eq_refl eq_refl eq_refl eq_refl eq_refl eq_refl)
    as [_ [H1 [_ H2]]].
  split; assumption.
Defined.

(** X7. In development mode (environment ["development"], no secret) an
    [auth] frame always succeeds and binds what the frame supplies: a
    missing or empty [userId] becomes the generated identifier, a missing
    or empty [userName] becomes ["Anonymous"], and the type is advisor
    only for [userType] exactly ["advisor"].  A token in the frame plays no
    part, and neither claims nor room id nor log change. *)
Theorem development_auth_binds_supplied_identity
  (env : Env) (o : Oracle) (ws : WebSocket) (session : SessionData)
  (data : Frame) (st : ChatRoom) :
  sessions_get ws (sessions st) = Some session ->
  d_type data = Some "auth"%string ->
  devMode env = true ->
  let r := webSocketMessage env o ws (JsonValue data) st in
  exists bound,
    sessions_get ws (sessions (stateOf r)) = Some bound
    /\ authenticated bound = true
    /\ (exists participants,
           In (Send ws (OutAuthSuccess (userId bound) participants))
             (traceOf r))
    /\ (truthy (d_userId data) = false -> userId bound = randomUUID o)
    /\ (forall uid, d_userId data = Some uid -> uid <> EmptyString ->
                    userId bound = uid)
    /\ (truthy (d_userName data) = false ->
        userName bound = "Anonymous"%string)
    /\ (forall uname, d_userName data = Some uname -> uname <> EmptyString ->
                      userName bound = uname)
    /\ (userType bound = advisor <-> d_userType data = Some "advisor"%string)
    /\ tokenPayload (stateOf r) = tokenPayload st
    /\ roomId (stateOf r) = roomId st
    /\ messages (stateOf r) = messages st.
Proof.
  intros Hs Ht Hd r. subst r.
  rewrite (@webSocketMessage_auth_development env o ws session data st
             Hs Ht Hd).
  rewrite handleAuth_bind_run. unfold stateOf, traceOf.
  cbn [fst snd sessions set_sessions tokenPayload roomId messages].
  eexists. split; [apply sessions_get_set_same |].
  cbn [authenticated userId userName userType].
  split; [reflexivity |].
  split; [eexists; right; left; reflexivity |].
  split; [| split; [| split; [| split; [| split]]]].
  - destruct (d_userId data) as [u|]; simpl; [| reflexivity].
    destruct (String.eqb_spec u ""); [reflexivity | discriminate].
  - intros uid -> Hne. simpl.
    destruct (String.eqb_spec uid ""); [contradiction | reflexivity].
  - destruct (d_userName data) as [u|]; simpl; [| reflexivity].
    destruct (String.eqb_spec u ""); [reflexivity | discriminate].
  - intros uname -> Hne. simpl.
    destruct (String.eqb_spec uname ""); [contradiction | reflexivity].
  - unfold devUserType. destruct (d_userType data) as [t|].
    + destruct (String.eqb_spec t "advisor") as [-> | Hne].
      * tauto.
      * split; [discriminate | intros [= H]; contradiction].
    + split; discriminate.
  - repeat split.
Qed.

Lemma development_auth_binds_supplied_identity_witness :
  exists bound,
    sessions_get 1
      (sessions (stateOf (webSocketMessage developmentEnv (world "g-1" None None)
                            1 (JsonValue (tokenFrame "ignored")) lobby)))
    = Some bound
    /\ userId bound = "g-1"%string
    /\ userName bound = "Anonymous"%string.
Proof.
  destruct (@development_auth_binds_supplied_identity developmentEnv
              (world "g-1" None None) 1 visitor (tokenFrame "ignored") lobby
              eq_refl eq_refl eq_refl)
    as [bound [H1 [_ [_ [H2 [_ [H3 _]]]]]]].
  exists bound. split; [exact H1 |].
  split; [now apply H2 | now apply H3].
Defined.

Lemma participantsOf_set ws fresh old l :
  sessions_get ws l = Some old ->
  authenticated fresh = true ->
  List.length (participantsOf (sessions_set ws fresh l))
  = List.length (participantsOf l) + (if authenticated old then 0 else 1).
Proof.
  intros Hget Hf. induction l as [|[k v] l IH]; [discriminate |].
  cbn [sessions_get sessions_set] in *.
  destruct (Nat.eqb_spec k ws) as [-> | Hne].
  - injection Hget as ->. unfold participantsOf. cbn [flat_map snd].
    rewrite Hf. destruct (authenticated old); cbn [app List.length]; lia.
  - unfold participantsOf in *. cbn [flat_map snd].
    rewrite !length_app, (IH Hget). lia.
Qed.

(** X8. A successful [auth] on a connection rebinds that connection and
    nothing else: the registry keeps the same connections in the same
    order and the other sessions are as before.  On a connection that was
    already authenticated the new identity replaces the old one, so the
    participant list is as long as before; on one that was not, it grows
    by one. *)
Theorem auth_success_rebinds_in_place
  (env : Env) (o : Oracle) (ws : WebSocket) (session : SessionData)
  (data : Frame) (st : ChatRoom) (uid : string) (ps : list Participant) :
  sessions_get ws (sessions st) = Some session ->
  d_type data = Some "auth"%string ->
  let r := webSocketMessage env o ws (JsonValue data) st in
  In (Send ws (OutAuthSuccess uid ps)) (traceOf r) ->
  map fst (sessions (stateOf r)) = map fst (sessions st)
  /\ (forall w, w <> ws ->
        sessions_get w (sessions (stateOf r)) = sessions_get w (sessions st))
  /\ (exists bound,
         sessions_get ws (sessions (stateOf r)) = Some bound
         /\ userId bound = uid /\ authenticated bound = true)
  /\ List.length ps
     = List.length (participantsOf (sessions st))
       + (if authenticated session then 0 else 1).
Proof.
  intros Hs Ht r Hin.
  destruct (@auth_success_inv env o ws session data st uid ps Hs Ht Hin)
    as [ut [un [Hst Hps]]].
  fold r in Hst, Hps. rewrite Hps, Hst.
  split; [| split; [| split]].
  - apply sessions_set_keys. apply in_map_iff.
    exists (ws, session). split; [reflexivity | now apply sessions_get_In].
  - intros w Hne. now apply sessions_get_set_other.
  - eexists. split; [apply sessions_get_set_same | now split].
  - now apply participantsOf_set.
Qed.

Lemma auth_success_rebinds_in_place_witness :
  let r := webSocketMessage productionEnv
             (world "a" (Some (jwtFor "advisor-3" "r1" "Bob" advisor)) None) 1
             (JsonValue (tokenFrame "jwt-bob")) roomR1 in
  map fst (sessions (stateOf r)) = [1; 2; 3]
  /\ exists bound, sessions_get 1 (sessions (stateOf r)) = Some bound
                   /\ userId bound = "advisor-3"%string
                   /\ authenticated bound = true.
Proof.
  intros r.
  destruct (@auth_success_rebinds_in_place productionEnv
              (world "a" (Some (jwtFor "advisor-3" "r1" "Bob" advisor)) None)
              1 alice (tokenFrame "jwt-bob") roomR1 "advisor-3"%string
              [mkParticipant "advisor-3" advisor "Bob";
               mkParticipant "advisor-3" advisor "Bob"]
              eq_refl eq_refl
              ltac:(vm_compute; right; left; reflexivity))
    as [H1 [_ [H2 _]]].
  split; assumption.
Defined.

(* ------------------------------------------------------------------ *)
(** ** Connections going away *)

Lemma sessions_get_delete_same ws l :
  sessions_get ws (sessions_delete ws l) = None.
Proof.
  unfold sessions_delete. induction l as [|[k v] l IH]; [reflexivity |].
  cbn [filter fst]. destruct (Nat.eqb_spec k ws) as [-> | Hne]; cbn [negb].
  - exact IH.
  - cbn [sessions_get]. apply Nat.eqb_neq in Hne. now rewrite Hne.
Qed.

Lemma sessions_get_delete_other ws w l :
  w <> ws -> sessions_get w (sessions_delete ws l) = sessions_get w l.
Proof.
  intros Hne. unfold sessions_delete.
  induction l as [|[k v] l IH]; [reflexivity |].
  cbn [filter fst sessions_get].
  destruct (Nat.eqb_spec k ws) as [-> | Hk]; cbn [negb].
  - destruct (Nat.eqb_spec ws w); [congruence | exact IH].
  - cbn [sessions_get]. now rewrite IH.
Qed.

(** X9. [webSocketClose] removes the session of the closed connection and
    leaves every other session, the claims, the room id and the log as
    they were.  If the session was authenticated, [presence offline] with
    its identity goes to every other authenticated session and to nobody
    else; if it was not authenticated, or the connection had no session,
    nothing is sent. *)
Theorem close_removes_session_and_tells_the_others
  (ws : WebSocket) (code : Z) (reason : string) (st : ChatRoom) :
  let r := webSocketClose ws code reason st in
  sessions_get ws (sessions (stateOf r)) = None
  /\ (forall w, w <> ws ->
        sessions_get w (sessions (stateOf r)) = sessions_get w (sessions st))
  /\ tokenPayload (stateOf r) = tokenPayload st
  /\ roomId (stateOf r) = roomId st
  /\ messages (stateOf r) = messages st
  /\ (forall session,
         sessions_get ws (sessions st) = Some session ->
         authenticated session = true ->
         let gone := OutPresence (userId session) (userType session)
                       (userName session) offline in
         (forall w s, w <> ws -> sessions_get w (sessions st) = Some s ->
                      authenticated s = true -> In (Send w gone) (traceOf r))
         /\ (forall e, In e (traceOf r) ->
                       exists w s, e = Send w gone /\ w <> ws
                                   /\ In (w, s) (sessions st)
                                   /\ authenticated s = true))
  /\ (forall session,
         sessions_get ws (sessions st) = Some session ->
         authenticated session = false -> traceOf r = [])
  /\ (sessions_get ws (sessions st) = None -> traceOf r = []).
Proof.
  intros r. subst r. rewrite webSocketClose_run. unfold stateOf, traceOf.
  cbn [fst snd sessions set_sessions tokenPayload roomId messages].
  split; [apply sessions_get_delete_same |].
  split; [intros w Hne; now apply sessions_get_delete_other |].
  split; [reflexivity |]. split; [reflexivity |]. split; [reflexivity |].
  split; [| split].
  - intros session Hs Ha. rewrite Hs, Ha. split.
    + intros w s Hne Hw Hsa. apply in_map_iff. exists w.
      split; [reflexivity |]. apply in_recipients. exists s.
      split; [now apply sessions_get_In | now split].
    + intros e Hin. apply in_map_iff in Hin. destruct Hin as [w [<- Hw]].
      apply in_recipients in Hw. destruct Hw as [s [Hin [Hsa Hne]]].
      now exists w, s.
  - intros session Hs Ha. now rewrite Hs, Ha.
  - now intros ->.
Qed.

Lemma close_removes_session_and_tells_the_others_witness :
  traceOf (webSocketClose 1 1001 "bye" roomR1)
  = [Send 2 (OutPresence "client-7" client "Alice" offline)]
  /\ sessions_get 1 (sessions (stateOf (webSocketClose 1 1001 "bye" roomR1)))
     = None.
Proof.
  pose proof (close_removes_session_and_tells_the_others 1 1001 "bye" roomR1)
    as [Hgone _].
  split; [reflexivity | exact Hgone].
Defined.

(** X10. [webSocketError] drops the session without telling anybody, and
    the close event that follows finds no session, so after an error the
    other participants get no [presence offline] for that connection, even
    if it was authenticated. *)
Theorem error_then_close_is_silent
  (env : Env) (ws : WebSocket) (code : Z) (reason : string) (st : ChatRoom) :
  let afterError := fst (step env st (WsError ws)) in
  snd (step env st (WsError ws)) = []
  /\ sessions_get ws (sessions afterError) = None
  /\ (forall w, w <> ws ->
        sessions_get w (sessions afterError) = sessions_get w (sessions st))
  /\ snd (step env afterError (WsClose ws code reason)) = []
  /\ sessions (fst (step env afterError (WsClose ws code reason)))
     = sessions afterError.
Proof.
  intros afterError. subst afterError. cbn [step fst snd].
  unfold webSocketError, modify, stateOf, traceOf. cbn [fst snd].
  rewrite webSocketClose_run. cbn [fst snd sessions set_sessions].
  rewrite sessions_get_delete_same.
  split; [reflexivity |]. split; [reflexivity |].
  split; [intros w Hne; now apply sessions_get_delete_other |].
  split; [reflexivity |].
  unfold sessions_delete. generalize (sessions st) as l.
  induction l as [|[k v] l IH]; [reflexivity |].
  cbn [filter fst]. destruct (negb (Nat.eqb k ws)) eqn:E; [| exact IH].
  cbn [filter fst]. rewrite E. now rewrite IH.
Qed.

(* ------------------------------------------------------------------ *)
(** ** Frames that are answered without any change *)




(* ------------------------------------------------------------------ *)
(** ** Messages that are not accepted *)

(** X12. A [message] frame from an authenticated session with no content,
    empty content or content of white space only is dropped: no reply, no
    log row, no broadcast, no change. *)
Theorem blank_message_is_dropped
  (env : Env) (o : Oracle) (ws : WebSocket) (session : SessionData)
  (data : Frame) (st : ChatRoom) :
  sessions_get ws (sessions st) = Some session ->
  authenticated session = true ->
  d_type data = Some "message"%string ->
  d_content data = None
  \/ (exists content, d_content data = Some content
                      /\ allWhiteSpace content = true) ->
  webSocketMessage env o ws (JsonValue data) st = (Some tt, st, []).
Proof.
  intros Hs Ha Ht Hblank.
  erewrite webSocketMessage_found by eassumption.
  cbn [String.eqb Ascii.eqb Bool.eqb]. rewrite Ha. cbn [negb].
  apply try_catch_returns. apply handleChatMessage_ignored.
  destruct (accepted data) eqn:E; [| reflexivity].
  apply accepted_iff in E. destruct E as [content [Hc [_ Hw]]].
  destruct Hblank as [Hnone | [content' [Hc' Hw']]]; congruence.
Qed.

Lemma blank_message_is_dropped_witness :
  webSocketMessage productionEnv (world "m" None None) 1
    (JsonValue (chatFrame "   ")) roomR1
  = (Some tt, roomR1, []).
Proof.
  apply (@blank_message_is_dropped productionEnv (world "m" None None) 1 alice
           (chatFrame "   ") roomR1 eq_refl eq_refl eq_refl).
  right. exists "   "%string. split; reflexivity.
Defined.

(** X13. When the generated id is already the id of a logged row, the
    [INSERT] throws on the primary key and the whole accept path is
    abandoned: the log is unchanged, nothing is broadcast, no sync job is
    scheduled, and the sender gets the ["Invalid message format"] error of
    the outer [catch]. *)
Theorem insert_failure_abandons_the_message
  (env : Env) (o : Oracle) (ws : WebSocket) (session : SessionData)
  (data : Frame) (content : string) (st : ChatRoom) :
  sessions_get ws (sessions st) = Some session ->
  authenticated session = true ->
  d_type data = Some "message"%string ->
  d_content data = Some content ->
  content <> EmptyString ->
  allWhiteSpace content = false ->
  idInLog (randomUUID o) (messages st) = true ->
  webSocketMessage env o ws (JsonValue data) st
  = (Some tt, st, [Send ws (OutError "Invalid message format")]).
Proof.
  intros Hs Ha Ht Hc Hne Hw Hid.
  erewrite webSocketMessage_found by eassumption.
  cbn [String.eqb Ascii.eqb Bool.eqb]. rewrite Ha. cbn [negb].
  unfold try_catch.
  now rewrite (@handleChatMessage_duplicate o ws session data st
                 (@accepted_content data content Hc Hne Hw) Hid).
Qed.

Lemma insert_failure_abandons_the_message_witness :
  let st := set_messages [storedOf hiMessage] afterAuths in
  webSocketMessage productionEnv (world "m1" None None) 2
    (JsonValue (chatFrame "again")) st
  = (Some tt, st, [Send 2 (OutError "Invalid message format")]).
Proof.
  intros st.
  exact (@insert_failure_abandons_the_message productionEnv
           (world "m1" None None) 2 bob (chatFrame "again") "again"%string st
           eq_refl eq_refl eq_refl eq_refl ltac:(discriminate)
           eq_refl eq_refl).
Defined.

(* ------------------------------------------------------------------ *)
(** ** Opening a connection *)

Lemma sessions_get_None_keys ws l :
  sessions_get ws l = None -> ~ In ws (map fst l).
Proof.
  induction l as [|[k v] l IH]; simpl; [tauto |].
  destruct (Nat.eqb_spec k ws) as [-> | Hne]; [discriminate |].
  intros H [Hk | Hin]; [contradiction | now apply IH].
Qed.

Lemma participantsOf_app l1 l2 :
  participantsOf (l1 ++ l2) = participantsOf l1 ++ participantsOf l2.
Proof. unfold participantsOf. apply flat_map_app. Qed.

(** X14. A [/websocket] request with [Upgrade: websocket] accepts the new
    socket and registers it last in the registry, unauthenticated, with
    empty user id, type client and name ["Anonymous"]; the sessions already
    there, the participant list, the claims and the log are as before.
    Without that header the answer is 426 and no socket is accepted.  In
    both cases, as for every request, the room id becomes the [room_id]
    parameter when that is present and not empty. *)
Theorem upgrade_registers_unauthenticated_session
  (request : Request) (server : WebSocket) (st : ChatRoom) :
  pathname request = "/websocket"%string ->
  let r := fetch request server st in
  let opened := mkSession "" client "Anonymous" false in
  roomId (stateOf r)
  = (if truthy (room_id request) then room_id request else roomId st)
  /\ tokenPayload (stateOf r) = tokenPayload st
  /\ messages (stateOf r) = messages st
  /\ (upgrade request = Some "websocket"%string ->
      sessions_get server (sessions st) = None ->
      fst (fst r) = Some SwitchingProtocols
      /\ sessions (stateOf r) = sessions st ++ [(server, opened)]
      /\ traceOf r = [AcceptWebSocket server; SerializeAttachment server opened]
      /\ participantsOf (sessions (stateOf r)) = participantsOf (sessions st))
  /\ (upgrade request <> Some "websocket"%string ->
      fst (fst r) = Some (TextBody 426 "Expected WebSocket")
      /\ sessions (stateOf r) = sessions st
      /\ traceOf r = []).
Proof.
  intros Hpath r opened. subst r. rewrite fetch_run. rewrite Hpath.
  cbn [String.eqb Ascii.eqb Bool.eqb].
  assert (Hup : match upgrade request with
                | Some h => (h =? "websocket")%string
                | None => false
                end = true <-> upgrade request = Some "websocket"%string).
  { destruct (upgrade request) as [h|]; [| split; discriminate].
    destruct (String.eqb_spec h "websocket") as [-> | Hne]; [tauto |].
    split; [discriminate | intros [= H]; contradiction]. }
  destruct (match upgrade request with
            | Some h => (h =? "websocket")%string
            | None => false
            end) eqn:E;
    unfold stateOf, traceOf;
    destruct (truthy (room_id request));
    cbn [fst snd sessions set_sessions set_roomId roomId tokenPayload messages];
    (split; [reflexivity |]); (split; [reflexivity |]);
    (split; [reflexivity |]); split.
  1, 3: intros _ Hfresh; fold opened;
    rewrite (@sessions_set_fresh server opened _
               (@sessions_get_None_keys server _ Hfresh));
    rewrite participantsOf_app; cbn; rewrite app_nil_r; repeat split.
  1, 2: intros H; exfalso; apply H; now apply Hup.
  1, 3: intros H; apply Hup in H; discriminate.
  1, 2: intros _; repeat split.
Qed.

Lemma upgrade_registers_unauthenticated_session_witness :
  sessions (stateOf (fetch (mkRequest "/websocket" (Some "r1")
                              (Some "websocket")) 4 roomR1))
  = sessions roomR1 ++ [(4, mkSession "" client "Anonymous" false)].
Proof.
  destruct (@upgrade_registers_unauthenticated_session
              (mkRequest "/websocket" (Some "r1") (Some "websocket")) 4 roomR1
              eq_refl)
    as [_ [_ [_ [Hup _]]]].
  exact (proj1 (proj2 (Hup eq_refl eq_refl))).
Defined.

(* ------------------------------------------------------------------ *)
(** ** Ending the chat, the successful path *)



(** X16. The timer callback closes every connection of the registry,
    authenticated or not, with code 1000, each once and in registry order,
    and empties the registry; claims, room id and log stay. *)
Theorem grace_timeout_closes_every_connection
  (env : Env) (st : ChatRoom) :
  let r := step env st Timeout in
  snd r = map (fun e => Close (fst e) 1000 "Chat session ended") (sessions st)
  /\ sessions (fst r) = []
  /\ tokenPayload (fst r) = tokenPayload st
  /\ roomId (fst r) = roomId st
  /\ messages (fst r) = messages st
  /\ (forall ws session,
         sessions_get ws (sessions st) = Some session ->
         In (Close ws 1000 "Chat session ended") (snd r)).
Proof.
  intros r. subst r. cbn [step fst snd]. rewrite endChatTimeout_run.
  unfold stateOf, traceOf. cbn [fst snd sessions set_sessions].
  repeat (split; [reflexivity |]).
  intros ws session Hs. apply in_map_iff. exists (ws, session).
  split; [reflexivity | now apply sessions_get_In].
Qed.

(* ------------------------------------------------------------------ *)
(** ** The sync job and the log *)

(** X17. When the room has stored claims and a room id, an accepted
    message schedules exactly one sync job, after the log row and the
    broadcast.  The job carries the id, text and timestamp of the logged
    row and the sender's type, with the room id as reading id; the client
    and advisor ids are those of the stored claims, that is of whoever
    authenticated last with a credential, not necessarily the sender.
    Without claims or without room id no job is scheduled. *)
Theorem sync_job_carries_the_logged_row
  (env : Env) (o : Oracle) (ws : WebSocket) (session : SessionData)
  (data : Frame) (content : string) (st : ChatRoom) :
  sessions_get ws (sessions st) = Some session ->
  authenticated session = true ->
  d_type data = Some "message"%string ->
  d_content data = Some content ->
  content <> EmptyString ->
  allWhiteSpace content = false ->
  idInLog (randomUUID o) (messages st) = false ->
  let r := webSocketMessage env o ws (JsonValue data) st in
  exists row sends,
    messages (stateOf r) = messages st ++ [row]
    /\ (forall e, In e sends -> exists w m, e = Send w (OutMessage m))
    /\ (forall claims rid,
           tokenPayload st = Some claims ->
           roomId st = Some rid -> rid <> EmptyString ->
           traceOf r
           = SqlInsert row :: sends
             ++ [WaitUntilSync
                   (mkSync rid (client_id claims) (advisor_id claims)
                      (userType session) (sm_content row) (sm_id row)
                      (sm_timestamp row))])
    /\ (tokenPayload st = None \/ truthy (roomId st) = false ->
        traceOf r = SqlInsert row :: sends).
Proof.
  intros Hs Ha Ht Hc Hne Hw Hid r. subst r.
  rewrite (@webSocketMessage_accepts env o ws session data st Hs Ha Ht
             (@accepted_content data content Hc Hne Hw) Hid).
  set (m := chatMessageOf o session data).
  unfold stateOf, traceOf. cbn [fst snd messages set_messages].
  exists (storedOf m),
         (map (fun w => Send w (OutMessage m)) (recipients (sessions st) None)).
  split; [reflexivity |]. split; [| split].
  - intros e Hin. apply in_map_iff in Hin. destruct Hin as [w [<- _]].
    now exists w, m.
  - intros claims rid Htp Hrid Hrne. unfold syncJobs. rewrite Htp, Hrid.
    cbn [truthy orElse]. apply String.eqb_neq in Hrne. rewrite Hrne.
    reflexivity.
  - intros Hunbound. unfold syncJobs.
    destruct Hunbound as [-> | ->]; [| destruct (tokenPayload st)];
      now rewrite app_nil_r.
Qed.

Lemma sync_job_carries_the_logged_row_witness :
  exists row sends,
    traceOf (webSocketMessage productionEnv (world "m1" None None) 2
               (JsonValue (chatFrame "hi")) roomR1)
    = SqlInsert row :: sends
      ++ [WaitUntilSync
            (mkSync "r1" "7" "3" advisor (sm_content row) (sm_id row)
               (sm_timestamp row))].
Proof.
  destruct (@sync_job_carries_the_logged_row productionEnv
              (world "m1" None None) 2 bob (chatFrame "hi") "hi"%string roomR1
              eq_refl eq_refl eq_refl eq_refl ltac:(discriminate)
              eq_refl eq_refl)
    as [row [sends [_ [_ [Hjob _]]]]].
  exists row, sends.
  exact (Hjob aliceClaims "r1"%string eq_refl eq_refl ltac:(discriminate)).
Defined.

Lemma insertedRows_app t1 t2 :
  insertedRows (t1 ++ t2) = insertedRows t1 ++ insertedRows t2.
Proof. unfold insertedRows. apply flat_map_app. Qed.

Lemma insertedRows_none t :
  (forall row, ~ In (SqlInsert row) t) -> insertedRows t = [].
Proof.
  induction t as [|e t IH]; [reflexivity |].
  intros H. cbn [insertedRows flat_map].
  destruct e; cbn [app];
    try (apply IH; intros row Hin; apply (H row); now right).
  exfalso. apply (H row). now left.
Qed.

Lemma insertedRows_sends ws (ps : list Outbound) :
  insertedRows (map (fun p => Send ws p) ps) = [].
Proof.
  apply insertedRows_none. intros row Hin. apply in_map_iff in Hin.
  destruct Hin as [p [H _]]. discriminate.
Qed.

Lemma idInLog_false_iff id rows :
  idInLog id rows = false <-> ~ In id (map sm_id rows).
Proof.
  unfold idInLog. induction rows as [|r rows IH]; simpl; [tauto |].
  rewrite orb_false_iff, IH.
  destruct (String.eqb_spec (sm_id r) id); split; intuition congruence.
Qed.

(** The log and the record of outside calls of one event agree. *)
Lemma step_log env st ev :
  messages (fst (step env st ev))
  = messages st ++ insertedRows (snd (step env st ev))
  /\ (insertedRows (snd (step env st ev)) = []
      \/ exists row, insertedRows (snd (step env st ev)) = [row]
                     /\ ~ In (sm_id row) (map sm_id (messages st))).
Proof.
  assert (Hquiet : forall (r : option unit * ChatRoom * list Effect),
             messages (stateOf r) = messages st ->
             (forall row, ~ In (SqlInsert row) (traceOf r)) ->
             messages (stateOf r) = messages st ++ insertedRows (traceOf r)
             /\ (insertedRows (traceOf r) = []
                 \/ exists row, insertedRows (traceOf r) = [row]
                                /\ ~ In (sm_id row) (map sm_id (messages st)))).
  { intros r Hm Hno. rewrite (insertedRows_none _ Hno), app_nil_r.
    split; [exact Hm | now left]. }
  destruct ev as [request server | ws message o | ws code reason | ws |];
    cbn [step fst snd].
  - unfold stateOf, traceOf. rewrite fetch_run.
    repeat match goal with
           | |- context [if ?b then _ else _] => destruct b
           end; cbn [fst snd messages set_sessions set_roomId insertedRows
                     flat_map app];
      rewrite app_nil_r; split; (reflexivity || now left).
  - apply webSocketMessage_cases.
    + intros m. apply Hquiet; [reflexivity |].
      intros row [H | []]. discriminate.
    + apply Hquiet; [reflexivity | intros row []].
    + apply Hquiet; [reflexivity |]. intros row [H | []]. discriminate.
    + intros session data _ _ _.
      destruct (handleAuth_returns env o ws session data st) as [st' [t E]].
      unfold try_catch. rewrite E. rewrite <- E. clear E st' t.
      apply handleAuth_cases.
      * intros m code reason. apply Hquiet; [reflexivity |].
        intros row [H | [H | []]]; discriminate.
      * intros payload _ _ _. apply Hquiet;
          rewrite handleAuth_bind_run; [reflexivity |].
        unfold traceOf. cbn [snd]. intros row Hin.
        apply in_app_or in Hin. destruct Hin as [Hin | Hin].
        -- destruct Hin as [H | [H | [H | []]]]; discriminate.
        -- apply in_map_iff in Hin. destruct Hin as [w [H _]]. discriminate.
      * intros _ _. apply Hquiet;
          rewrite handleAuth_bind_run; [reflexivity |].
        unfold traceOf. cbn [snd]. intros row Hin.
        apply in_app_or in Hin. destruct Hin as [Hin | Hin].
        -- destruct Hin as [H | [H | [H | []]]]; discriminate.
        -- apply in_map_iff in Hin. destruct Hin as [w [H _]]. discriminate.
    + intros session data _ _ _ _. unfold try_catch.
      destruct (accepted data) eqn:Hacc.
      * destruct (idInLog (randomUUID o) (messages st)) eqn:Hid.
        -- rewrite handleChatMessage_duplicate by assumption.
           apply Hquiet; [reflexivity |].
           intros row [H | []]. discriminate.
        -- rewrite handleChatMessage_run by assumption.
           unfold stateOf, traceOf. cbn [fst snd messages set_messages].
           assert (Hrest : insertedRows
                             (map (fun w => Send w
                                     (OutMessage (chatMessageOf o session data)))
                                (recipients (sessions st) None)
                              ++ syncJobs st (chatMessageOf o session data))
                           = []).
           { apply insertedRows_none. intros row Hin.
             apply in_app_or in Hin. destruct Hin as [Hin | Hin].
             - apply in_map_iff in Hin. destruct Hin as [w [H _]].
               discriminate.
             - unfold syncJobs in Hin.
               destruct (tokenPayload st); [destruct (truthy (roomId st)) |];
                 cbn in Hin; try contradiction.
               destruct Hin as [H | []]. discriminate. }
           cbn [insertedRows flat_map]. fold (insertedRows
             (map (fun w => Send w (OutMessage (chatMessageOf o session data)))
                (recipients (sessions st) None)
              ++ syncJobs st (chatMessageOf o session data))).
           rewrite Hrest. cbn [app]. split; [reflexivity |].
           right. eexists. split; [reflexivity |].
           now apply idInLog_false_iff.
      * rewrite handleChatMessage_ignored by assumption.
        apply Hquiet; [reflexivity | intros row []].
    + intros session data _ _ _ _. unfold try_catch.
      rewrite handleTypingIndicator_run. apply Hquiet; [reflexivity |].
      unfold traceOf. cbn [snd]. intros row Hin.
      apply in_map_iff in Hin. destruct Hin as [w [H _]]. discriminate.
    + intros session data _ _ _ _. unfold try_catch.
      destruct (contextBound st) eqn:Hb.
      * destruct (endReadingResult o) as [result|] eqn:Hr.
        -- erewrite handleEndChat_resolved by eassumption.
           apply Hquiet; [reflexivity |].
           unfold traceOf. cbn [snd]. intros row [H | Hin]; [discriminate |].
           apply in_app_or in Hin. destruct Hin as [Hin | Hin].
           ++ apply in_map_iff in Hin. destruct Hin as [w [H _]].
              discriminate.
           ++ destruct Hin as [H | [H | []]]; discriminate.
        -- rewrite handleEndChat_rejected by assumption.
           apply Hquiet; [reflexivity |].
           intros row [H | [H | []]]; discriminate.
      * rewrite handleEndChat_unbound by assumption.
        apply Hquiet; [reflexivity |]. intros row [H | []]. discriminate.
  - rewrite webSocketClose_run. apply Hquiet; [reflexivity |].
    unfold traceOf. cbn [snd]. intros row Hin.
    destruct (sessions_get ws (sessions st)) as [session|];
      [destruct (authenticated session) |]; try contradiction.
    apply in_map_iff in Hin. destruct Hin as [w [H _]]. discriminate.
  - apply (Hquiet (webSocketError ws st)); [reflexivity | intros row []].
  - rewrite endChatTimeout_run. apply Hquiet; [reflexivity |].
    unfold traceOf. cbn [snd]. intros row Hin.
    apply in_map_iff in Hin. destruct Hin as [e [H _]]. discriminate.
Qed.

(** X18. The log only grows, by the rows of the [INSERT]s the actor makes:
    after any event the log is the old log followed by the rows inserted
    during the event, of which there is at most one, with an id no logged
    row has.  Hence, through any sequence of events, the old log stays a
    prefix of the new one and ids stay pairwise distinct. *)
Theorem log_is_append_only_with_distinct_ids
  (env : Env) (st : ChatRoom) (evs : list Event) :
  (forall ev,
      messages (fst (step env st ev))
      = messages st ++ insertedRows (snd (step env st ev))
      /\ List.length (insertedRows (snd (step env st ev))) <= 1)
  /\ (exists added, messages (run env st evs) = messages st ++ added)
  /\ (NoDup (map sm_id (messages st)) ->
      NoDup (map sm_id (messages (run env st evs)))).
Proof.
  split; [| split].
  - intros ev. destruct (step_log env st ev) as [H1 [H2 | [row [H2 _]]]];
      rewrite H2 in *; split; try exact H1; cbn; lia.
  - revert st. induction evs as [|ev evs IH]; intros st.
    + exists []. now rewrite app_nil_r.
    + cbn [run]. destruct (IH (fst (step env st ev))) as [added Hadd].
      destruct (step_log env st ev) as [H1 _].
      exists (insertedRows (snd (step env st ev)) ++ added).
      rewrite Hadd, H1. now rewrite app_assoc.
  - revert st. induction evs as [|ev evs IH]; intros st Hnd; [exact Hnd |].
    cbn [run]. apply IH.
    destruct (step_log env st ev) as [H1 [H2 | [row [H2 Hfresh]]]];
      rewrite H1, H2.
    + now rewrite app_nil_r.
    + rewrite map_app. cbn [map]. apply NoDup_app.
      * exact Hnd.
      * constructor; [intros [] | constructor].
      * intros id Hin Hin'. destruct Hin' as [<- | []]. contradiction.
Qed.

Lemma log_is_append_only_with_distinct_ids_witness :
  NoDup (map sm_id
           (messages
              (run productionEnv afterAuths
                 [WsMessage 1 (JsonValue (chatFrame "hi")) (world "m1" None None);
                  WsMessage 2 (JsonValue (chatFrame "yo")) (world "m1" None None);
                  WsMessage 2 (JsonValue (chatFrame "yo")) (world "m2" None None)]))).
Proof.
  apply (proj2 (proj2 (log_is_append_only_with_distinct_ids productionEnv
                         afterAuths _))).
  constructor.
Defined.

(* ------------------------------------------------------------------ *)
(** ** How a session comes to be authenticated *)

(** X19. The [authenticated] flag is set by [handleAuth] alone.  If after
    an event a connection has an authenticated session, then either the
    connection had that same session before the event, or the event is an
    [auth] frame on that connection which was answered with
    [auth_success] for the session's user id.  No other frame, no request,
    no close, error or timer authenticates or re-identifies a session. *)
Theorem only_auth_success_authenticates
  (env : Env) (st : ChatRoom) (ev : Event) (ws : WebSocket)
  (after : SessionData) :
  sessions_get ws (sessions (fst (step env st ev))) = Some after ->
  authenticated after = true ->
  sessions_get ws (sessions st) = Some after
  \/ exists data o participants,
       ev = WsMessage ws (JsonValue data) o
       /\ d_type data = Some "auth"%string
       /\ In (Send ws (OutAuthSuccess (userId after) participants))
            (snd (step env st ev)).
Proof.
  destruct ev as [request server | ws' message o | ws' code reason | ws' |];
    cbn [step fst snd].
  - unfold stateOf. rewrite fetch_run. intros Hget Ha. left. revert Hget.
    repeat match goal with
           | |- context [if ?b then _ else _] => destruct b
           end; cbn [fst snd sessions set_sessions set_roomId]; try tauto.
    all: destruct (Nat.eq_dec ws server) as [-> | Hne];
      [ rewrite sessions_get_set_same; intros [= <-]; discriminate
      | now rewrite sessions_get_set_other ].
  - set (P := fun r : option unit * ChatRoom * list Effect =>
                sessions_get ws (sessions (stateOf r)) = Some after ->
                authenticated after = true ->
                sessions_get ws (sessions st) = Some after
                \/ exists data o' participants,
                     WsMessage ws' message o = WsMessage ws (JsonValue data) o'
                     /\ d_type data = Some "auth"%string
                     /\ In (Send ws (OutAuthSuccess (userId after) participants))
                          (traceOf r)).
    change (P (webSocketMessage env o ws' message st)).
    assert (Hsame : forall t, P (Some tt, st, t)).
    { intros t Hget _. now left. }
    apply webSocketMessage_cases; try (intros; apply Hsame).
    + intros session data -> Hs Ht.
      destruct (handleAuth_returns env o ws' session data st) as [st' [t E]].
      unfold try_catch. rewrite E. rewrite <- E. clear E st' t.
      assert (Hbind : forall uid ut un st0,
                 sessions st0 = sessions st ->
                 P (handleAuth_bind ws' uid ut un st0)).
      { intros uid ut un st0 Hst0. unfold P. rewrite handleAuth_bind_run.
        unfold stateOf, traceOf. cbn [fst snd sessions set_sessions].
        rewrite Hst0. intros Hget Ha.
        destruct (Nat.eq_dec ws ws') as [-> | Hne].
        - rewrite sessions_get_set_same in Hget. injection Hget as <-.
          right. exists data, o. eexists.
          split; [reflexivity |]. split; [exact Ht |].
          right. left. reflexivity.
        - left. now rewrite sessions_get_set_other in Hget. }
      apply handleAuth_cases.
      * intros m code reason. apply Hsame.
      * intros payload _ _ _. now apply Hbind.
      * intros _ _. now apply Hbind.
    + intros session data _ _ _ _. unfold try_catch.
      destruct (accepted data) eqn:Hacc.
      * destruct (idInLog (randomUUID o) (messages st)) eqn:Hid.
        -- rewrite handleChatMessage_duplicate by assumption. apply Hsame.
        -- rewrite handleChatMessage_run by assumption.
           intros Hget _. now left.
      * rewrite handleChatMessage_ignored by assumption. apply Hsame.
    + intros session data _ _ _ _. unfold try_catch.
      rewrite handleTypingIndicator_run. apply Hsame.
    + intros session data _ _ _ _. unfold try_catch.
      destruct (handleEndChat_returns o ws' session data st) as [t E].
      rewrite E. apply Hsame.
  - unfold stateOf. rewrite webSocketClose_run.
    cbn [fst snd sessions set_sessions]. intros Hget _. left.
    destruct (Nat.eq_dec ws ws') as [-> | Hne].
    + now rewrite sessions_get_delete_same in Hget.
    + now rewrite sessions_get_delete_other in Hget.
  - cbn. intros Hget _. left.
    destruct (Nat.eq_dec ws ws') as [-> | Hne].
    + now rewrite sessions_get_delete_same in Hget.
    + now rewrite sessions_get_delete_other in Hget.
  - unfold stateOf. rewrite endChatTimeout_run. cbn. discriminate.
Qed.

Lemma only_auth_success_authenticates_witness :
  sessions_get 3 (sessions roomR1) = Some bob
  \/ exists data o participants,
       WsMessage 3 (JsonValue (tokenFrame "jwt-bob"))
         (world "a" (Some (jwtFor "advisor-3" "r1" "Bob" advisor)) None)
       = WsMessage 3 (JsonValue data) o
       /\ d_type data = Some "auth"%string
       /\ In (Send 3 (OutAuthSuccess (userId bob) participants))
            (snd (step productionEnv roomR1
                    (WsMessage 3 (JsonValue (tokenFrame "jwt-bob"))
                       (world "a"
                          (Some (jwtFor "advisor-3" "r1" "Bob" advisor))
                          None)))).
Proof.
  apply (@only_auth_success_authenticates productionEnv roomR1
           (WsMessage 3 (JsonValue (tokenFrame "jwt-bob"))
              (world "a" (Some (jwtFor "advisor-3" "r1" "Bob" advisor)) None))
           3 bob eq_refl eq_refl).
Defined.

(* ------------------------------------------------------------------ *)
(** ** The worker's routes *)

Lemma stripPrefix_app prefix s :
  stripPrefix prefix (prefix ++ s)%string = Some s.
Proof.
  induction prefix as [|a prefix IH]; [now destruct s |].
  cbn. now rewrite Ascii.eqb_refl.
Qed.

Lemma stripPrefix_Some prefix s tail :
  stripPrefix prefix s = Some tail -> s = (prefix ++ tail)%string.
Proof.
  revert s. induction prefix as [|a prefix IH]; intros s.
  - destruct s; cbn; now intros [= ->].
  - destruct s as [|b s]; cbn; [discriminate |].
    destruct (Ascii.eqb_spec a b) as [-> | _]; [| discriminate].
    intros H. now rewrite (IH s H).
Qed.

Lemma segment_spec s :
  s = (fst (segment s) ++ snd (segment s))%string
  /\ occurs "/"%char (fst (segment s)) = false.
Proof.
  induction s as [|c s [IH1 IH2]]; [now split |].
  cbn [segment]. destruct (Ascii.eqb_spec c "/"%char) as [-> | Hne].
  - now split.
  - destruct (segment s) as [seg rest]. cbn [fst snd] in *. split.
    + cbn. now rewrite <- IH1.
    + cbn. apply Ascii.eqb_neq in Hne. now rewrite Hne.
Qed.

Lemma segment_until_slash seg rest :
  occurs "/"%char seg = false ->
  rest = EmptyString \/ (exists rest', rest = String "/"%char rest') ->
  segment (seg ++ rest)%string = (seg, rest).
Proof.
  intros Hseg Hrest. induction seg as [|c seg IH].
  - cbn. destruct Hrest as [-> | [rest' ->]]; reflexivity.
  - cbn in Hseg. apply orb_false_iff in Hseg. destruct Hseg as [Hc Hseg].
    cbn. rewrite Hc. now rewrite (IH Hseg).
Qed.

Lemma matchChat_iff pathname r :
  matchChat pathname = Some r <->
  pathname = ("/chat/" ++ r)%string /\ r <> EmptyString
  /\ occurs "/"%char r = false.
Proof.
  unfold matchChat. split.
  - destruct (stripPrefix "/chat/" pathname) as [tail|] eqn:Hp;
      [| discriminate].
    apply stripPrefix_Some in Hp.
    destruct (segment_spec tail) as [Htail Hseg].
    destruct (segment tail) as [seg rest]. cbn [fst snd] in *.
    destruct (String.eqb_spec seg "") as [-> | Hne]; [discriminate |].
    destruct (String.eqb_spec rest "") as [-> | _]; [| discriminate].
    cbn. intros [= <-]. subst tail pathname.
    assert (E : (seg ++ "")%string = seg)
      by (clear; induction seg; cbn; congruence).
    rewrite E. now repeat split.
  - intros [-> [Hne Hr]]. rewrite stripPrefix_app.
    assert (E : segment r = (r, EmptyString)).
    { assert (E' : (r ++ "")%string = r)
        by (clear; induction r; cbn; congruence).
      rewrite <- E' at 1. apply segment_until_slash; [exact Hr | now left]. }
    rewrite E. apply String.eqb_neq in Hne. now rewrite Hne.
Qed.

Lemma matchHistory_iff pathname r :
  matchHistory pathname = Some r <->
  pathname = ("/api/chat/" ++ r ++ "/history")%string /\ r <> EmptyString
  /\ occurs "/"%char r = false.
Proof.
  unfold matchHistory. split.
  - destruct (stripPrefix "/api/chat/" pathname) as [tail|] eqn:Hp;
      [| discriminate].
    apply stripPrefix_Some in Hp.
    destruct (segment_spec tail) as [Htail Hseg].
    destruct (segment tail) as [seg rest]. cbn [fst snd] in *.
    destruct (String.eqb_spec seg "") as [-> | Hne]; [discriminate |].
    destruct (String.eqb_spec rest "/history") as [-> | _]; [| discriminate].
    cbn. intros [= <-]. subst tail pathname. now repeat split.
  - intros [-> [Hne Hr]]. rewrite stripPrefix_app.
    rewrite (@segment_until_slash r "/history" Hr); [| right; now eexists].
    apply String.eqb_neq in Hne. now rewrite Hne.
Qed.

Lemma fetch_roomId request server st :
  roomId (stateOf (fetch request server st))
  = if truthy (room_id request) then room_id request else roomId st.
Proof.
  unfold stateOf. rewrite fetch_run.
  repeat match goal with
         | |- context [if ?b then _ else _] => destruct b eqn:?
         end; reflexivity.
Qed.

Lemma fetch_returns request server st :
  exists response st' t, fetch request server st = (Some response, st', t).
Proof.
  rewrite fetch_run.
  repeat match goal with
         | |- context [if ?b then _ else _] => destruct b
         end; eauto.
Qed.

Lemma setRoom_same name st rooms : setRoom name st rooms name = st.
Proof. unfold setRoom. now rewrite String.eqb_refl. Qed.

Lemma setRoom_other name n st rooms :
  n <> name -> setRoom name st rooms n = rooms n.
Proof. unfold setRoom. intros H. apply String.eqb_neq in H. now rewrite H. Qed.

(** The worker forwarding a [/chat/{r}] request. *)
Lemma workerFetch_chat method upgrade r server rooms :
  method <> "OPTIONS"%string -> r <> EmptyString ->
  occurs "/"%char r = false ->
  let inner := fetch (mkRequest "/websocket" (Some r) upgrade) server
                 (rooms r) in
  exists response,
    fst (fst inner) = Some response
    /\ workerFetch (mkWorkerRequest method ("/chat/" ++ r) upgrade) server rooms
       = (Some (FromRoom response), setRoom r (stateOf inner) rooms,
          traceOf inner).
Proof.
  intros Hm Hne Hr inner. subst inner.
  destruct (fetch_returns (mkRequest "/websocket" (Some r) upgrade) server
              (rooms r)) as [response [st' [t E]]].
  exists response. rewrite E. split; [reflexivity |].
  unfold workerFetch. cbn [wr_method wr_pathname wr_upgrade].
  apply String.eqb_neq in Hm. rewrite Hm.
  change (("/chat/" ++ r)%string =? "/health")%string with false.
  cbn match.
  rewrite (proj2 (matchChat_iff ("/chat/" ++ r) r)) by now repeat split.
  apply String.eqb_neq in Hne. rewrite Hne.
  unfold stubFetch. now rewrite E.
Qed.

(** X20. A request for [/chat/{r}], whatever its method other than
    [OPTIONS], is handed to the actor named [r] as a [/websocket] request
    with [room_id = r]; the actor's answer is returned as it is.  After it
    that actor's room id is [r] and every other actor is untouched.  With
    [Upgrade: websocket] the answer is the switch to the WebSocket
    protocol and the new socket is registered, unauthenticated, in that
    room; without it the answer is the room's 426. *)
Theorem chat_route_binds_actor_to_its_name
  (method : string) (header : option string) (r : string)
  (server : WebSocket) (rooms : Rooms) :
  method <> "OPTIONS"%string -> r <> EmptyString ->
  occurs "/"%char r = false ->
  let res := workerFetch (mkWorkerRequest method ("/chat/" ++ r) header)
               server rooms in
  let rooms' := snd (fst res) in
  roomId (rooms' r) = Some r
  /\ (forall n, n <> r -> rooms' n = rooms n)
  /\ tokenPayload (rooms' r) = tokenPayload (rooms r)
  /\ messages (rooms' r) = messages (rooms r)
  /\ (header = Some "websocket"%string ->
      sessions_get server (sessions (rooms r)) = None ->
      fst (fst res) = Some (FromRoom SwitchingProtocols)
      /\ sessions (rooms' r)
         = sessions (rooms r) ++ [(server, mkSession "" client "Anonymous" false)])
  /\ (header <> Some "websocket"%string ->
      fst (fst res) = Some (FromRoom (TextBody 426 "Expected WebSocket"))
      /\ sessions (rooms' r) = sessions (rooms r)
      /\ snd res = []).
Proof.
  intros Hm Hne Hr res rooms'. subst rooms' res.
  destruct (@workerFetch_chat method header r server rooms Hm Hne Hr)
    as [response [Hresp ->]].
  cbn [fst snd]. rewrite setRoom_same.
  destruct (@upgrade_registers_unauthenticated_session
              (mkRequest "/websocket" (Some r) header) server (rooms r)
              eq_refl) as [Hroom [Htp [Hmsg [Hup Hno]]]].
  cbn [room_id upgrade] in *.
  split.
  { rewrite Hroom. cbn [truthy]. apply String.eqb_neq in Hne.
    now rewrite Hne. }
  split; [intros n Hn; now apply setRoom_other |].
  split; [exact Htp |]. split; [exact Hmsg |]. split.
  - intros Hu Hfresh. destruct (Hup Hu Hfresh) as [H1 [H2 _]].
    split; [| exact H2]. rewrite H1 in Hresp. now injection Hresp as <-.
  - intros Hu. destruct (Hno Hu) as [H1 [H2 H3]].
    split; [| now split]. rewrite H1 in Hresp. now injection Hresp as <-.
Qed.

Lemma chat_route_binds_actor_to_its_name_witness :
  roomId (snd (fst (workerFetch
                      (mkWorkerRequest "GET" "/chat/r1" (Some "websocket"))
                      1 freshRooms)) "r1"%string)
  = Some "r1"%string.
Proof.
  exact (proj1 (@chat_route_binds_actor_to_its_name "GET" (Some "websocket")
                  "r1" 1 freshRooms ltac:(discriminate) ltac:(discriminate)
                  eq_refl)).
Defined.

(** X21. What the worker answers itself it answers without touching any
    actor: such a response always carries the CORS headers and its status
    is 200 ([OPTIONS] on any path, and [/health]) or 404; the 400 for a
    missing room id can not occur, since the route only matches a
    non-empty name.  An [OPTIONS] request never reaches a room, whatever
    its path. *)
Theorem worker_answers_leave_rooms_alone
  (request : WorkerRequest) (server : WebSocket) (rooms : Rooms) :
  let res := workerFetch request server rooms in
  (forall status body headers,
      fst (fst res) = Some (Direct status body headers) ->
      headers = corsHeaders
      /\ (status = 200%Z \/ status = 404%Z)
      /\ snd (fst res) = rooms
      /\ snd res = [])
  /\ (wr_method request = "OPTIONS"%string ->
      res = (Some (Direct 200 None corsHeaders), rooms, []))
  /\ (wr_method request <> "OPTIONS"%string ->
      wr_pathname request = "/health"%string ->
      res = (Some (Direct 200 (Some "OK"%string) corsHeaders), rooms, [])).
Proof.
  intros res. subst res. unfold workerFetch. split; [| split].
  - intros status body headers.
    destruct (wr_method request =? "OPTIONS")%string;
      [cbn; intros [= <- <- <-]; now auto |].
    destruct (wr_pathname request =? "/health")%string;
      [cbn; intros [= <- <- <-]; now auto |].
    destruct (matchChat (wr_pathname request)) as [roomId|] eqn:Hc.
    + apply matchChat_iff in Hc. destruct Hc as [_ [Hne _]].
      apply String.eqb_neq in Hne. rewrite Hne.
      destruct (stubFetch _ _ _ _) as [[[response|] rooms'] t]; discriminate.
    + destruct (matchHistory (wr_pathname request)) as [roomId|].
      * destruct (wr_method request =? "GET")%string.
        -- destruct (stubFetch _ _ _ _) as [[[response|] rooms'] t];
             discriminate.
        -- cbn. intros [= <- <- <-]. now auto.
      * cbn. intros [= <- <- <-]. now auto.
  - intros ->. reflexivity.
  - intros Hm ->. apply String.eqb_neq in Hm. now rewrite Hm.
Qed.

Lemma worker_answers_leave_rooms_alone_witness :
  workerFetch (mkWorkerRequest "OPTIONS" "/chat/r1" (Some "websocket")) 1
    freshRooms
  = (Some (Direct 200 None corsHeaders), freshRooms, []).
Proof.
  exact (proj1 (proj2 (worker_answers_leave_rooms_alone
                         (mkWorkerRequest "OPTIONS" "/chat/r1"
                            (Some "websocket")) 1 freshRooms))
           eq_refl).
Defined.

(** X22. [GET /api/chat/{r}/history] returns, with status 200 and under
    the JSON content type and the CORS headers, the (at most) 100 most
    recent rows of the actor named [r], oldest first.  It is a read: no
    actor changes, the room id of [r] included, and there is no outside
    call.  The same path with another method than [GET] or [OPTIONS] is
    not found. *)
Theorem history_route_reads_without_effect
  (method : string) (header : option string) (r : string)
  (server : WebSocket) (rooms : Rooms) :
  r <> EmptyString -> occurs "/"%char r = false ->
  let request :=
    mkWorkerRequest method ("/api/chat/" ++ r ++ "/history") header in
  let res := workerFetch request server rooms in
  (method = "GET"%string ->
   fst (fst res)
   = Some (Rewrapped 200 (JsonBody (recentRows 100 (messages (rooms r))))
             (("Content-Type", "application/json")%string :: corsHeaders))
   /\ (forall n, snd (fst res) n = rooms n)
   /\ snd res = [])
  /\ (method <> "GET"%string -> method <> "OPTIONS"%string ->
      res = (Some notFound, rooms, [])).
Proof.
  intros Hne Hr request res. subst res request.
  unfold workerFetch. cbn [wr_method wr_pathname].
  change (("/api/chat/" ++ r ++ "/history")%string =? "/health")%string
    with false.
  change (matchChat ("/api/chat/" ++ r ++ "/history")%string)
    with (@None string).
  rewrite (proj2 (matchHistory_iff ("/api/chat/" ++ r ++ "/history") r))
    by now repeat split.
  split.
  - intros ->. cbn [String.eqb Ascii.eqb Bool.eqb].
    unfold stubFetch. rewrite fetch_run. cbn.
    split; [reflexivity |]. split; [| reflexivity].
    intros n. unfold setRoom.
    destruct (String.eqb_spec n r) as [-> | _]; reflexivity.
  - intros Hget Hopt. apply String.eqb_neq in Hget, Hopt.
    now rewrite Hget, Hopt.
Qed.

Lemma history_route_reads_without_effect_witness :
  fst (fst (workerFetch (mkWorkerRequest "GET" "/api/chat/r1/history" None) 1
              (setRoom "r1" (set_messages [storedOf hiMessage] afterAuths)
                 freshRooms)))
  = Some (Rewrapped 200 (JsonBody [storedOf hiMessage])
            (("Content-Type", "application/json")%string :: corsHeaders)).
Proof.
  exact (proj1 (proj1 (@history_route_reads_without_effect "GET" None "r1" 1
                         (setRoom "r1"
                            (set_messages [storedOf hiMessage] afterAuths)
                            freshRooms)
                         ltac:(discriminate) eq_refl)
                  eq_refl)).
Defined.

(** Socket events and the timer leave the room id alone. *)
Lemma step_keeps_roomId env st ev :
  (forall request server, ev <> Fetch request server) ->
  roomId (fst (step env st ev)) = roomId st.
Proof.
  destruct ev as [request server | ws message o | ws code reason | ws |];
    cbn [step fst]; intros Hev.
  - now destruct (Hev request server).
  - apply webSocketMessage_cases; try reflexivity.
    + intros session data _ _ _.
      destruct (handleAuth_returns env o ws session data st) as [st' [t E]].
      unfold try_catch. rewrite E. rewrite <- E. clear E st' t.
      apply handleAuth_cases; intros; now rewrite ?handleAuth_bind_run.
    + intros session data _ _ _ _. unfold try_catch.
      destruct (accepted data) eqn:Hacc.
      * destruct (idInLog (randomUUID o) (messages st)) eqn:Hid.
        -- now rewrite handleChatMessage_duplicate by assumption.
        -- now rewrite handleChatMessage_run by assumption.
      * now rewrite handleChatMessage_ignored by assumption.
    + intros session data _ _ _ _. unfold try_catch.
      now rewrite handleTypingIndicator_run.
    + intros session data _ _ _ _. unfold try_catch.
      destruct (handleEndChat_returns o ws session data st) as [t E].
      now rewrite E.
  - unfold stateOf. now rewrite webSocketClose_run.
  - reflexivity.
  - unfold stateOf. now rewrite endChatTimeout_run.
Qed.

Lemma workerFetch_roomId request server rooms name :
  roomId (rooms name) = None
  \/ (roomId (rooms name) = Some name /\ name <> EmptyString) ->
  let rooms' := snd (fst (workerFetch request server rooms)) in
  roomId (rooms' name) = None
  \/ (roomId (rooms' name) = Some name /\ name <> EmptyString).
Proof.
  intros Hinv rooms'. subst rooms'. unfold workerFetch.
  destruct (wr_method request =? "OPTIONS")%string; [exact Hinv |].
  destruct (wr_pathname request =? "/health")%string; [exact Hinv |].
  assert (Hstub : forall target req,
             room_id req = None
             \/ (room_id req = Some target /\ target <> EmptyString) ->
             let rooms' := snd (fst (stubFetch target req server rooms)) in
             roomId (rooms' name) = None
             \/ (roomId (rooms' name) = Some name /\ name <> EmptyString)).
  { intros target req Hreq. unfold stubFetch.
    pose proof (fetch_roomId req server (rooms target)) as Hroom.
    unfold stateOf in Hroom.
    destruct (fetch req server (rooms target)) as [[resp st'] t].
    cbn [fst snd] in *. unfold setRoom.
    destruct (String.eqb_spec name target) as [-> | _]; [| exact Hinv].
    rewrite Hroom. destruct Hreq as [-> | [-> Hne]]; [exact Hinv |].
    cbn [truthy]. apply String.eqb_neq in Hne. rewrite Hne. cbn.
    right. split; [reflexivity |]. now apply String.eqb_neq. }
  destruct (matchChat (wr_pathname request)) as [roomId|] eqn:Hc.
  - apply matchChat_iff in Hc. destruct Hc as [_ [Hne _]].
    pose proof Hne as Hne'. apply String.eqb_neq in Hne'. rewrite Hne'.
    specialize (Hstub roomId
                  (mkRequest "/websocket" (Some roomId) (wr_upgrade request))
                  (or_intror (conj eq_refl Hne))).
    cbn zeta in Hstub.
    destruct (stubFetch _ _ _ _) as [[[response|] rooms'] t]; exact Hstub.
  - destruct (matchHistory (wr_pathname request)) as [roomId|];
      [| exact Hinv].
    destruct (wr_method request =? "GET")%string; [| exact Hinv].
    specialize (Hstub roomId (mkRequest "/history" None None)
                  (or_introl eq_refl)).
    cbn zeta in Hstub.
    destruct (stubFetch _ _ _ _) as [[[response|] rooms'] t]; exact Hstub.
Qed.

(** X23. Rooms are reached by [fetch] through the worker only, and the
    worker passes an actor its own name as [room_id].  So in every state
    of the deployment the room id of the actor named [n] is unset or [n],
    and an actor whose room id is set refuses every token whose room claim
    is not its name. *)
Theorem actor_room_id_is_its_name
  (env : Env) (es : list SystemEvent) (name : string) :
  forallb viaWorker es = true ->
  let room := systemRun env freshRooms es name in
  (roomId room = None \/ roomId room = Some name)
  /\ (forall payload,
         roomId room <> None -> reading_id payload <> name ->
         roomDiffers room payload = true).
Proof.
  intros Hvia room.
  assert (Hinv : roomId room = None
                 \/ (roomId room = Some name /\ name <> EmptyString)).
  { subst room.
    assert (H0 : roomId (freshRooms name) = None
                 \/ (roomId (freshRooms name) = Some name
                     /\ name <> EmptyString)) by now left.
    revert H0 Hvia. generalize freshRooms as rooms.
    induction es as [|e es IH]; intros rooms H0 Hvia; [exact H0 |].
    cbn [forallb] in Hvia. apply andb_true_iff in Hvia.
    destruct Hvia as [He Hes]. cbn [systemRun]. apply IH; [| exact Hes].
    destruct e as [request server | target ev | target sockets];
      cbn [systemStep fst].
    - now apply workerFetch_roomId.
    - unfold setRoom. destruct (String.eqb_spec name target) as [-> | _];
        [| exact H0].
      rewrite step_keeps_roomId; [exact H0 |].
      intros request server ->. discriminate.
    - unfold setRoom. destruct (String.eqb_spec name target) as [-> | _];
        [now left | exact H0]. }
  split; [destruct Hinv as [H | [H _]]; tauto |].
  intros payload Hset Hdiff. apply roomDiffers_true_iff.
  destruct Hinv as [H | [H Hne]]; [contradiction |].
  now exists name.
Qed.

Lemma actor_room_id_is_its_name_witness :
  roomDiffers
    (systemRun productionEnv freshRooms
       [Incoming (mkWorkerRequest "GET" "/chat/r1" (Some "websocket")) 1;
        AtRoom "r1" (WsMessage 1 (JsonValue (frameOf "ping"))
                       (world "m" None None))]
       "r1"%string)
    (mkToken "client-9" "r2" client "Carol" "7" "3")
  = true.
Proof.
  apply (proj2 (@actor_room_id_is_its_name productionEnv
                  [Incoming (mkWorkerRequest "GET" "/chat/r1"
                               (Some "websocket")) 1;
                   AtRoom "r1" (WsMessage 1 (JsonValue (frameOf "ping"))
                                  (world "m" None None))]
                  "r1"%string eq_refl));
    discriminate.
Defined.

(* ------------------------------------------------------------------ *)
(** ** The ledger client under the room *)

Lemma statusOk_iff status :
  statusOk status = true <-> (200 <= status <= 299)%Z.
Proof. unfold statusOk. rewrite andb_true_iff, !Z.leb_le. tauto. Qed.

(** X24. The ledger call of an [end_chat] is a [POST] to
    [end-reading.php] under the base URL, with the API key header, naming
    the room id, the initiator's type and the reason.  When the reply has
    a status from 200 to 299 and a JSON object as body, the room sends
    [chat_ended] and the confirmation made of that object, whatever its
    fields say.  When [fetch] fails, the body is not JSON, the body is
    [null], or the status is anything else, the room stays open: the
    initiator gets the fixed retry message, not the ledger's text, and
    nothing else is sent.  With an object as body and such a status the
    request rejects with the body's [error] text, or [HTTP] and the status
    when there is none; with [null] as body it resolves to [null] on a
    status from 200 to 299 and is left by an exception otherwise. *)
Theorem end_reading_reply_decides_the_room
  (env : Env) (api : PhpApiClient) (o : Oracle) (ws : WebSocket)
  (session : SessionData) (data : Frame) (st : ChatRoom) (rid : string)
  (outcome : HttpOutcome EndReadingResponse) :
  sessions_get ws (sessions st) = Some session ->
  authenticated session = true ->
  d_type data = Some "end_chat"%string ->
  tokenPayload st <> None ->
  roomId st = Some rid -> rid <> EmptyString ->
  let call := PhpApiClient_endReading api (endParamsOf st session data) in
  endReadingResult o = settledValue (snd call outcome) ->
  let r := webSocketMessage env o ws (JsonValue data) st in
  fst call
  = mkHttp (baseUrl api ++ "/end-reading.php")%string (Some "POST"%string)
      [("X-Chat-API-Key", apiKey api); ("Content-Type", "application/json")]%string
      (Some [("reading_id", JString rid);
             ("ended_by", JString (userTypeText (userType session)));
             ("reason", JString (orElse (d_reason data) "normal"))]%string)
  /\ In (EndReadingCall (endParamsOf st session data)) (traceOf r)
  /\ (forall status result error,
         outcome = JsonReply status result error ->
         (200 <= status <= 299)%Z ->
         stateOf r = st
         /\ In (Send ws (OutEndChatSuccess result)) (traceOf r)
         /\ (forall w s,
                In (w, s) (sessions st) -> authenticated s = true ->
                In (Send w (OutChatEnded (userType session) (userName session)
                              (orElse (d_reason data) "normal")
                              (er_billing result) (now o))) (traceOf r)))
  /\ (outcome = FetchRejects
      \/ (exists status, outcome = NotJson status)
      \/ (exists status, outcome = NullReply status)
      \/ (exists status result error,
             outcome = JsonReply status result error
             /\ ~ (200 <= status <= 299)%Z) ->
      r = (Some tt, st,
           [EndReadingCall (endParamsOf st session data);
            Send ws (OutError "Failed to end chat. Please try again.")]))
  /\ (forall status result error,
         ~ (200 <= status <= 299)%Z ->
         snd call (JsonReply status result error)
         = Rejected (Some (orElse error (httpStatusText status))))
  /\ (forall status,
         snd call (NullReply status)
         = if statusOk status then ResolvedNull else Rejected None).
Proof.
  intros Hs Ha Ht Htp Hrid Hne call Hres r. subst r call.
  assert (Hb : contextBound st = true).
  { unfold contextBound. rewrite Hrid. cbn.
    destruct (tokenPayload st); [| contradiction].
    apply String.eqb_neq in Hne. now rewrite Hne. }
  rewrite (@webSocketMessage_end_chat env o ws session data st Hs Ha Ht).
  split; [| split; [| split; [| split; [| split]]]].
  - unfold PhpApiClient_endReading, request, endParamsOf. cbn.
    rewrite Hrid. cbn. apply String.eqb_neq in Hne. now rewrite Hne.
  - destruct (endReadingResult o) as [result|] eqn:E.
    + rewrite (@handleEndChat_resolved o ws session data st result Hb E).
      now left.
    + rewrite (@handleEndChat_rejected o ws session data st Hb E). now left.
  - intros status result error -> Hok. apply statusOk_iff in Hok.
    unfold PhpApiClient_endReading, request in Hres. cbn in Hres.
    rewrite Hok in Hres. cbn in Hres.
    rewrite (@handleEndChat_resolved o ws session data st result Hb Hres).
    unfold stateOf, traceOf. cbn [fst snd].
    split; [reflexivity |]. split.
    + right. apply in_or_app. right. now left.
    + intros w s Hin Hauth. right. apply in_or_app. left.
      apply in_map_iff. exists w.
      split; [reflexivity |]. apply in_recipients. exists s.
      split; [exact Hin | now split].
  - intros Hfail.
    assert (Hnone : endReadingResult o = None).
    { rewrite Hres. unfold PhpApiClient_endReading, request. cbn.
      destruct Hfail
        as [-> | [[status ->] | [[status ->]
                                | [status [result [error [-> Hno]]]]]]];
        try reflexivity.
      - now destruct (statusOk status).
      - destruct (statusOk status) eqn:E; [| reflexivity].
        apply statusOk_iff in E. contradiction. }
    now rewrite (@handleEndChat_rejected o ws session data st Hb Hnone).
  - intros status result error Hno.
    unfold PhpApiClient_endReading, request. cbn.
    destruct (statusOk status) eqn:E; [| reflexivity].
    apply statusOk_iff in E. contradiction.
  - intros status. unfold PhpApiClient_endReading, request. cbn.
    now destruct (statusOk status).
Qed.

Lemma end_reading_reply_decides_the_room_witness :
  let reply :=
    JsonReply 503 (mkEndReading false 41 "client" "normal" None None None)
      None in
  snd (PhpApiClient_endReading (PhpApiClient_constructor None (Some "k"))
         (endParamsOf roomR1 alice (frameOf "end_chat"))) reply
  = Rejected (Some "HTTP 503"%string)
  /\ snd (PhpApiClient_endReading (PhpApiClient_constructor None (Some "k"))
            (endParamsOf roomR1 alice (frameOf "end_chat")))
       (NullReply 200)
     = ResolvedNull
  /\ webSocketMessage productionEnv (world "e" None None) 1
       (JsonValue (frameOf "end_chat")) roomR1
     = (Some tt, roomR1,
        [EndReadingCall (endParamsOf roomR1 alice (frameOf "end_chat"));
         Send 1 (OutError "Failed to end chat. Please try again.")]).
Proof.
  intros reply.
  destruct (@end_reading_reply_decides_the_room productionEnv
              (PhpApiClient_constructor None (Some "k"))
              (world "e" None None) 1 alice (frameOf "end_chat") roomR1
              "r1"%string reply eq_refl eq_refl eq_refl ltac:(discriminate)
              eq_refl ltac:(discriminate) eq_refl)
    as [_ [_ [_ [Hopen [Hmsg Hnull]]]]].
  split; [| split].
  - apply (Hmsg 503%Z). lia.
  - exact (Hnull 200%Z).
  - apply Hopen. right. right. right. exists 503%Z. do 2 eexists.
    split; [reflexivity | lia].
Defined.

(** X25. The sync job of an accepted message is a [POST] to
    [sync-message.php] under the base URL, with the API key header, whose
    body has the id, text and timestamp of the row just logged, the
    sender's type, the room id, and the party ids of the stored claims.
    The base URL is [https://clairvora.com/api/chat] and the key is empty
    when the bindings are missing or empty. *)
Theorem sync_request_carries_the_logged_row
  (env : Env) (api : PhpApiClient) (o : Oracle) (ws : WebSocket)
  (session : SessionData) (data : Frame) (content : string) (st : ChatRoom)
  (claims : TokenPayload) (rid : string) :
  sessions_get ws (sessions st) = Some session ->
  authenticated session = true ->
  d_type data = Some "message"%string ->
  d_content data = Some content ->
  content <> EmptyString ->
  allWhiteSpace content = false ->
  idInLog (randomUUID o) (messages st) = false ->
  tokenPayload st = Some claims ->
  roomId st = Some rid -> rid <> EmptyString ->
  let r := webSocketMessage env o ws (JsonValue data) st in
  (exists row job,
      messages (stateOf r) = messages st ++ [row]
      /\ sm_content row = sanitizeContent content
      /\ In (WaitUntilSync job) (traceOf r)
      /\ (forall job', In (WaitUntilSync job') (traceOf r) -> job' = job)
      /\ fst (syncMessage api job)
         = mkHttp (baseUrl api ++ "/sync-message.php")%string
             (Some "POST"%string)
             [("X-Chat-API-Key", apiKey api);
              ("Content-Type", "application/json")]%string
             (Some [("reading_id", JString rid);
                    ("client_id", JString (client_id claims));
                    ("advisor_id", JString (advisor_id claims));
                    ("user_type", JString (sm_user_type row));
                    ("message", JString (sm_content row));
                    ("message_id", JString (sm_id row));
                    ("timestamp", JNumber (sm_timestamp row))]%string))
  /\ (forall url key,
         truthy url = false -> truthy key = false ->
         PhpApiClient_constructor url key
         = mkPhpApi "https://clairvora.com/api/chat" "").
Proof.
  intros Hs Ha Ht Hc Hne Hw Hid Htp Hrid Hrne r.
  split.
  - destruct (@sync_job_carries_the_logged_row env o ws session data content st
                Hs Ha Ht Hc Hne Hw Hid)
      as [row [sends [Hlog [Hsends [Hjob _]]]]].
    fold r in Hlog, Hjob. specialize (Hjob claims rid Htp Hrid Hrne).
    assert (Hrow : row = storedOf (chatMessageOf o session data)).
    { subst r. revert Hlog.
      rewrite (@webSocketMessage_accepts env o ws session data st Hs Ha Ht
                 (@accepted_content data content Hc Hne Hw) Hid).
      unfold stateOf. cbn [fst snd messages set_messages]. intros Hlog.
      apply app_inv_head in Hlog. now injection Hlog. }
    exists row. eexists. split; [exact Hlog |]. split; [| split; [| split]].
    + rewrite Hrow. cbn. now rewrite (orElse_content data Hc Hne).
    + rewrite Hjob. right. apply in_or_app. right. left. reflexivity.
    + intros job' Hin. rewrite Hjob in Hin.
      destruct Hin as [H | Hin]; [discriminate |].
      apply in_app_or in Hin. destruct Hin as [Hin | [H | []]].
      * destruct (Hsends _ Hin) as [w [m H]]. discriminate.
      * now injection H.
    + rewrite Hrow. reflexivity.
  - intros url key Hurl Hkey. unfold PhpApiClient_constructor.
    destruct url as [u|], key as [k|]; cbn in *;
      repeat match goal with
             | H : negb (?x =? "")%string = false |- _ =>
                 apply negb_false_iff in H; rewrite H
             end; reflexivity.
Qed.

Lemma sync_request_carries_the_logged_row_witness :
  exists job,
    In (WaitUntilSync job)
      (traceOf (webSocketMessage productionEnv (world "m1" None None) 2
                  (JsonValue (chatFrame "<b>")) roomR1))
    /\ http_body (fst (syncMessage (PhpApiClient_constructor None None) job))
       = Some [("reading_id", JString "r1"); ("client_id", JString "7");
               ("advisor_id", JString "3"); ("user_type", JString "advisor");
               ("message", JString "&lt;b&gt;"); ("message_id", JString "m1");
               ("timestamp", JNumber 1700000000000)]%string.
Proof.
  destruct (proj1 (@sync_request_carries_the_logged_row productionEnv
              (PhpApiClient_constructor None None) (world "m1" None None) 2
              bob (chatFrame "<b>") "<b>"%string roomR1 aliceClaims
              "r1"%string eq_refl eq_refl eq_refl eq_refl ltac:(discriminate)
              eq_refl eq_refl eq_refl eq_refl ltac:(discriminate)))
    as [row [job [_ [_ [Hin [Huniq _]]]]]].
  exists job. split; [exact Hin |].
  rewrite <- (Huniq (mkSync "r1" "7" "3" advisor "&lt;b&gt;" "m1"
                       1700000000000)).
  - reflexivity.
  - vm_compute. right. right. right. left. reflexivity.
Defined.

(* ------------------------------------------------------------------ *)
(** ** [sanitizeContent] and text of any code units *)

Lemma N_of_ascii_eqb (x c : ascii) :
  (N_of_ascii x =? N_of_ascii c)%N = Ascii.eqb x c.
Proof.
  destruct (Ascii.eqb_spec x c) as [-> | Hne]; [apply N.eqb_refl |].
  apply N.eqb_neq. intros H. apply Hne.
  rewrite <- (ascii_N_embedding x), <- (ascii_N_embedding c).
  now rewrite H.
Qed.

Lemma ofString_cons (x : ascii) (s : string) :
  Utf16.ofString (String x s) = N_of_ascii x :: Utf16.ofString s.
Proof. reflexivity. Qed.

Lemma ofString_append (a b : string) :
  Utf16.ofString (a ++ b)%string = Utf16.ofString a ++ Utf16.ofString b.
Proof.
  induction a as [|x a IH]; [reflexivity |].
  cbn [append]. rewrite !ofString_cons, IH. reflexivity.
Qed.

Lemma ofString_replaceAll (c : ascii) (r s : string) :
  Utf16.replaceAll (N_of_ascii c) (Utf16.ofString r) (Utf16.ofString s)
  = Utf16.ofString (replaceAll c r s).
Proof.
  induction s as [|x s IH]; [reflexivity |].
  rewrite ofString_cons. cbn [Utf16.replaceAll replaceAll].
  rewrite N_of_ascii_eqb, IH.
  destruct (Ascii.eqb x c); [now rewrite ofString_append | reflexivity].
Qed.

Lemma ofString_substring0 (n : nat) (s : string) :
  firstn n (Utf16.ofString s) = Utf16.ofString (substring 0 n s).
Proof.
  revert s. induction n as [|n IH]; intros [|x s]; try reflexivity.
  rewrite ofString_cons. cbn [firstn substring].
  rewrite ofString_cons, IH. reflexivity.
Qed.

(** On text of code units below 256 the two [sanitizeContent] agree. *)
Lemma ofString_sanitizeContent (content : string) :
  Utf16.sanitizeContent (Utf16.ofString content)
  = Utf16.ofString (sanitizeContent content).
Proof.
  unfold Utf16.sanitizeContent, sanitizeContent.
  change 38%N with (N_of_ascii "&"%char).
  change 60%N with (N_of_ascii "<"%char).
  change 62%N with (N_of_ascii ">"%char).
  change 34%N with (N_of_ascii quoteChar).
  change 39%N with (N_of_ascii "'"%char).
  rewrite !ofString_replaceAll. apply ofString_substring0.
Qed.

Lemma below_256_is_no_surrogate (u : N) :
  (u < 256)%N ->
  Utf16.isHighSurrogate u = false /\ Utf16.isLowSurrogate u = false.
Proof.
  intros H. unfold Utf16.isHighSurrogate, Utf16.isLowSurrogate.
  split; apply andb_false_iff; left; apply N.leb_gt; lia.
Qed.

(** Text of code units below 256 comes back from the log as it went. *)
Lemma columnText_ofString (s : string) :
  Utf16.columnText (Utf16.ofString s) = Utf16.ofString s.
Proof.
  induction s as [|x s IH]; [reflexivity |].
  rewrite ofString_cons.
  destruct (below_256_is_no_surrogate (N_ascii_bounded x)) as [Hh Hl].
  cbn [Utf16.columnText]. rewrite Hh, Hl, IH. reflexivity.
Qed.

Lemma columnText_wellFormed_upto (n : nat) :
  forall s, List.length s <= n -> Utf16.wellFormed s = true ->
            Utf16.columnText s = s.
Proof.
  induction n as [|n IH]; intros [|u rest] Hlen Hwf; try reflexivity;
    [simpl in Hlen; lia |].
  cbn [Utf16.wellFormed] in Hwf. cbn [Utf16.columnText].
  simpl in Hlen.
  destruct (Utf16.isHighSurrogate u).
  - destruct rest as [|v rest']; [discriminate |].
    apply andb_true_iff in Hwf. destruct Hwf as [Hv Hwf]. rewrite Hv.
    simpl in Hlen. rewrite (IH rest'); [reflexivity | lia | exact Hwf].
  - apply andb_true_iff in Hwf. destruct Hwf as [Hu Hwf].
    apply negb_true_iff in Hu. rewrite Hu.
    rewrite (IH rest); [reflexivity | lia | exact Hwf].
Qed.

Lemma Utf16_replaceAll_length (c : N) (r s : Utf16.JsString) :
  1 <= List.length r ->
  List.length s <= List.length (Utf16.replaceAll c r s).
Proof.
  intros Hr. induction s as [|x s IH]; [apply le_n |].
  cbn [Utf16.replaceAll]. destruct (x =? c)%N.
  - rewrite List.length_app. simpl. lia.
  - simpl. lia.
Qed.

(** X26. For an accepted message whose content has only code units below
    256, the content is computed once, by [sanitizeContent], when the
    message is accepted: the row written to the log and the payload
    broadcast carry that same text, and the log gives it back as it is.
    The text is the input with [&], [<], [>], the double quote and the
    apostrophe replaced by their entities, cut at 1000 code units; an input
    of more than 1000 gives exactly 1000, and the script example gives the
    escaped form.  [sanitizeContent] on any code units gives the same on
    such text. *)
Theorem content_below_256_is_stored_as_broadcast
  (env : Env) (o : Oracle) (ws : WebSocket) (session : SessionData)
  (data : Frame) (content : string) (st : ChatRoom) :
  sessions_get ws (sessions st) = Some session ->
  authenticated session = true ->
  d_type data = Some "message" ->
  d_content data = Some content ->
  content <> EmptyString ->
  allWhiteSpace content = false ->
  idInLog (randomUUID o) (messages st) = false ->
  let r := webSocketMessage env o ws (JsonValue data) st in
  let stored := substring 0 contentCap (escapeHtml content) in
  (exists m,
      msg_content m = stored
      /\ sm_content (storedOf m) = stored
      /\ messages (stateOf r) = messages st ++ [storedOf m]
      /\ In (SqlInsert (storedOf m)) (traceOf r)
      /\ In (Send ws (OutMessage m)) (traceOf r)
      /\ (forall w q, In (Send w (OutMessage q)) (traceOf r) -> q = m))
  /\ (forall limit row,
         In row (recentRows limit (messages (stateOf r))) ->
         In row (messages (stateOf r)))
  /\ String.length stored <= contentCap
  /\ (contentCap < String.length content -> String.length stored = contentCap)
  /\ contentCap = 1000
  /\ sanitizeContent "<script>alert(1)</script>"
     = "&lt;script&gt;alert(1)&lt;/script&gt;"%string
  /\ Utf16.sanitizeContent (Utf16.ofString content) = Utf16.ofString stored
  /\ Utf16.columnText (Utf16.ofString stored) = Utf16.ofString stored.
Proof.
  intros Hs Ha Ht Hc Hne Hws Hid r stored.
  assert (Hstored : sanitizeContent (orElse (d_content data) "") = stored).
  { rewrite (orElse_content data Hc Hne). apply sanitizeContent_refines. }
  split; [| split; [| split; [| split; [| split; [| split; [| split]]]]]].
  - exists (chatMessageOf o session data). subst r.
    rewrite (@webSocketMessage_accepts env o ws session data st Hs Ha Ht
               (@accepted_content data content Hc Hne Hws) Hid).
    unfold stateOf, traceOf. cbn [fst snd].
    split; [exact Hstored |]. split; [exact Hstored |].
    split; [reflexivity |]. split; [now left |].
    split.
    + right. apply in_or_app. left.
      apply in_map_iff. exists ws. split; [reflexivity |].
      apply in_recipients. exists session.
      repeat split; [now apply sessions_get_In | assumption].
    + intros w q [Hin | Hin]; [discriminate |].
      apply in_app_or in Hin. destruct Hin as [Hin | Hin].
      * apply in_map_iff in Hin. destruct Hin as [w' [[= _ ->] _]].
        reflexivity.
      * unfold syncJobs in Hin.
        destruct (tokenPayload st); [destruct (truthy (roomId st)) |];
          simpl in Hin; try contradiction.
        destruct Hin as [Hin | []]. discriminate.
  - intros limit row. apply recentRows_verbatim.
  - subst stored. rewrite length_substring0. apply Nat.le_min_l.
  - intros Hlong. subst stored. rewrite length_substring0.
    pose proof (escapeHtml_length content). lia.
  - reflexivity.
  - reflexivity.
  - rewrite ofString_sanitizeContent. subst stored.
    now rewrite sanitizeContent_refines.
  - apply columnText_ofString.
Qed.

Lemma content_below_256_is_stored_as_broadcast_witness :
  let content := repeatChar 1001 "<"%char in
  let r := webSocketMessage productionEnv (world "m1" None None) 1
             (JsonValue (chatFrame content)) roomR1 in
  exists m, String.length (msg_content m) = 1000
            /\ In (SqlInsert (storedOf m)) (traceOf r)
            /\ In (Send 1 (OutMessage m)) (traceOf r).
Proof.
  intros content r.
  destruct (@content_below_256_is_stored_as_broadcast productionEnv
              (world "m1" None None) 1 alice (chatFrame content) content roomR1
              eq_refl eq_refl eq_refl eq_refl ltac:(discriminate)
              eq_refl eq_refl)
    as [[m [Hc [_ [_ [Hlog [Hsend _]]]]]] [_ [_ [Hlong _]]]].
  exists m. split; [| split; assumption].
  rewrite Hc. apply Hlong. vm_compute. apply le_n.
Defined.

(** X27. Whatever code units the input has, the text [sanitizeContent]
    returns has at most 1000 code units, and exactly 1000 when the input
    has more.  When that text is well-formed, with no surrogate outside a
    pair, the log gives back the very text that is broadcast. *)
Theorem sanitizeContent_caps_any_code_units (content : Utf16.JsString) :
  let value := Utf16.sanitizeContent content in
  List.length value <= contentCap
  /\ (contentCap < List.length content -> List.length value = contentCap)
  /\ (Utf16.wellFormed value = true -> Utf16.columnText value = value).
Proof.
  intros value.
  assert (Hlen : List.length value
                 = Nat.min 1000
                     (List.length
                        (Utf16.replaceAll 39 (Utf16.ofString "&#039;")
                           (Utf16.replaceAll 34 (Utf16.ofString "&quot;")
                              (Utf16.replaceAll 62 (Utf16.ofString "&gt;")
                                 (Utf16.replaceAll 60 (Utf16.ofString "&lt;")
                                    (Utf16.replaceAll 38
                                       (Utf16.ofString "&amp;") content))))))).
  { subst value. unfold Utf16.sanitizeContent. apply List.length_firstn. }
  unfold contentCap. split; [| split].
  - rewrite Hlen. apply Nat.le_min_l.
  - intros Hlong. rewrite Hlen.
    set (s1 := Utf16.replaceAll 38 (Utf16.ofString "&amp;") content).
    set (s2 := Utf16.replaceAll 60 (Utf16.ofString "&lt;") s1).
    set (s3 := Utf16.replaceAll 62 (Utf16.ofString "&gt;") s2).
    set (s4 := Utf16.replaceAll 34 (Utf16.ofString "&quot;") s3).
    set (s5 := Utf16.replaceAll 39 (Utf16.ofString "&#039;") s4).
    assert (H1 : List.length content <= List.length s1)
      by (apply Utf16_replaceAll_length; cbn; lia).
    assert (H2 : List.length s1 <= List.length s2)
      by (apply Utf16_replaceAll_length; cbn; lia).
    assert (H3 : List.length s2 <= List.length s3)
      by (apply Utf16_replaceAll_length; cbn; lia).
    assert (H4 : List.length s3 <= List.length s4)
      by (apply Utf16_replaceAll_length; cbn; lia).
    assert (H5 : List.length s4 <= List.length s5)
      by (apply Utf16_replaceAll_length; cbn; lia).
    lia.
  - intros Hwf.
    now apply (@columnText_wellFormed_upto (List.length value) value).
Qed.

Lemma sanitizeContent_caps_any_code_units_witness :
  Utf16.columnText (Utf16.sanitizeContent [55357; 56832; 60]%N)
  = [55357; 56832; 38; 108; 116; 59]%N.
Proof.
  destruct (sanitizeContent_caps_any_code_units [55357; 56832; 60]%N)
    as [_ [_ Hback]].
  rewrite (Hback eq_refl). reflexivity.
Defined.

(* ------------------------------------------------------------------ *)
(** ** Further properties on the room ["r1"] *)

Lemma validateToken_requires_the_four_claims_witness :
  validateToken (world "a" (Some (jwtFor "client-7" "r1" "Alice" client)) None)
    "jwt-alice" "hs256-secret"
  = Some aliceClaims.
Proof.
  apply validateToken_requires_the_four_claims.
  exists (jwtFor "client-7" "r1" "Alice" client).
  repeat split; discriminate.
Defined.

Lemma error_then_close_is_silent_witness :
  snd (step productionEnv (fst (step productionEnv roomR1 (WsError 1)))
         (WsClose 1 1006 ""))
  = []
  /\ sessions_get 2 (sessions (fst (step productionEnv roomR1 (WsError 1))))
     = Some bob.
Proof.
  pose proof (error_then_close_is_silent productionEnv 1 1006 "" roomR1)
    as [_ [_ [Hothers [Hsilent _]]]].
  split; [exact Hsilent |].
  rewrite (Hothers 2); [reflexivity | discriminate].
Defined.

Lemma grace_timeout_closes_every_connection_witness :
  In (Close 3 1000 "Chat session ended") (snd (step productionEnv roomR1 Timeout))
  /\ sessions (fst (step productionEnv roomR1 Timeout)) = [].
Proof.
  pose proof (grace_timeout_closes_every_connection productionEnv roomR1)
    as [_ [Hempty [_ [_ [_ Hall]]]]].
  split; [exact (Hall 3 visitor eq_refl) | exact Hempty].
Defined.
